(** * The OAuth2 credential manager of the WhatsApp MCP server

    A shallow embedding of [oauth_manager.py] (class [OAuth2TokenManager])
    and of the token helpers of [src/whatsapp_mcp/utils.py].

    Python values are dynamically typed, so the fields of the manager and
    the JSON documents it exchanges are values of one type [pyval].  The
    methods run in a state-and-exception monad over the pair of the
    manager object ([self]) and the outside world (clock, token provider,
    cache file, browser).  An exception leaves the state as it was when it
    was raised: nothing is rolled back, as in Python. *)

From Stdlib Require Import ZArith List String Bool Lia DecimalString.
Import ListNotations.
Open Scope string_scope.
Open Scope Z_scope.

Set Implicit Arguments.
Set Warnings "-register-all".


(** ** Python values *)

(** Numbers stand for Python's [int] and [float] alike: clock readings and
    lifetimes are counted in whole seconds.  A float holds whole seconds
    exactly up to [2 ** 53]; an int may be of any size. *)
Inductive pyval : Type :=
| PNone
| PBool (b : bool)
| PNum (n : Z)
| PStr (s : string)
| PList (xs : list pyval)
| PDict (kv : list (string * pyval)).

(** [bool(v)]. *)
Definition truthy (v : pyval) : bool :=
  match v with
  | PNone => false
  | PBool b => b
  | PNum n => negb (n =? 0)
  | PStr s => negb (s =? "")%string
  | PList xs => match xs with [] => false | _ => true end
  | PDict kv => match kv with [] => false | _ => true end
  end.

(** An [Optional[str]] as a Python value. *)
Definition opt_str (o : option string) : pyval :=
  match o with Some s => PStr s | None => PNone end.

(** The value of a number in arithmetic; [bool] is a subtype of [int]. *)
Definition as_number (v : pyval) : option Z :=
  match v with
  | PNum n => Some n
  | PBool b => Some (if b then 1 else 0)
  | _ => None
  end.

Definition type_name (v : pyval) : string :=
  match v with
  | PNone => "NoneType"
  | PBool _ => "bool"
  | PNum _ => "float"
  | PStr _ => "str"
  | PList _ => "list"
  | PDict _ => "dict"
  end.

(** A dict literal or decoded JSON object is a list of bindings; the first
    binding of a key is the one that counts. *)
Fixpoint lookup (k : string) (kv : list (string * pyval)) : option pyval :=
  match kv with
  | [] => None
  | (k', v) :: rest => if (k =? k')%string then Some v else lookup k rest
  end.

Definition decimal (n : Z) : string := NilZero.string_of_int (Z.to_int n).

(** [str(v)]; strings inside containers are quoted without escapes. *)
Fixpoint py_str (v : pyval) : string :=
  let quoted (w : pyval) : string :=
    match w with
    | PStr s => "'" ++ s ++ "'"
    | _ => py_str w
    end in
  match v with
  | PNone => "None"
  | PBool b => if b then "True" else "False"
  | PNum n => decimal n
  | PStr s => s
  | PList xs =>
      "[" ++ (fix items (l : list pyval) : string :=
                match l with
                | [] => ""
                | [x] => quoted x
                | x :: r => quoted x ++ ", " ++ items r
                end) xs ++ "]"
  | PDict kv =>
      "{" ++ (fix items (l : list (string * pyval)) : string :=
                match l with
                | [] => ""
                | [(k, x)] => "'" ++ k ++ "': " ++ quoted x
                | (k, x) :: r => "'" ++ k ++ "': " ++ quoted x ++ ", " ++ items r
                end) kv ++ "}"
  end.

(** ** Exceptions and results *)

(** The payload of an HTTP response or of the cache file: nothing, text
    that [json] cannot decode, or the value that [json] decodes it to.
    [json.dump] followed by [json.load] is taken to give the value back. *)
Inductive body : Type :=
| Empty
| Garbage
| Json (v : pyval).

Inductive exn : Type :=
| ValueError (msg : string)
| TypeError (msg : string)
| OverflowError (msg : string)
| AttributeError (msg : string)
| JSONDecodeError (msg : string)
| OSError (msg : string)
| TimeoutError (msg : string)
| TransportError (msg : string)              (* httpx: connect, read, timeout *)
| HTTPStatusError (msg : string) (content : body).

(** [str(e)]. *)
Definition exn_str (e : exn) : string :=
  match e with
  | ValueError m | TypeError m | OverflowError m | AttributeError m
  | JSONDecodeError m
  | OSError m | TimeoutError m | TransportError m | HTTPStatusError m _ => m
  end.

Inductive result (A : Type) : Type :=
| Ok (a : A)
| Raise (e : exn).
Arguments Ok {A} a.
Arguments Raise {A} e.

(** ** The manager object and the world around it *)

Record manager : Type := mkManager {
  client_id : option string;
  client_secret : option string;
  redirect_uri : string;
  scopes : string;
  _access_token : pyval;
  _token_expires_at : pyval;
  _refresh_token : pyval
}.

(** Query parameters of a request, in the order the code lists them. *)
Definition params : Type := list (string * pyval).

(** [f"{endpoint}?{urllib.parse.urlencode(query)}"]. *)
Record url : Type := mkUrl { endpoint : string; query : params }.

Record response : Type := mkResponse {
  is_success : bool;            (* what [raise_for_status] tests *)
  status_line : string;         (* the text of the [HTTPStatusError] *)
  content : body
}.

Inductive answer : Type :=
| NoAnswer (msg : string)       (* the POST itself raises *)
| Answer (r : response).

Record reply : Type := mkReply { latency : Z; outcome : answer }.

(** The cache file as [open] and [json.load] see it. *)
Inductive cache_file : Type :=
| Unreadable
| Readable (b : body).

(** How a write to the cache file ends. *)
Inductive write_behaviour : Type :=
| WriteOk
| WriteDenied         (* [open(..., "w")] raises, the file stays as it was *)
| WriteTruncated.     (* the file is opened and emptied, then the dump raises *)

(** A request reaching the local callback listener. *)
Inductive hit : Type :=
| CallbackWithCode (code : string)   (* GET /callback?code=... *)
| CallbackNoCode                     (* GET /callback without a code *)
| OtherPath.                         (* any other path: 404 *)

Record World : Type := mkWorld {
  clock : Z;                                  (* [time.time()] *)
  provider : list params -> params -> reply;  (* the token endpoint *)
  net_log : list params;                      (* POSTs issued so far *)
  token_file : option cache_file;             (* [None]: no such file *)
  on_write : write_behaviour;
  remove_denied : bool;
  visitor : list (Z * hit);                   (* seconds waited, request *)
  listening : list Z;                         (* ports with a live listener *)
  browser_log : list url                      (* [webbrowser.open] calls *)
}.

Record state : Type := mkState { self : manager; world : World }.

(** ** The monad *)

Definition M (A : Type) : Type := state -> result A * state.

Definition ret {A} (a : A) : M A := fun st => (Ok a, st).

Definition raise {A} (e : exn) : M A := fun st => (Raise e, st).

Definition bind {A B} (m : M A) (k : A -> M B) : M B :=
  fun st =>
    match m st with
    | (Ok a, st') => k a st'
    | (Raise e, st') => (Raise e, st')
    end.

(** [try: body  except Exception as e: handler(e)].  An exception raised
    by the handler itself is not caught again. *)
Definition try_except {A} (body : M A) (handler : exn -> M A) : M A :=
  fun st =>
    match body st with
    | (Ok a, st') => (Ok a, st')
    | (Raise e, st') => handler e st'
    end.

(** [try: body  finally: cleanup]. *)
Definition try_finally {A} (body : M A) (cleanup : M unit) : M A :=
  fun st =>
    match body st with
    | (r, st') =>
        match cleanup st' with
        | (Ok _, st'') => (r, st'')
        | (Raise e, st'') => (Raise e, st'')
        end
    end.

Declare Scope py_scope.
Delimit Scope py_scope with py.
Notation "x <- m ;; k" := (bind m (fun x => k))
  (at level 61, m at next level, right associativity) : py_scope.
Notation "m ;; k" := (bind m (fun _ => k))
  (at level 61, right associativity) : py_scope.
Open Scope py_scope.

Definition get_self : M manager := fun st => (Ok (self st), st).
Definition get_world : M World := fun st => (Ok (world st), st).
Definition put_self (m : manager) : M unit :=
  fun st => (Ok tt, mkState m (world st)).
Definition put_world (w : World) : M unit :=
  fun st => (Ok tt, mkState (self st) w).

(** ** Primitive effects *)

(** [time.time()]. *)
Definition time_time : M Z := fun st => (Ok (clock (world st)), st).

(** [await client.post(url, params=q)]: the request is logged, the time
    the provider takes passes, and the call raises or yields a response. *)
Definition client_post (q : params) : M response :=
  fun st =>
    let w := world st in
    let r := provider w (net_log w) q in
    let w' := mkWorld (clock w + latency r) (provider w) (net_log w ++ [q])
                (token_file w) (on_write w) (remove_denied w) (visitor w)
                (listening w) (browser_log w) in
    match outcome r with
    | NoAnswer msg => (Raise (TransportError msg), mkState (self st) w')
    | Answer resp => (Ok resp, mkState (self st) w')
    end.

(** [response.raise_for_status()]. *)
Definition raise_for_status (r : response) : M unit :=
  if is_success r then ret tt
  else raise (HTTPStatusError (status_line r) (content r)).

(** [response.json()] and [json.load(f)]. *)
Definition decode (b : body) : M pyval :=
  match b with
  | Json v => ret v
  | Empty | Garbage =>
      raise (JSONDecodeError "Expecting value: line 1 column 1 (char 0)")
  end.

(** [d.get(k, default)]; only a dict has the method. *)
Definition dict_get (d : pyval) (k : string) (default : pyval) : M pyval :=
  match d with
  | PDict kv =>
      ret (match lookup k kv with Some v => v | None => default end)
  | _ =>
      raise (AttributeError
               ("'" ++ type_name d ++ "' object has no attribute 'get'"))
  end.

(** The ints that [float(n)] rejects with [OverflowError]: those whose
    nearest float would be [2 ** 1024], one step above the largest. *)
Definition too_large_for_float (n : Z) : bool :=
  2 ^ 1024 - 2 ^ 970 <=? Z.abs n.
Arguments too_large_for_float n : simpl never.

(** [x + v] and [v - k] for a float [x] and an int [k].  In [x + v] the
    number [v] is converted to a float first, which an int can be too
    large for.  The sum is the exact one: that is the float sum as long
    as [x], [v] and the sum are whole seconds a float holds exactly
    ([adds_exactly] below), and the statements about a computed expiry
    are made within that range; beyond it the float sum is rounded.  In
    [v - k] an int [v] stays an int and a float [v] stays a float, and
    nothing is converted. *)
Definition num_add (x : Z) (v : pyval) : M Z :=
  match as_number v with
  | Some n =>
      if too_large_for_float n
      then raise (OverflowError "int too large to convert to float")
      else ret (x + n)
  | None =>
      raise (TypeError ("unsupported operand type(s) for +: 'float' and '"
                        ++ type_name v ++ "'"))
  end.

Definition num_sub (v : pyval) (k : Z) : M Z :=
  match as_number v with
  | Some n => ret (n - k)
  | None =>
      raise (TypeError ("unsupported operand type(s) for -: '"
                        ++ type_name v ++ "' and 'int'"))
  end.

Definition set_token_file (f : option cache_file) (w : World) : World :=
  mkWorld (clock w) (provider w) (net_log w) f (on_write w) (remove_denied w)
    (visitor w) (listening w) (browser_log w).

Definition set_listening (l : list Z) (w : World) : World :=
  mkWorld (clock w) (provider w) (net_log w) (token_file w) (on_write w)
    (remove_denied w) (visitor w) l (browser_log w).

(** [os.path.exists(self.token_file)]. *)
Definition path_exists : M bool :=
  fun st =>
    (Ok (match token_file (world st) with Some _ => true | None => false end),
     st).

(** [with open(self.token_file, "r") as f: json.load(f)]. *)
Definition load_json_file : M pyval :=
  w <- get_world ;;
  match token_file w with
  | None => raise (OSError "No such file or directory")
  | Some Unreadable => raise (OSError "Permission denied")
  | Some (Readable b) => decode b
  end.

(** [with open(self.token_file, "w") as f: json.dump(v, f)]. *)
Definition dump_json_file (v : pyval) : M unit :=
  w <- get_world ;;
  match on_write w with
  | WriteOk => put_world (set_token_file (Some (Readable (Json v))) w)
  | WriteDenied => raise (OSError "Permission denied")
  | WriteTruncated =>
      put_world (set_token_file (Some (Readable Empty)) w) ;;
      raise (OSError "No space left on device")
  end.

(** [os.remove(self.token_file)]. *)
Definition os_remove : M unit :=
  w <- get_world ;;
  if remove_denied w then raise (OSError "Permission denied")
  else put_world (set_token_file None w).

(** [socketserver.TCPServer(("localhost", port), handler)] followed by the
    start of its [serve_forever] thread. *)
Definition TCPServer (port : Z) : M unit :=
  w <- get_world ;;
  if existsb (Z.eqb port) (listening w)
  then raise (OSError "Address already in use")
  else put_world (set_listening (port :: listening w) w).

(** [server.shutdown(); server.server_close()]. *)
Definition server_shutdown (port : Z) : M unit :=
  w <- get_world ;;
  put_world
    (set_listening (filter (fun p => negb (p =? port)) (listening w)) w).

(** [webbrowser.open(u)]. *)
Definition webbrowser_open (u : url) : M unit :=
  w <- get_world ;;
  put_world (mkWorld (clock w) (provider w) (net_log w) (token_file w)
               (on_write w) (remove_denied w) (visitor w) (listening w)
               (browser_log w ++ [u])).

(** What [auth_code_future] resolves to while [asyncio.wait_for] waits
    [timeout] seconds: requests reach [OAuthCallbackHandler.do_GET] one
    after the other, [d] seconds after the previous one.  The result is
    the outcome, the seconds waited and the requests not yet served. *)
Fixpoint wait_for (timeout : Z) (hits : list (Z * hit))
  : result string * Z * list (Z * hit) :=
  match hits with
  | [] => (Raise (TimeoutError ""), timeout, [])
  | (d, h) :: rest =>
      if timeout <=? d
      then (Raise (TimeoutError ""), timeout, (d - timeout, h) :: rest)
      else
        match h with
        | CallbackWithCode code => (Ok code, d, rest)
        | CallbackNoCode =>
            (Raise (ValueError "No code found in callback"), d, rest)
        | OtherPath =>
            let '(r, t, rest') := wait_for (timeout - d) rest in
            (r, d + t, rest')
        end
  end.

(** [await asyncio.wait_for(auth_code_future, timeout)]. *)
Definition await_auth_code (timeout : Z) : M string :=
  fun st =>
    let w := world st in
    let '(r, t, rest) := wait_for timeout (visitor w) in
    (r, mkState (self st)
          (mkWorld (clock w + t) (provider w) (net_log w) (token_file w)
             (on_write w) (remove_denied w) rest (listening w)
             (browser_log w))).

(** Assignments to the attributes of [self]. *)
Definition set_redirect_uri (u : string) : M unit :=
  m <- get_self ;;
  put_self (mkManager (client_id m) (client_secret m) u (scopes m)
              (_access_token m) (_token_expires_at m) (_refresh_token m)).

Definition set__access_token (v : pyval) : M unit :=
  m <- get_self ;;
  put_self (mkManager (client_id m) (client_secret m) (redirect_uri m)
              (scopes m) v (_token_expires_at m) (_refresh_token m)).

Definition set__token_expires_at (v : pyval) : M unit :=
  m <- get_self ;;
  put_self (mkManager (client_id m) (client_secret m) (redirect_uri m)
              (scopes m) (_access_token m) v (_refresh_token m)).

Definition set__refresh_token (v : pyval) : M unit :=
  m <- get_self ;;
  put_self (mkManager (client_id m) (client_secret m) (redirect_uri m)
              (scopes m) (_access_token m) (_token_expires_at m) v).

(** ** class OAuth2TokenManager *)

Module OAuth2TokenManager.

(** [bool(self.client_id and self.client_secret)]. *)
Definition is_configured (m : manager) : bool :=
  truthy (opt_str (client_id m)) && truthy (opt_str (client_secret m)).

Definition _load_cached_token : M unit :=
  found <- path_exists ;;
  if found : bool then
    try_except
      (data <- load_json_file ;;
       a <- dict_get data "access_token" PNone ;;
       set__access_token a ;;
       e <- dict_get data "expires_at" PNone ;;
       set__token_expires_at e ;;
       r <- dict_get data "refresh_token" PNone ;;
       set__refresh_token r)
      (fun _ => ret tt)
  else ret tt.

(** [os.getenv(name, default)] over the process environment [environ]. *)
Definition getenv (environ : string -> option string) (name default : string)
  : string :=
  match environ name with Some v => v | None => default end.

Definition __init__ (environ : string -> option string) : M unit :=
  put_self
    (mkManager
       (environ "WHATSAPP_CLIENT_ID")
       (environ "WHATSAPP_CLIENT_SECRET")
       (getenv environ "WHATSAPP_OAUTH_REDIRECT_URI"
          "http://localhost:8080/callback")
       (getenv environ "WHATSAPP_OAUTH_SCOPES"
          "whatsapp_business_management,whatsapp_business_messaging,business_management")
       PNone PNone PNone) ;;
  _load_cached_token.

Definition _save_token (access_token expires_in refresh_token : pyval)
  : M unit :=
  set__access_token access_token ;;
  now <- time_time ;;
  expires_at <- num_add now expires_in ;;
  set__token_expires_at (PNum expires_at) ;;
  (if truthy refresh_token then set__refresh_token refresh_token
   else ret tt) ;;
  m <- get_self ;;
  try_except
    (dump_json_file
       (PDict [("access_token", access_token);
               ("expires_at", _token_expires_at m);
               ("refresh_token", refresh_token)]))
    (fun _ => ret tt).

Definition get_authorization_url (state_arg : option string) : M url :=
  m <- get_self ;;
  if negb (is_configured m) then
    raise (ValueError
             "OAuth2 not configured. Set WHATSAPP_CLIENT_ID and WHATSAPP_CLIENT_SECRET")
  else
    ret (mkUrl "https://www.facebook.com/v18.0/dialog/oauth"
           [("client_id", opt_str (client_id m));
            ("redirect_uri", PStr (redirect_uri m));
            ("scope", PStr (scopes m));
            ("response_type", PStr "code");
            ("state", if truthy (opt_str state_arg) then opt_str state_arg
                      else PStr "whatsapp_mcp_oauth")]).

(** The parameters of the [fb_exchange_token] grant. *)
Definition long_lived_params (m : manager) (token : pyval) : params :=
  [("grant_type", PStr "fb_exchange_token");
   ("client_id", opt_str (client_id m));
   ("client_secret", opt_str (client_secret m));
   ("fb_exchange_token", token)].

Definition _exchange_for_long_lived_token (short_lived_token : pyval)
  : M pyval :=
  m <- get_self ;;
  if negb (is_configured m) then ret PNone
  else
    try_except
      (response <- client_post (long_lived_params m short_lived_token) ;;
       raise_for_status response ;;
       decode (content response))
      (fun _ => ret PNone).

(** The two dicts [exchange_code_for_token] returns. *)
Definition success_result (access_token expires_in : pyval) : pyval :=
  PDict [("access_token", access_token);
         ("expires_in", expires_in);
         ("success", PBool true)].

Definition failure_result (error : pyval) : pyval :=
  PDict [("success", PBool false); ("error", error)].

(** The parameters of the authorization-code grant. *)
Definition code_params (m : manager) (authorization_code : string) : params :=
  [("client_id", opt_str (client_id m));
   ("client_secret", opt_str (client_secret m));
   ("redirect_uri", PStr (redirect_uri m));
   ("code", PStr authorization_code)].

Definition exchange_code_for_token (authorization_code : string) : M pyval :=
  m <- get_self ;;
  if negb (is_configured m) then raise (ValueError "OAuth2 not configured")
  else
    try_except
      (response <- client_post (code_params m authorization_code) ;;
       raise_for_status response ;;
       token_data <- decode (content response) ;;
       access_token <- dict_get token_data "access_token" PNone ;;
       expires_in <- dict_get token_data "expires_in" (PNum 3600) ;;
       long_lived_token <- _exchange_for_long_lived_token access_token ;;
       final <-
         (if truthy long_lived_token then
            a <- dict_get long_lived_token "access_token" access_token ;;
            e <- dict_get long_lived_token "expires_in" expires_in ;;
            ret (a, e)
          else ret (access_token, expires_in)) ;;
       refresh <- dict_get token_data "refresh_token" PNone ;;
       _save_token (fst final) (snd final) refresh ;;
       ret (success_result (fst final) (snd final)))
      (fun e =>
         match e with
         | HTTPStatusError _ c =>
             error_data <-
               (match c with
                | Empty => ret (PDict [])
                | _ => decode c
                end) ;;
             error <- dict_get error_data "error" (PDict []) ;;
             message <- dict_get error "message" (PStr (exn_str e)) ;;
             ret (failure_result message)
         | _ => ret (failure_result (PStr (exn_str e)))
         end).

Definition refresh_token : M bool :=
  m <- get_self ;;
  if negb (truthy (_refresh_token m)) then ret false
  else
    try_except
      (response <- client_post (long_lived_params m (_refresh_token m)) ;;
       raise_for_status response ;;
       token_data <- decode (content response) ;;
       access_token <- dict_get token_data "access_token" PNone ;;
       expires_in <- dict_get token_data "expires_in" (PNum 3600) ;;
       m' <- get_self ;;
       _save_token access_token expires_in (_refresh_token m') ;;
       ret true)
      (fun _ => ret false).

Definition REFRESH_BUFFER_SECONDS : Z := 1 * 24 * 3600.

Definition refresh_if_needed : M unit :=
  m <- get_self ;;
  if negb (truthy (_access_token m)) || negb (truthy (_token_expires_at m))
  then ret tt
  else
    now <- time_time ;;
    threshold <- num_sub (_token_expires_at m) REFRESH_BUFFER_SECONDS ;;
    if now <? threshold then ret tt
    else if negb (is_configured m) then ret tt
    else
      new_data <- _exchange_for_long_lived_token (_access_token m) ;;
      if truthy new_data then
        access_token <- dict_get new_data "access_token" PNone ;;
        expires_in <- dict_get new_data "expires_in" (PNum 5184000) ;;
        if truthy access_token then
          m' <- get_self ;;
          _save_token access_token expires_in (_refresh_token m')
        else ret tt
      else ret tt.

Definition get_access_token : M pyval :=
  m <- get_self ;;
  if truthy (_access_token m) && truthy (_token_expires_at m) then
    now <- time_time ;;
    threshold <- num_sub (_token_expires_at m) 300 ;;
    if now <? threshold then ret (_access_token m)
    else ret (_access_token m)
  else ret (_access_token m).

(** [expires_in] defaults to 3600 at the call sites that omit it. *)
Definition set_access_token (token : string) (expires_in : Z) : M unit :=
  _save_token (PStr token) (PNum expires_in) PNone.

Definition clear_token : M unit :=
  set__access_token PNone ;;
  set__token_expires_at PNone ;;
  set__refresh_token PNone ;;
  found <- path_exists ;;
  if found : bool then try_except os_remove (fun _ => ret tt)
  else ret tt.

(** [port] defaults to 8080.  The hand-over of the code from the listener
    thread to the waiting coroutine is the resolution of
    [auth_code_future], here [await_auth_code]. *)
Definition start_local_oauth_flow (port : Z) : M string :=
  m <- get_self ;;
  if negb (is_configured m) then
    raise (ValueError
             "OAuth2 not configured. Set WHATSAPP_CLIENT_ID and WHATSAPP_CLIENT_SECRET")
  else
    TCPServer port ;;
    try_finally
      (m0 <- get_self ;;
       let original_redirect_uri := redirect_uri m0 in
       set_redirect_uri ("http://localhost:" ++ decimal port ++ "/callback") ;;
       auth_url <- get_authorization_url None ;;
       webbrowser_open auth_url ;;
       code <-
         try_except (await_auth_code 300)
           (fun e =>
              match e with
              | TimeoutError _ =>
                  raise (TimeoutError "OAuth flow timed out. Please try again.")
              | _ => raise e
              end) ;;
       result <- exchange_code_for_token code ;;
       set_redirect_uri original_redirect_uri ;;
       ok <- dict_get result "success" PNone ;;
       if truthy ok then ret "Successfully authenticated and token cached."
       else
         error <- dict_get result "error" PNone ;;
         raise (ValueError ("Failed to exchange token: " ++ py_str error)))
      (server_shutdown port).

End OAuth2TokenManager.

(** ** src/whatsapp_mcp/utils.py *)

Module Utils.

(** The module-level [oauth_manager] is [None] when the import of
    [oauth_manager.py] failed. *)
Definition process : Type := (option manager * World)%type.

(** [if oauth_manager is None: return absent], else run the method. *)
Definition on_manager {A} (absent : A) (method : M A) (p : process)
  : result A * process :=
  match fst p with
  | None => (Ok absent, p)
  | Some m =>
      let '(r, st) := method (mkState m (snd p)) in
      (r, (Some (self st), world st))
  end.

Definition get_access_token : process -> result pyval * process :=
  on_manager PNone OAuth2TokenManager.get_access_token.

Definition get_valid_token : process -> result pyval * process :=
  on_manager PNone
    (OAuth2TokenManager.refresh_if_needed ;;
     OAuth2TokenManager.get_access_token).

(** [with open(path, "r") as f: json.load(f)] on a file given as found. *)
Definition load_json (f : option cache_file) : M pyval :=
  match f with
  | None => raise (OSError "No such file or directory")
  | Some Unreadable => raise (OSError "Permission denied")
  | Some (Readable b) => decode b
  end.

(** [has_valid_token] builds the path of the file it falls back to by
    itself, three directories above [utils.py]; [other_cache] is that
    file as found. *)
Definition has_valid_token (other_cache : option cache_file)
  : process -> result bool * process :=
  on_manager false
    (m <- get_self ;;
     if negb (OAuth2TokenManager.is_configured m) then ret false
     else
       token <- OAuth2TokenManager.get_access_token ;;
       if truthy token then ret true
       else
         match other_cache with
         | Some _ =>
             try_except
               (data <- load_json other_cache ;;
                found <- dict_get data "access_token" PNone ;;
                if truthy found then
                  a <- dict_get data "access_token" PNone ;;
                  set__access_token a ;;
                  e <- dict_get data "expires_at" PNone ;;
                  set__token_expires_at e ;;
                  r <- dict_get data "refresh_token" PNone ;;
                  set__refresh_token r ;;
                  ret true
                else ret false)
               (fun _ => ret false)
         | None => ret false
         end).

Definition get_token_error_message (p : process) : string :=
  match fst p with
  | None =>
      "OAuth2 manager not available. Ensure oauth_manager.py exists in the project directory."
  | Some m =>
      if negb (OAuth2TokenManager.is_configured m) then
        "OAuth2 is not configured. Please set WHATSAPP_CLIENT_ID and WHATSAPP_CLIENT_SECRET in .env file. "
        ++ "Then run 'python oauth_manager.py' to complete authorization."
      else
        "OAuth2 token not available. Please complete OAuth2 authorization flow. "
        ++ "Run 'python oauth_manager.py' to get and save the access token."
  end.

(** [mcp.types.TextContent]; [text] stands for the text
    [json.dumps(text, indent=2)] renders. *)
Record TextContent : Type := mkTextContent { type_ : string; text : pyval }.

(** [data] defaults to [None]. *)
Definition create_error_response (error data : pyval) : list TextContent :=
  [mkTextContent "text"
     (PDict ([("successful", PBool false); ("error", error)]
             ++ (if truthy data then [("data", data)] else [])))].

Definition create_success_response (data : pyval) : list TextContent :=
  [mkTextContent "text" (PDict [("successful", PBool true); ("data", data)])].

End Utils.

(** ** src/whatsapp_mcp/config.py *)

Record Config : Type := mkConfig {
  WHATSAPP_BUSINESS_ACCOUNT_ID : option string;
  WHATSAPP_PHONE_NUMBER_ID : option string;
  WHATSAPP_API_VERSION : string
}.

Definition config_of_env (environ : string -> option string) : Config :=
  mkConfig (environ "WHATSAPP_BUSINESS_ACCOUNT_ID")
    (environ "WHATSAPP_PHONE_NUMBER_ID")
    (OAuth2TokenManager.getenv environ "WHATSAPP_API_VERSION" "v18.0").

(** [oauth_manager.is_configured() if oauth_manager else False]. *)
Definition USE_OAUTH2 (p : Utils.process) : bool :=
  match fst p with
  | Some m => OAuth2TokenManager.is_configured m
  | None => false
  end.

(** ** src/whatsapp_mcp/tools *)

(** A formatted string: literal text and interpolated values, in order. *)
Inductive piece : Type :=
| Lit (s : string)
| Fmt (v : pyval).

Inductive verb : Type := GET | POST.

(** A request to the Graph API. *)
Record api_call : Type := mkCall {
  call_verb : verb;
  call_url : list piece;
  call_params : params;
  call_json : pyval;                          (* [PNone]: no body *)
  call_headers : list (string * list piece)
}.

(** The server process: the module-level manager and its world, the
    configuration, and the Graph API with the requests sent to it. *)
Record Server : Type := mkServer {
  proc : Utils.process;
  config : Config;
  graph : list api_call -> api_call -> reply;
  graph_log : list api_call
}.

Module Tools.

Definition T (A : Type) : Type := Server -> result A * Server.

Definition tret {A} (a : A) : T A := fun s => (Ok a, s).

Definition tbind {A B} (m : T A) (k : A -> T B) : T B :=
  fun s =>
    match m s with
    | (Ok a, s') => k a s'
    | (Raise e, s') => (Raise e, s')
    end.

Definition ttry {A} (body : T A) (handler : exn -> T A) : T A :=
  fun s =>
    match body s with
    | (Ok a, s') => (Ok a, s')
    | (Raise e, s') => handler e s'
    end.

(** A computation that reads and writes nothing. *)
Definition of_result {A} (r : result A) : T A := fun s => (r, s).

Declare Scope tool_scope.
Notation "x <- m ;; k" := (tbind m (fun x => k))
  (at level 61, m at next level, right associativity) : tool_scope.
Notation "m ;; k" := (tbind m (fun _ => k))
  (at level 61, right associativity) : tool_scope.
Local Open Scope tool_scope.

(** A function of [utils.py], run on the process of the server. *)
Definition in_process {A} (f : Utils.process -> result A * Utils.process)
  : T A :=
  fun s =>
    let '(r, p) := f (proc s) in
    (r, mkServer p (config s) (graph s) (graph_log s)).

Definition get_valid_token : T pyval := in_process Utils.get_valid_token.

Definition get_token_error_message : T string :=
  fun s => (Ok (Utils.get_token_error_message (proc s)), s).

Definition get_config : T Config := fun s => (Ok (config s), s).

(** [await client.get(...)] and [await client.post(...)] against the
    Graph API: the request is logged, the time it takes passes, and the
    call raises or yields a response. *)
Definition request (c : api_call) : T response :=
  fun s =>
    let r := graph s (graph_log s) c in
    let w := snd (proc s) in
    let w' := mkWorld (clock w + latency r) (provider w) (net_log w)
                (token_file w) (on_write w) (remove_denied w) (visitor w)
                (listening w) (browser_log w) in
    let s' := mkServer (fst (proc s), w') (config s) (graph s)
                (graph_log s ++ [c])%list in
    match outcome r with
    | NoAnswer msg => (Raise (TransportError msg), s')
    | Answer resp => (Ok resp, s')
    end.

(** [resp.raise_for_status()], [resp.json()] and [d.get(k, default)]. *)
Definition check_status (r : response) : result unit :=
  if is_success r then Ok tt
  else Raise (HTTPStatusError (status_line r) (content r)).

Definition json_of (b : body) : result pyval :=
  match b with
  | Json v => Ok v
  | Empty | Garbage =>
      Raise (JSONDecodeError "Expecting value: line 1 column 1 (char 0)")
  end.

Definition get_item (d : pyval) (k : string) (default : pyval) : result pyval :=
  match d with
  | PDict kv => Ok (match lookup k kv with Some v => v | None => default end)
  | _ =>
      Raise (AttributeError
               ("'" ++ type_name d ++ "' object has no attribute 'get'"))
  end.

(** The two [except] clauses every handler ends with. *)
Definition on_error (e : exn) : T (list Utils.TextContent) :=
  match e with
  | HTTPStatusError _ c =>
      error_data <-
        of_result (match c with
                   | Empty => Ok (PDict [])
                   | _ => json_of c
                   end) ;;
      error <- of_result (get_item error_data "error" (PDict [])) ;;
      message <- of_result (get_item error "message" (PStr (exn_str e))) ;;
      tret (Utils.create_error_response message error_data)
  | _ =>
      tret (Utils.create_error_response
              (PStr ("Unexpected error: " ++ exn_str e)) PNone)
  end.

(** [arguments.get(k)]. *)
Definition arg (k : string) (arguments : list (string * pyval)) : pyval :=
  match lookup k arguments with Some v => v | None => PNone end.

(** [a or b]. *)
Definition py_or (a b : pyval) : pyval := if truthy a then a else b.

(** [_missing] takes its positional arguments as the tuple [pairs],
    each argument being a tuple of items here; [for p, v in pairs]
    unpacks every argument into exactly two items.  Tuples are written
    as lists. *)
Fixpoint _missing (pairs : list (list pyval)) : result (list pyval) :=
  match pairs with
  | [] => Ok []
  | arg :: rest =>
      match arg with
      | [p; v] =>
          match _missing rest with
          | Ok l => Ok (if negb (truthy v) then p :: l else l)
          | Raise e => Raise e
          end
      | [] | [_] =>
          Raise (ValueError "not enough values to unpack (expected 2)")
      | _ :: _ :: _ :: _ =>
          Raise (ValueError "too many values to unpack (expected 2)")
      end
  end.

(** The pair [(name, value)] of a call of [_missing]. *)
Definition named (name : string) (value : pyval) : pyval :=
  PList [PStr name; value].

(** [d[k] = v] on a dict: the binding is replaced where it stands, or
    added at the end. *)
Fixpoint dict_set (k : string) (v : pyval) (kv : list (string * pyval))
  : list (string * pyval) :=
  match kv with
  | [] => [(k, v)]
  | (k', v') :: rest =>
      if (k =? k')%string then (k, v) :: rest
      else (k', v') :: dict_set k v rest
  end.

Definition graph_url (version : string) (path : list piece) : list piece :=
  ([Lit "https://graph.facebook.com/"; Lit version; Lit "/"] ++ path)%list.

Definition bearer (token : pyval) : string * list piece :=
  ("Authorization", [Lit "Bearer "; Fmt token]).

Definition json_content : string * list piece :=
  ("Content-Type", [Lit "application/json"]).

Section Messaging.

(** [str(v).strip().lower() in {"1", "true", "yes", "y", "on"}], a
    computation of the string library. *)
Variable says_yes : pyval -> bool.

Definition send_message (arguments : list (string * pyval))
  : T (list Utils.TextContent) :=
  token <- get_valid_token ;;
  if negb (truthy token) then
    msg <- get_token_error_message ;;
    tret (Utils.create_error_response (PStr msg) PNone)
  else
    cfg <- get_config ;;
    if negb (truthy (opt_str (WHATSAPP_PHONE_NUMBER_ID cfg))) then
      tret (Utils.create_error_response
              (PStr "WHATSAPP_PHONE_NUMBER_ID is not set") PNone)
    else
      let to_number := arg "to_number" arguments in
      let text_ := arg "text" arguments in
      missing <- of_result
                   (_missing [[named "to_number" to_number;
                               named "text" text_]]) ;;
      if truthy (PList missing) then
        tret (Utils.create_error_response
                (PStr "Missing required parameter(s): to_number, text") PNone)
      else
        let preview_url :=
          match lookup "preview_url" arguments with
          | Some v => v
          | None => PBool false
          end in
        let preview_url_bool :=
          match preview_url with
          | PBool b => b
          | PNone => false
          | v => says_yes v
          end in
        let message_id :=
          py_or (arg "message_id" arguments)
            (arg "reply_to_message_id" arguments) in
        let payload :=
          ([("messaging_product", PStr "whatsapp");
           ("recipient_type", PStr "individual");
           ("to", PStr (py_str to_number));
           ("type", PStr "text");
           ("text", PDict [("body", PStr (py_str text_));
                           ("preview_url", PBool preview_url_bool)])]
          ++ (if truthy message_id
              then [("context",
                     PDict [("message_id", PStr (py_str message_id))])]
              else []))%list in
        ttry
          (resp <- request
                     (mkCall POST
                        (graph_url (WHATSAPP_API_VERSION cfg)
                           [Fmt (opt_str (WHATSAPP_PHONE_NUMBER_ID cfg));
                            Lit "/messages"])
                        [] (PDict payload) [bearer token; json_content]) ;;
           of_result (check_status resp) ;;
           data <- of_result (json_of (content resp)) ;;
           tret (Utils.create_success_response data))
          on_error.

Definition send_reply (arguments : list (string * pyval))
  : T (list Utils.TextContent) :=
  let to_number := arg "to_number" arguments in
  let text_ := arg "text" arguments in
  let reply_to_message_id := arg "reply_to_message_id" arguments in
  missing <- of_result
               (_missing [[named "to_number" to_number;
                           named "text" text_;
                           named "reply_to_message_id" reply_to_message_id]]) ;;
  if truthy (PList missing) then
    tret (Utils.create_error_response
            (PStr "Missing required parameter(s): to_number, text, reply_to_message_id")
            PNone)
  else
    let args2 :=
      dict_set "message_id" (PStr (py_str reply_to_message_id)) arguments in
    send_message args2.

End Messaging.

Definition send_contacts (arguments : list (string * pyval))
  : T (list Utils.TextContent) :=
  token <- get_valid_token ;;
  if negb (truthy token) then
    msg <- get_token_error_message ;;
    tret (Utils.create_error_response (PStr msg) PNone)
  else
    cfg <- get_config ;;
    if negb (truthy (opt_str (WHATSAPP_PHONE_NUMBER_ID cfg))) then
      tret (Utils.create_error_response
              (PStr "WHATSAPP_PHONE_NUMBER_ID is not set") PNone)
    else
      let to_number := arg "to_number" arguments in
      let contacts := arg "contacts" arguments in
      missing <- of_result
                   (_missing [[named "to_number" to_number;
                               named "contacts" contacts]]) ;;
      if truthy (PList missing) then
        tret (Utils.create_error_response
                (PStr "Missing required parameter(s): to_number, contacts")
                PNone)
      else if match contacts with
              | PList (_ :: _) => false
              | _ => true
              end
      then
        tret (Utils.create_error_response
                (PStr "contacts must be a non-empty array") PNone)
      else
        let body_ :=
          [("messaging_product", PStr "whatsapp");
           ("recipient_type", PStr "individual");
           ("to", to_number);
           ("type", PStr "contacts");
           ("contacts", contacts)] in
        ttry
          (resp <- request
                     (mkCall POST
                        (graph_url (WHATSAPP_API_VERSION cfg)
                           [Fmt (opt_str (WHATSAPP_PHONE_NUMBER_ID cfg));
                            Lit "/messages"])
                        [] (PDict body_) [bearer token; json_content]) ;;
           of_result (check_status resp) ;;
           data <- of_result (json_of (content resp)) ;;
           tret (Utils.create_success_response data))
          on_error.

Definition get_media_info (arguments : list (string * pyval))
  : T (list Utils.TextContent) :=
  token <- get_valid_token ;;
  if negb (truthy token) then
    msg <- get_token_error_message ;;
    tret (Utils.create_error_response (PStr msg) PNone)
  else
    let media_id := arg "media_id" arguments in
    if negb (truthy media_id) then
      tret (Utils.create_error_response
              (PStr "Missing required parameter: media_id") PNone)
    else
      cfg <- get_config ;;
      ttry
        (resp <- request
                   (mkCall GET
                      (graph_url (WHATSAPP_API_VERSION cfg) [Fmt media_id])
                      [("fields", PStr "id,mime_type,sha256,file_size")]
                      PNone [bearer token]) ;;
         of_result (check_status resp) ;;
         data <- of_result (json_of (content resp)) ;;
         let data' :=
           match data with
           | PDict kv =>
               match lookup "url" kv with
               | Some _ =>
                   PDict (filter (fun b => negb (fst b =? "url")%string) kv)
               | None => data
               end
           | _ => data
           end in
         tret (Utils.create_success_response data'))
        on_error.

Definition create_message_template (arguments : list (string * pyval))
  : T (list Utils.TextContent) :=
  token <- get_valid_token ;;
  if negb (truthy token) then
    msg <- get_token_error_message ;;
    tret (Utils.create_error_response (PStr msg) PNone)
  else
    cfg <- get_config ;;
    if negb (truthy (opt_str (WHATSAPP_BUSINESS_ACCOUNT_ID cfg))) then
      tret (Utils.create_error_response
              (PStr "WHATSAPP_BUSINESS_ACCOUNT_ID is not set in environment variables")
              PNone)
    else
      let required_params := ["name"; "language"; "category"; "components"] in
      let missing :=
        filter (fun p => match lookup p arguments with
                         | None => true
                         | Some _ => false
                         end) required_params in
      match missing with
      | _ :: _ =>
          tret (Utils.create_error_response
                  (PStr ("Missing required parameters: "
                         ++ String.concat ", " missing)) PNone)
      | [] =>
          let request_body :=
            [("name", arg "name" arguments);
             ("language", arg "language" arguments);
             ("category", arg "category" arguments);
             ("components", arg "components" arguments)] in
          ttry
            (resp <- request
                       (mkCall POST
                          (graph_url (WHATSAPP_API_VERSION cfg)
                             [Fmt (opt_str (WHATSAPP_BUSINESS_ACCOUNT_ID cfg));
                              Lit "/message_templates"])
                          [] (PDict request_body) [bearer token; json_content]) ;;
             of_result (check_status resp) ;;
             data <- of_result (json_of (content resp)) ;;
             tret (Utils.create_success_response data))
            on_error
      end.

End Tools.

(** * Properties *)

Import OAuth2TokenManager.

(** ** Vocabulary of the statements *)

(** The declared type of [_token_expires_at] is [Optional[float]]. *)
Definition optional_float (v : pyval) : bool :=
  match v with
  | PNone | PNum _ => true
  | _ => false
  end.

(** An operation blocked by missing client credentials: it raises the
    [ValueError] of the [is_configured] guard and touches neither the
    manager nor the world (no request, no listener, no file). *)
Definition fails_not_configured {A} (op : M A) (st : state) : Prop :=
  exists msg, op st = (Raise (ValueError msg), st).

(** A token is held when the guard of [refresh_if_needed] lets it pass. *)
Definition holds_token (m : manager) : bool :=
  truthy (_access_token m) && truthy (_token_expires_at m).

(** A refresh attempt: the long-lived exchange is requested for the access
    token held before the call. *)
Definition refresh_attempted (before after : state) : Prop :=
  net_log (world after)
  = (net_log (world before)
       ++ [long_lived_params (self before) (_access_token (self before))])%list.

(** The two shapes of the value [exchange_code_for_token] returns. *)
Definition discriminated (r : pyval) : Prop :=
  (exists a e, r = success_result a e) \/ (exists err, r = failure_result err).

(** A present access token comes with an expiry. *)
Definition paired (m : manager) : Prop :=
  _access_token m <> PNone -> _token_expires_at m <> PNone.

(** The operation [m] leaves the observation [f] of the world as it was. *)
Definition keeps {X A} (f : World -> X) (m : M A) : Prop :=
  forall st, f (world (snd (m st))) = f (world st).

(** The state right after the POST of [q]. *)
Definition posted (q : params) (st : state) : state := snd (client_post q st).

(** What [_exchange_for_long_lived_token] makes of the provider's reply. *)
Definition upgrade_value (rp : reply) : pyval :=
  match outcome rp with
  | NoAnswer _ => PNone
  | Answer resp =>
      if is_success resp then
        match content resp with
        | Json v => v
        | Empty | Garbage => PNone
        end
      else PNone
  end.

(** Two states that differ at most in the cache file and in how writes
    to it and removals of it end. *)
Definition same_but_disk (s1 s2 : state) : Prop :=
  self s1 = self s2
  /\ clock (world s1) = clock (world s2)
  /\ provider (world s1) = provider (world s2)
  /\ net_log (world s1) = net_log (world s2)
  /\ visitor (world s1) = visitor (world s2)
  /\ listening (world s1) = listening (world s2)
  /\ browser_log (world s1) = browser_log (world s2).

(** The operation [m] neither returns nor computes anything that depends
    on the disk. *)
Definition disk_blind {A} (m : M A) : Prop :=
  forall s1 s2,
    same_but_disk s1 s2 ->
    fst (m s1) = fst (m s2) /\ same_but_disk (snd (m s1)) (snd (m s2)).



(** [d.get(k)] on a decoded object. *)
Definition field (k : string) (kv : list (string * pyval)) : pyval :=
  match lookup k kv with Some v => v | None => PNone end.

(** The object a load finds in the cache file, if any: the file must
    exist, be readable and decode to a JSON object. *)
Definition cached_object (f : option cache_file)
  : option (list (string * pyval)) :=
  match f with
  | Some (Readable (Json (PDict kv))) => Some kv
  | _ => None
  end.

(** A missing, unreadable, empty or malformed cache file. *)
Definition no_usable_cache (f : option cache_file) : bool :=
  match f with
  | None | Some Unreadable | Some (Readable Empty) | Some (Readable Garbage) =>
      true
  | Some (Readable (Json _)) => false
  end.

Definition is_none (v : pyval) : bool :=
  match v with PNone => true | _ => false end.

(** The cache file, if it holds an object with an access token, holds an
    expiry as well. *)
Definition cache_paired (f : option cache_file) : bool :=
  match cached_object f with
  | Some kv =>
      is_none (field "access_token" kv) || negb (is_none (field "expires_at" kv))
  | None => true
  end.

(** The manager [__init__] builds from [environ] with the three token
    fields given. *)
Definition manager_of_env (environ : string -> option string)
    (a e r : pyval) : manager :=
  mkManager
    (environ "WHATSAPP_CLIENT_ID")
    (environ "WHATSAPP_CLIENT_SECRET")
    (getenv environ "WHATSAPP_OAUTH_REDIRECT_URI"
       "http://localhost:8080/callback")
    (getenv environ "WHATSAPP_OAUTH_SCOPES"
       "whatsapp_business_management,whatsapp_business_messaging,business_management")
    a e r.

Definition is_status_error (e : exn) : bool :=
  match e with HTTPStatusError _ _ => true | _ => false end.

(** Whatever [m] raises, it is not an [HTTPStatusError]. *)
Definition no_status_error {A} (m : M A) : Prop :=
  forall st e st', m st = (Raise e, st') -> is_status_error e = false.

(** An error body the [HTTPStatusError] handler can take apart: empty, or
    a JSON object whose ["error"] entry, if any, is an object. *)
Definition error_body_readable (b : body) : bool :=
  match b with
  | Empty => true
  | Garbage => false
  | Json (PDict kv) =>
      match lookup "error" kv with
      | None | Some (PDict _) => true
      | Some _ => false
      end
  | Json _ => false
  end.

(** A reply that is not an error status with an unreadable body. *)
Definition reply_readable (rp : reply) : bool :=
  match outcome rp with
  | NoAnswer _ => true
  | Answer resp => is_success resp || error_body_readable (content resp)
  end.

(** [token_data.get("expires_in", 3600)] on the reply to the code grant. *)
Definition short_lifetime (d : list (string * pyval)) : pyval :=
  match lookup "expires_in" d with Some v => v | None => PNum 3600 end.

(** ** Sample managers and worlds *)

Definition ok_json (secs : Z) (v : pyval) : reply :=
  mkReply secs (Answer (mkResponse true "200 OK" (Json v))).

(** A provider that issues ["short"] for a code and ["long"] for the
    long-lived exchange. *)
Definition friendly_provider (_ : list params) (q : params) : reply :=
  match lookup "grant_type" q with
  | Some _ =>
      ok_json 1 (PDict [("access_token", PStr "long");
                        ("expires_in", PNum 5184000)])
  | None =>
      ok_json 2 (PDict [("access_token", PStr "short");
                        ("expires_in", PNum 3600)])
  end.

(** A provider that is down. *)
Definition dead_provider (_ : list params) (_ : params) : reply :=
  mkReply 30 (NoAnswer "timed out").

Definition quiet_world (now : Z) (p : list params -> params -> reply) : World :=
  mkWorld now p [] None WriteOk false [] [] [].

Definition configured_manager (a e : pyval) : manager :=
  mkManager (Some "app-id") (Some "app-secret") "https://example.org/cb"
    "whatsapp_business_messaging" a e PNone.

Definition unconfigured_manager (a e : pyval) : manager :=
  mkManager None None "http://localhost:8080/callback"
    "whatsapp_business_messaging" a e PNone.

(** ** Vocabulary of the further properties *)

(** The error a failed code grant is reported with: the text of the
    transport error, the text of the decoding error for a 2xx reply
    without JSON, and for an error status the ["message"] of the
    ["error"] object in its body, or the status text when the body is
    empty or names no message.  [None] for the other replies. *)
Definition code_grant_error (rp : reply) : option pyval :=
  match outcome rp with
  | NoAnswer msg => Some (PStr msg)
  | Answer resp =>
      if is_success resp then
        match content resp with
        | Empty | Garbage =>
            Some (PStr "Expecting value: line 1 column 1 (char 0)")
        | Json _ => None
        end
      else
        match content resp with
        | Empty => Some (PStr (status_line resp))
        | Json (PDict kv) =>
            match lookup "error" kv with
            | None => Some (PStr (status_line resp))
            | Some (PDict ekv) =>
                Some (match lookup "message" ekv with
                      | Some m => m
                      | None => PStr (status_line resp)
                      end)
            | Some _ => None
            end
        | _ => None
        end
  end.

(** The redirect URI the interactive flow puts in place. *)
Definition local_callback (port : Z) : string :=
  "http://localhost:" ++ decimal port ++ "/callback".

(** The manager [m] with another redirect URI. *)
Definition with_redirect_uri (u : string) (m : manager) : manager :=
  mkManager (client_id m) (client_secret m) u (scopes m)
    (_access_token m) (_token_expires_at m) (_refresh_token m).

(** The authorization URL of a manager. *)
Definition authorization_url (m : manager) : url :=
  mkUrl "https://www.facebook.com/v18.0/dialog/oauth"
    [("client_id", opt_str (client_id m));
     ("redirect_uri", PStr (redirect_uri m));
     ("scope", PStr (scopes m));
     ("response_type", PStr "code");
     ("state", PStr "whatsapp_mcp_oauth")].

(** The state in which [start_local_oauth_flow port] starts the code
    exchange: the listener is up, the redirect URI is the local one, the
    browser has been opened, and [t] seconds have passed until the code
    came, leaving the requests [rest] unserved. *)
Definition flow_state (port : Z) (t : Z) (rest : list (Z * hit)) (st : state)
  : state :=
  let m := with_redirect_uri (local_callback port) (self st) in
  let w := world st in
  mkState m
    (mkWorld (clock w + t) (provider w) (net_log w) (token_file w)
       (on_write w) (remove_denied w) rest (port :: listening w)
       (browser_log w ++ [authorization_url m])).

(** The operation [m] only adds to the log of requests. *)
Definition grows {A} (m : M A) : Prop :=
  forall st,
    exists more,
      net_log (world (snd (m st))) = (net_log (world st) ++ more)%list.

(** A step of a handler that leaves the server as it is. *)
Definition stateless {A} (m : Tools.T A) : Prop := forall s, snd (m s) = s.

(** The server right after the Graph request [c]. *)
Definition requested (c : api_call) (s : Server) : Server :=
  snd (Tools.request c s).

(** Whole seconds that a float holds exactly. *)
Definition exact_float (z : Z) : bool := Z.abs z <=? 2 ^ 53.

(** The float addition [now + n] is exact: the clock reading, the
    lifetime and their sum are all held exactly. *)
Definition adds_exactly (now n : Z) : bool :=
  exact_float now && exact_float n && exact_float (now + n).

(** The cache file after [_save_token] has tried to write the credential
    [(a, x, r)] to a disk that held [file] and takes writes as [wb]. *)
Definition store_after (wb : write_behaviour) (file : option cache_file)
    (a x r : pyval) : option cache_file :=
  match wb with
  | WriteOk =>
      Some (Readable (Json (PDict [("access_token", a);
                                   ("expires_at", x);
                                   ("refresh_token", r)])))
  | WriteDenied => file
  | WriteTruncated => Some (Readable Empty)
  end.


(** ** Running monadic code *)

(** Unfolds the monad and the primitive effects, then computes. *)
Ltac run :=
  cbv [bind ret raise try_except try_finally get_self get_world put_self
       put_world time_time path_exists raise_for_status decode
       set__access_token set__token_expires_at set__refresh_token
       set_redirect_uri] in *;
  simpl in *.

(** ** Missing client credentials *)

(** A lifetime within the exact range converts to a float. *)
Lemma adds_exactly_fits (now n : Z) :
  adds_exactly now n = true -> too_large_for_float n = false.
Proof.
  unfold adds_exactly, exact_float, too_large_for_float. intros H.
  apply andb_true_iff in H as [H _]. apply andb_true_iff in H as [_ H].
  apply Z.leb_le in H. apply Z.leb_gt.
  apply (Z.le_lt_trans _ _ _ H). vm_compute. reflexivity.
Qed.

Lemma save_token_numeric (a e r : pyval) (n : Z) (st : state) :
  as_number e = Some n ->
  too_large_for_float n = false ->
  exists st',
    _save_token a e r st = (Ok tt, st')
    /\ _access_token (self st') = a
    /\ _token_expires_at (self st') = PNum (clock (world st) + n)
    /\ _refresh_token (self st')
       = (if truthy r then r else _refresh_token (self st))
    /\ client_id (self st') = client_id (self st)
    /\ client_secret (self st') = client_secret (self st)
    /\ redirect_uri (self st') = redirect_uri (self st)
    /\ scopes (self st') = scopes (self st)
    /\ clock (world st') = clock (world st)
    /\ provider (world st') = provider (world st)
    /\ net_log (world st') = net_log (world st)
    /\ visitor (world st') = visitor (world st)
    /\ listening (world st') = listening (world st)
    /\ browser_log (world st') = browser_log (world st)
    /\ token_file (world st')
       = match on_write (world st) with
         | WriteOk =>
             Some (Readable (Json (PDict
               [("access_token", a);
                ("expires_at", PNum (clock (world st) + n));
                ("refresh_token", r)])))
         | WriteDenied => token_file (world st)
         | WriteTruncated => Some (Readable Empty)
         end.
Proof.
  intros Hn Hfit. destruct st as [m w].
  unfold _save_token, dump_json_file, num_add. rewrite Hn, Hfit. run.
  destruct (truthy r); run; destruct (on_write w); run;
    eexists; repeat split; reflexivity.
Qed.

(** A lifetime too large for a float stops [_save_token] at the
    addition, after the access token has been assigned and before
    anything is written. *)
Lemma save_token_too_large (a e r : pyval) (n : Z) (st : state) :
  as_number e = Some n ->
  too_large_for_float n = true ->
  _save_token a e r st
  = (Raise (OverflowError "int too large to convert to float"),
     mkState
       (mkManager (client_id (self st)) (client_secret (self st))
          (redirect_uri (self st)) (scopes (self st)) a
          (_token_expires_at (self st)) (_refresh_token (self st)))
       (world st)).
Proof.
  intros Hn Hbig. destruct st as [m w].
  unfold _save_token, num_add. rewrite Hn, Hbig. run. reflexivity.
Qed.

(** A lifetime that is not a number stops [_save_token] after the access
    token has been assigned. *)
Lemma save_token_not_numeric (a e r : pyval) (st : state) :
  as_number e = None ->
  exists msg st',
    _save_token a e r st = (Raise (TypeError msg), st')
    /\ _access_token (self st') = a
    /\ _token_expires_at (self st') = _token_expires_at (self st).
Proof.
  intros Hn. destruct st as [m w].
  unfold _save_token, num_add. rewrite Hn. run.
  do 2 eexists. repeat split; reflexivity.
Qed.

(** Past the expiry test, [refresh_if_needed] stops at its
    [is_configured] guard. *)
Lemma refresh_if_needed_unconfigured (st : state) :
  is_configured (self st) = false -> snd (refresh_if_needed st) = st.
Proof.
  intros Hc. unfold refresh_if_needed, bind, get_self, time_time, num_sub.
  rewrite Hc.
  destruct (negb (truthy (_access_token (self st)))
            || negb (truthy (_token_expires_at (self st)))); [ reflexivity | ].
  destruct (as_number (_token_expires_at (self st))); simpl;
    [ destruct (clock (world st) <? _) | ]; reflexivity.
Qed.

(** C1, as the code has it.  Without client credentials
    [exchange_code_for_token], [get_authorization_url] and
    [start_local_oauth_flow] raise the "not configured" [ValueError]
    before any effect; [refresh_if_needed] changes nothing and, on a
    well-typed expiry, returns silently instead of failing;
    [set_access_token] is not gated at all: for a lifetime in the exact
    range of a float it stores the token and its expiry and returns, and
    for no lifetime whatever does it fail as not configured or send a
    request to the provider. *)
Theorem unconfigured_operations (st : state) :
  is_configured (self st) = false ->
  (forall code, fails_not_configured (exchange_code_for_token code) st)
  /\ (forall s, fails_not_configured (get_authorization_url s) st)
  /\ (forall port, fails_not_configured (start_local_oauth_flow port) st)
  /\ snd (refresh_if_needed st) = st
  /\ (optional_float (_token_expires_at (self st)) = true ->
      refresh_if_needed st = (Ok tt, st))
  /\ (forall token expires_in,
         adds_exactly (clock (world st)) expires_in = true ->
         exists st',
           set_access_token token expires_in st = (Ok tt, st')
           /\ _access_token (self st') = PStr token
           /\ _token_expires_at (self st')
              = PNum (clock (world st) + expires_in)
           /\ net_log (world st') = net_log (world st)
           /\ listening (world st') = listening (world st))
  /\ (forall token expires_in,
         ~ fails_not_configured (set_access_token token expires_in) st
         /\ net_log (world (snd (set_access_token token expires_in st)))
            = net_log (world st)).
Proof.
  intros Hc.
  split; [ | split; [ | split; [ | split; [ | split; [ | split ] ] ] ] ].
  - intros code. eexists. unfold exchange_code_for_token, bind, get_self.
    rewrite Hc. reflexivity.
  - intros s. eexists. unfold get_authorization_url, bind, get_self.
    rewrite Hc. reflexivity.
  - intros port. eexists. unfold start_local_oauth_flow, bind, get_self.
    rewrite Hc. reflexivity.
  - now apply refresh_if_needed_unconfigured.
  - intros Hty. unfold refresh_if_needed, bind, get_self, time_time, num_sub.
    rewrite Hc.
    destruct (_token_expires_at (self st)); simpl in Hty; try discriminate;
      simpl.
    + now rewrite orb_true_r.
    + destruct (negb (truthy (_access_token (self st))) || negb (negb (n =? 0)));
        [ | destruct (clock (world st) <? _) ]; reflexivity.
  - intros token expires_in Hx. unfold set_access_token.
    destruct (save_token_numeric (PStr token) (PNum expires_in) PNone st
                eq_refl (adds_exactly_fits _ _ Hx))
      as (st' & E & Ha & He & _ & _ & _ & _ & _ & _ & _ & Hn & _ & Hl & _).
    exists st'. repeat split; assumption.
  - intros token expires_in. unfold fails_not_configured, set_access_token.
    destruct (too_large_for_float expires_in) eqn:Hbig.
    + rewrite (save_token_too_large (PStr token) (PNum expires_in) PNone st
                 eq_refl Hbig).
      split; [ | reflexivity ].
      intros [msg' H]. discriminate H.
    + destruct (save_token_numeric (PStr token) (PNum expires_in) PNone st
                  eq_refl Hbig)
        as (st' & E & _ & _ & _ & _ & _ & _ & _ & _ & _ & Hn & _).
      rewrite E. split; [ | exact Hn ].
      intros [msg' H]. discriminate H.
Qed.

Lemma unconfigured_operations_witness :
  let st := mkState (unconfigured_manager (PStr "EAAB") (PNum 2000))
              (quiet_world 1000000 friendly_provider) in
  fails_not_configured (exchange_code_for_token "abc") st
  /\ refresh_if_needed st = (Ok tt, st)
  /\ exists st',
       set_access_token "EAAC" 3600 st = (Ok tt, st')
       /\ _token_expires_at (self st') = PNum 1003600.
Proof.
  intros st.
  pose (H := unconfigured_operations st eq_refl).
  split; [ | split ].
  - exact (proj1 H "abc").
  - exact (proj1 (proj2 (proj2 (proj2 (proj2 H)))) eq_refl).
  - destruct (proj1 (proj2 (proj2 (proj2 (proj2 (proj2 H))))) "EAAC" 3600
                eq_refl) as (st' & E & _ & He & _).
    exists st'. split; [ exact E | exact He ].
Defined.

(** C1 as stated fails: with no client credentials [set_access_token]
    stores the token and returns, and [refresh_if_needed] returns quietly;
    neither raises the "not configured" error. *)
Lemma unconfigured_operations_not_all_fail :
  let st := mkState (unconfigured_manager (PStr "EAAB") (PNum 2000))
              (quiet_world 1000000 friendly_provider) in
  is_configured (self st) = false
  /\ ~ fails_not_configured (set_access_token "EAAC" 3600) st
  /\ ~ fails_not_configured refresh_if_needed st.
Proof.
  intros st. split; [ reflexivity | split ]; intros [msg H]; discriminate H.
Qed.

(** ** Parts of the world an operation leaves alone *)

Section Keeps.

Context {X : Type} (f : World -> X).

Lemma keeps_ret {A} (a : A) : keeps f (ret a).
Proof. intros st. reflexivity. Qed.

Lemma keeps_raise {A} (e : exn) : keeps f (@raise A e).
Proof. intros st. reflexivity. Qed.

Lemma keeps_bind {A B} (m : M A) (k : A -> M B) :
  keeps f m -> (forall a, keeps f (k a)) -> keeps f (bind m k).
Proof.
  intros Hm Hk st. unfold bind. specialize (Hm st).
  destruct (m st) as [[a | e] st1]; simpl in *.
  - now rewrite Hk.
  - exact Hm.
Qed.

Lemma keeps_try_except {A} (m : M A) (h : exn -> M A) :
  keeps f m -> (forall e, keeps f (h e)) -> keeps f (try_except m h).
Proof.
  intros Hm Hh st. unfold try_except. specialize (Hm st).
  destruct (m st) as [[a | e] st1]; simpl in *.
  - exact Hm.
  - now rewrite Hh.
Qed.

Lemma keeps_get_self : keeps f get_self.
Proof. intros st. reflexivity. Qed.

Lemma keeps_put_self (m : manager) : keeps f (put_self m).
Proof. intros st. reflexivity. Qed.

Lemma keeps_get_world : keeps f get_world.
Proof. intros st. reflexivity. Qed.

Lemma keeps_time_time : keeps f time_time.
Proof. intros st. reflexivity. Qed.

Lemma keeps_path_exists : keeps f path_exists.
Proof. intros st. reflexivity. Qed.

Lemma keeps_dict_get (d : pyval) (k : string) (v : pyval) :
  keeps f (dict_get d k v).
Proof. intros st. destruct d; reflexivity. Qed.

Lemma keeps_decode (b : body) : keeps f (decode b).
Proof. intros st. destruct b; reflexivity. Qed.

Lemma keeps_raise_for_status (r : response) : keeps f (raise_for_status r).
Proof. intros st. unfold raise_for_status. destruct (is_success r); reflexivity. Qed.

Lemma keeps_num_add (x : Z) (v : pyval) : keeps f (num_add x v).
Proof.
  intros st. unfold num_add.
  destruct (as_number v) as [n | ]; [ destruct (too_large_for_float n) | ];
    reflexivity.
Qed.

Lemma keeps_num_sub (v : pyval) (k : Z) : keeps f (num_sub v k).
Proof. intros st. unfold num_sub. destruct (as_number v); reflexivity. Qed.

Lemma keeps_set__access_token (v : pyval) : keeps f (set__access_token v).
Proof. intros st. reflexivity. Qed.

Lemma keeps_set__token_expires_at (v : pyval) :
  keeps f (set__token_expires_at v).
Proof. intros st. reflexivity. Qed.

Lemma keeps_set__refresh_token (v : pyval) : keeps f (set__refresh_token v).
Proof. intros st. reflexivity. Qed.

Lemma keeps_set_redirect_uri (u : string) : keeps f (set_redirect_uri u).
Proof. intros st. reflexivity. Qed.

End Keeps.

Create HintDb keeps.
#[local] Hint Resolve keeps_ret keeps_raise keeps_get_self keeps_put_self
  keeps_get_world
  keeps_time_time keeps_path_exists keeps_dict_get keeps_decode
  keeps_raise_for_status keeps_num_add keeps_num_sub keeps_set__access_token
  keeps_set__token_expires_at keeps_set__refresh_token keeps_set_redirect_uri
  : keeps.

(** Splits a method along its binds, handlers and tests. *)
Ltac keeps_step :=
  first
    [ solve [ auto with keeps ]
    | apply keeps_bind; [ | intros ? ]
    | apply keeps_try_except; [ | intros ? ]
    | match goal with
      | |- keeps _ (if ?b then _ else _) => destruct b
      | |- keeps _ (match ?x with _ => _ end) => destruct x
      end ].

Ltac keeps_all := repeat keeps_step.

(** Writing the cache file touches the file only. *)
Lemma keeps_dump_net_log (v : pyval) : keeps net_log (dump_json_file v).
Proof.
  intros [m w]. unfold dump_json_file. run. destruct (on_write w); reflexivity.
Qed.

Lemma keeps_dump_listening (v : pyval) : keeps listening (dump_json_file v).
Proof.
  intros [m w]. unfold dump_json_file. run. destruct (on_write w); reflexivity.
Qed.

#[local] Hint Resolve keeps_dump_net_log keeps_dump_listening : keeps.

Lemma keeps_save_token_net_log (a e r : pyval) :
  keeps net_log (_save_token a e r).
Proof. unfold _save_token. keeps_all. Qed.

Lemma keeps_save_token_listening (a e r : pyval) :
  keeps listening (_save_token a e r).
Proof. unfold _save_token. keeps_all. Qed.

#[local] Hint Resolve keeps_save_token_net_log keeps_save_token_listening
  : keeps.

(** ** The long-lived exchange *)

Lemma long_lived_exchange_configured (tok : pyval) (st : state) :
  is_configured (self st) = true ->
  _exchange_for_long_lived_token tok st
  = (Ok (upgrade_value
           (provider (world st) (net_log (world st))
              (long_lived_params (self st) tok))),
     posted (long_lived_params (self st) tok) st).
Proof.
  intros Hc. unfold _exchange_for_long_lived_token, posted, upgrade_value.
  run. rewrite Hc. simpl. unfold client_post.
  destruct (outcome _) as [msg | resp]; simpl; [ reflexivity | ].
  destruct (is_success resp); simpl; [ | reflexivity ].
  destruct (content resp); reflexivity.
Qed.

Lemma long_lived_exchange_never_raises (tok : pyval) (st : state) :
  exists v st', _exchange_for_long_lived_token tok st = (Ok v, st')
                /\ self st' = self st.
Proof.
  destruct (is_configured (self st)) eqn:Hc.
  - rewrite long_lived_exchange_configured by assumption.
    do 2 eexists. split; [ reflexivity | ].
    unfold posted, client_post. destruct (outcome _); reflexivity.
  - unfold _exchange_for_long_lived_token. run. rewrite Hc.
    do 2 eexists. split; reflexivity.
Qed.

Lemma posted_self (q : params) (st : state) : self (posted q st) = self st.
Proof. unfold posted, client_post. destruct (outcome _); reflexivity. Qed.

Lemma posted_net_log (q : params) (st : state) :
  net_log (world (posted q st)) = (net_log (world st) ++ [q])%list.
Proof. unfold posted, client_post. destruct (outcome _); reflexivity. Qed.

Lemma posted_clock (q : params) (st : state) :
  clock (world (posted q st))
  = clock (world st)
    + latency (provider (world st) (net_log (world st)) q).
Proof. unfold posted, client_post. destruct (outcome _); reflexivity. Qed.

(** ** When [refresh_if_needed] goes to the provider *)

(** What [refresh_if_needed] does with the reply of the provider. *)
Lemma refresh_if_needed_due (st : state) (x : Z) :
  is_configured (self st) = true ->
  holds_token (self st) = true ->
  _token_expires_at (self st) = PNum x ->
  x - REFRESH_BUFFER_SECONDS <= clock (world st) ->
  refresh_attempted st (snd (refresh_if_needed st)).
Proof.
  intros Hc Hh He Hdue. unfold holds_token in Hh.
  apply andb_true_iff in Hh as [Ha Hx].
  unfold refresh_attempted, refresh_if_needed.
  unfold bind at 1. unfold get_self at 1.
  rewrite Ha, Hx. simpl. rewrite He.
  unfold bind at 1. unfold time_time at 1.
  unfold bind at 1. unfold num_sub at 1. simpl. unfold ret at 1.
  replace (clock (world st) <? x - REFRESH_BUFFER_SECONDS) with false
    by (symmetry; apply Z.ltb_ge; exact Hdue).
  rewrite Hc. simpl.
  unfold bind at 1. rewrite long_lived_exchange_configured by assumption.
  set (v := upgrade_value _).
  set (st1 := posted _ st).
  rewrite <- (posted_net_log (long_lived_params (self st) (_access_token (self st))) st).
  fold st1.
  assert (K : keeps net_log
                (if truthy v then
                   access_token <- dict_get v "access_token" PNone ;;
                   expires_in <- dict_get v "expires_in" (PNum 5184000) ;;
                   if truthy access_token then
                     m' <- get_self ;;
                     _save_token access_token expires_in (_refresh_token m')
                   else ret tt
                 else ret tt)) by keeps_all.
  apply K.
Qed.

Lemma refresh_if_needed_not_due (st : state) (x : Z) :
  _token_expires_at (self st) = PNum x ->
  clock (world st) < x - REFRESH_BUFFER_SECONDS ->
  refresh_if_needed st = (Ok tt, st).
Proof.
  intros He Hlt. unfold refresh_if_needed. run. rewrite He.
  destruct (negb (truthy (_access_token (self st))) || negb (truthy (PNum x)));
    [ reflexivity | ].
  unfold num_sub. simpl.
  replace (clock (world st) <? x - REFRESH_BUFFER_SECONDS) with true
    by (symmetry; apply Z.ltb_lt; exact Hlt).
  reflexivity.
Qed.

Lemma refresh_if_needed_no_token (st : state) :
  holds_token (self st) = false -> refresh_if_needed st = (Ok tt, st).
Proof.
  intros Hh. unfold refresh_if_needed. run. unfold holds_token in Hh.
  rewrite <- negb_andb, Hh. reflexivity.
Qed.

Lemma not_refresh_attempted_same (st : state) : ~ refresh_attempted st st.
Proof.
  unfold refresh_attempted. intros H. apply (f_equal (@List.length params)) in H.
  rewrite length_app in H. simpl in H. lia.
Qed.

(** C3, as the code has it.  With no token held (access token or expiry
    falsy) [refresh_if_needed] is a no-op.  In a configured manager that
    holds a token expiring at [x], the long-lived exchange is requested
    exactly when [now >= x - REFRESH_BUFFER_SECONDS], a buffer of 86400
    seconds: [x = now + buffer - 1] sends the request, [x = now + buffer + 1]
    is a no-op without any request.  Without client credentials nothing
    is sent, due or not. *)
Theorem refresh_if_needed_threshold (st : state) :
  REFRESH_BUFFER_SECONDS = 86400
  /\ (holds_token (self st) = false -> refresh_if_needed st = (Ok tt, st))
  /\ (is_configured (self st) = false -> snd (refresh_if_needed st) = st)
  /\ (forall x,
         is_configured (self st) = true ->
         holds_token (self st) = true ->
         _token_expires_at (self st) = PNum x ->
         (refresh_attempted st (snd (refresh_if_needed st))
          <-> clock (world st) >= x - REFRESH_BUFFER_SECONDS)
         /\ (clock (world st) < x - REFRESH_BUFFER_SECONDS ->
             refresh_if_needed st = (Ok tt, st))
         /\ (x = clock (world st) + REFRESH_BUFFER_SECONDS - 1 ->
             refresh_attempted st (snd (refresh_if_needed st)))
         /\ (x = clock (world st) + REFRESH_BUFFER_SECONDS + 1 ->
             refresh_if_needed st = (Ok tt, st))).
Proof.
  split; [ reflexivity | ].
  split; [ apply refresh_if_needed_no_token | ].
  split; [ apply refresh_if_needed_unconfigured | ].
  intros x Hc Hh He. repeat split.
  - intros Hatt.
    destruct (Z_lt_ge_dec (clock (world st)) (x - REFRESH_BUFFER_SECONDS))
      as [Hlt | Hge]; [ | exact Hge ].
    rewrite (refresh_if_needed_not_due st He Hlt) in Hatt.
    now apply not_refresh_attempted_same in Hatt.
  - intros Hge. apply (refresh_if_needed_due st Hc Hh He). lia.
  - apply refresh_if_needed_not_due; assumption.
  - intros ->. apply (refresh_if_needed_due st Hc Hh He). lia.
  - intros ->. apply (refresh_if_needed_not_due st He). lia.
Qed.

Lemma refresh_if_needed_threshold_witness :
  let st := mkState
              (configured_manager (PStr "EAAB") (PNum (1000000 + 86400 - 1)))
              (quiet_world 1000000 friendly_provider) in
  refresh_attempted st (snd (refresh_if_needed st)).
Proof.
  intros st.
  exact (proj1 (proj2 (proj2
           (proj2 (proj2 (proj2 (refresh_if_needed_threshold st)))
              (1000000 + 86400 - 1) eq_refl eq_refl eq_refl)))
           eq_refl).
Defined.

(** C3 as stated fails: a manager without client credentials holds a
    token that is long overdue, and [refresh_if_needed] sends nothing. *)
Lemma refresh_if_needed_skips_unconfigured :
  let st := mkState (unconfigured_manager (PStr "EAAB") (PNum 2000))
              (quiet_world 1000000 friendly_provider) in
  holds_token (self st) = true
  /\ clock (world st) >= 2000 - REFRESH_BUFFER_SECONDS
  /\ ~ refresh_attempted st (snd (refresh_if_needed st)).
Proof.
  intros st. split; [ reflexivity | split ].
  - vm_compute. discriminate.
  - intros H. vm_compute in H. discriminate H.
Qed.

(** ** Operations that do not depend on the disk *)

Lemma same_but_disk_refl (st : state) : same_but_disk st st.
Proof. repeat split. Qed.


Lemma blind_ret {A} (a : A) : disk_blind (ret a).
Proof. intros s1 s2 H. split; [ reflexivity | exact H ]. Qed.

Lemma blind_raise {A} (e : exn) : disk_blind (@raise A e).
Proof. intros s1 s2 H. split; [ reflexivity | exact H ]. Qed.

Lemma blind_bind {A B} (m : M A) (k : A -> M B) :
  disk_blind m -> (forall a, disk_blind (k a)) -> disk_blind (bind m k).
Proof.
  intros Hm Hk s1 s2 H. unfold bind. destruct (Hm s1 s2 H) as [Hr Hs].
  destruct (m s1) as [r1 t1], (m s2) as [r2 t2]; simpl in *. subst r2.
  destruct r1 as [a | e].
  - apply Hk, Hs.
  - split; [ reflexivity | exact Hs ].
Qed.

Lemma blind_try_except {A} (m : M A) (h : exn -> M A) :
  disk_blind m -> (forall e, disk_blind (h e)) -> disk_blind (try_except m h).
Proof.
  intros Hm Hh s1 s2 H. unfold try_except. destruct (Hm s1 s2 H) as [Hr Hs].
  destruct (m s1) as [r1 t1], (m s2) as [r2 t2]; simpl in *. subst r2.
  destruct r1 as [a | e].
  - split; [ reflexivity | exact Hs ].
  - apply Hh, Hs.
Qed.

Lemma blind_get_self : disk_blind get_self.
Proof.
  intros s1 s2 H. split; [ | exact H ]. simpl. now destruct H as [-> _].
Qed.

Lemma blind_put_self (m : manager) : disk_blind (put_self m).
Proof.
  intros s1 s2 (_ & H). split; [ reflexivity | ]. split; [ reflexivity | exact H ].
Qed.

Lemma blind_time_time : disk_blind time_time.
Proof.
  intros s1 s2 H. split; [ | exact H ]. simpl. destruct H as (_ & -> & _).
  reflexivity.
Qed.

Lemma blind_client_post (q : params) : disk_blind (client_post q).
Proof.
  intros [m1 w1] [m2 w2] (Hm & Hc & Hp & Hn & Hv & Hl & Hb); simpl in *.
  unfold client_post; simpl. rewrite Hp, Hn.
  destruct (outcome (provider w2 (net_log w2) q)); simpl;
    (split; [ reflexivity | ]); repeat split; simpl; congruence.
Qed.

Lemma blind_raise_for_status (r : response) : disk_blind (raise_for_status r).
Proof.
  unfold raise_for_status. destruct (is_success r);
    [ apply blind_ret | apply blind_raise ].
Qed.

Lemma blind_decode (b : body) : disk_blind (decode b).
Proof. destruct b; [ apply blind_raise | apply blind_raise | apply blind_ret ]. Qed.

Lemma blind_dict_get (d : pyval) (k : string) (v : pyval) :
  disk_blind (dict_get d k v).
Proof. destruct d; first [ apply blind_raise | apply blind_ret ]. Qed.

Lemma blind_num_add (x : Z) (v : pyval) : disk_blind (num_add x v).
Proof.
  unfold num_add.
  destruct (as_number v) as [n | ]; [ destruct (too_large_for_float n) | ];
    first [ apply blind_ret | apply blind_raise ].
Qed.

Lemma blind_num_sub (v : pyval) (k : Z) : disk_blind (num_sub v k).
Proof.
  unfold num_sub. destruct (as_number v); [ apply blind_ret | apply blind_raise ].
Qed.

Lemma blind_set__access_token (v : pyval) : disk_blind (set__access_token v).
Proof.
  unfold set__access_token. apply blind_bind; [ apply blind_get_self | ].
  intros m. apply blind_put_self.
Qed.

Lemma blind_set__token_expires_at (v : pyval) :
  disk_blind (set__token_expires_at v).
Proof.
  unfold set__token_expires_at. apply blind_bind; [ apply blind_get_self | ].
  intros m. apply blind_put_self.
Qed.

Lemma blind_set__refresh_token (v : pyval) : disk_blind (set__refresh_token v).
Proof.
  unfold set__refresh_token. apply blind_bind; [ apply blind_get_self | ].
  intros m. apply blind_put_self.
Qed.

(** The write to the cache file inside its [try ... except: pass]. *)
Lemma blind_swallowed_dump (v : pyval) :
  disk_blind (try_except (dump_json_file v) (fun _ => ret tt)).
Proof.
  intros [m1 w1] [m2 w2] H. unfold dump_json_file. run.
  destruct (on_write w1), (on_write w2); simpl;
    (split; [ reflexivity | exact H ]).
Qed.

Create HintDb blind.
#[local] Hint Resolve blind_ret blind_raise blind_get_self blind_put_self
  blind_time_time blind_client_post blind_raise_for_status blind_decode
  blind_dict_get blind_num_add blind_num_sub blind_set__access_token
  blind_set__token_expires_at blind_set__refresh_token blind_swallowed_dump
  : blind.

Ltac blind_step :=
  first
    [ solve [ auto with blind ]
    | apply blind_bind; [ | intros ? ]
    | apply blind_try_except; [ | intros ? ]
    | match goal with
      | |- disk_blind (if ?b then _ else _) => destruct b
      | |- disk_blind (match ?x with _ => _ end) => destruct x
      end ].

Ltac blind_all := repeat blind_step.

Lemma blind_save_token (a e r : pyval) : disk_blind (_save_token a e r).
Proof. unfold _save_token. blind_all. Qed.

#[local] Hint Resolve blind_save_token : blind.

Lemma blind_long_lived_exchange (tok : pyval) :
  disk_blind (_exchange_for_long_lived_token tok).
Proof. unfold _exchange_for_long_lived_token. blind_all. Qed.

#[local] Hint Resolve blind_long_lived_exchange : blind.





(** ** Inversion of monadic code *)

Lemma bind_ok_inv {A B} (m : M A) (k : A -> M B) st b st' :
  bind m k st = (Ok b, st') ->
  exists a st1, m st = (Ok a, st1) /\ k a st1 = (Ok b, st').
Proof.
  unfold bind. destruct (m st) as [[a | e] st1]; intros H.
  - now exists a, st1.
  - discriminate H.
Qed.

Lemma bind_raise_inv {A B} (m : M A) (k : A -> M B) st e st' :
  bind m k st = (Raise e, st') ->
  m st = (Raise e, st')
  \/ exists a st1, m st = (Ok a, st1) /\ k a st1 = (Raise e, st').
Proof.
  unfold bind. destruct (m st) as [[a | e0] st1]; intros H.
  - right. now exists a, st1.
  - left. injection H as -> ->. reflexivity.
Qed.

Lemma try_except_ok_inv {A} (m : M A) (h : exn -> M A) st a st' :
  try_except m h st = (Ok a, st') ->
  m st = (Ok a, st')
  \/ exists e st1, m st = (Raise e, st1) /\ h e st1 = (Ok a, st').
Proof.
  unfold try_except. destruct (m st) as [[a0 | e] st1]; intros H.
  - left. exact H.
  - right. now exists e, st1.
Qed.

Lemma dict_get_ok_inv (d : pyval) (k : string) (v : pyval) st r st' :
  dict_get d k v st = (Ok r, st') ->
  st' = st
  /\ exists kv, d = PDict kv
                /\ r = match lookup k kv with Some x => x | None => v end.
Proof.
  destruct d; simpl; intros H; try discriminate H.
  injection H as <- <-. split; [ reflexivity | ]. now exists kv.
Qed.

Lemma save_token_ok_inv (a e r : pyval) st u st' :
  _save_token a e r st = (Ok u, st') ->
  exists n, as_number e = Some n
            /\ _access_token (self st') = a
            /\ _token_expires_at (self st') = PNum (clock (world st') + n)
            /\ too_large_for_float n = false.
Proof.
  intros H. destruct (as_number e) as [n | ] eqn:Hn.
  - destruct (too_large_for_float n) eqn:Hbig.
    + rewrite (save_token_too_large a e r st Hn Hbig) in H. discriminate H.
    + destruct (save_token_numeric a e r st Hn Hbig)
        as (st1 & E & Ha & He & _ & _ & _ & _ & _ & Hc & _).
      rewrite E in H. assert (st1 = st') by congruence. subst st1.
      exists n. rewrite Hc. auto.
  - destruct (save_token_not_numeric a e r st Hn) as (msg & st1 & E & _).
    rewrite E in H. discriminate H.
Qed.

(** A success reported by [exchange_code_for_token] comes after
    [_save_token]: the token it names is the one in memory, with the
    expiry computed from the lifetime it names. *)
Lemma exchange_success_stores (code : string) st a e st' :
  exchange_code_for_token code st = (Ok (success_result a e), st') ->
  exists n, as_number e = Some n
            /\ _access_token (self st') = a
            /\ _token_expires_at (self st') = PNum (clock (world st') + n).
Proof.
  unfold exchange_code_for_token. unfold bind at 1. unfold get_self at 1.
  destruct (negb (is_configured (self st))); [ discriminate | ].
  intros H. apply try_except_ok_inv in H as [H | (ex & st1 & _ & H)].
  - do 8 (apply bind_ok_inv in H as (? & ? & _ & H)).
    apply bind_ok_inv in H as (u & st2 & Hs & H).
    injection H as Ha He <-.
    apply save_token_ok_inv in Hs as (n & Hn & Hx & Hy & _).
    rewrite Ha, He in *. now exists n.
  - destruct ex;
      try (injection H as H _; discriminate H).
    repeat (apply bind_ok_inv in H as (? & ? & _ & H)).
    injection H as H _. discriminate H.
Qed.

(** ** Running a method step by step *)

Lemma try_bind_step {A B} (m : M A) (k : A -> M B) (h : exn -> M B)
    st a st1 :
  m st = (Ok a, st1) ->
  try_except (bind m k) h st = try_except (k a) h st1.
Proof. intros H. unfold try_except, bind. now rewrite H. Qed.

Lemma client_post_answer (q : params) (st : state) (resp : response) :
  outcome (provider (world st) (net_log (world st)) q) = Answer resp ->
  client_post q st = (Ok resp, posted q st).
Proof.
  intros H. unfold posted, client_post. rewrite H. reflexivity.
Qed.

Lemma posted_is_configured (q : params) (st : state) :
  is_configured (self (posted q st)) = is_configured (self st).
Proof. now rewrite posted_self. Qed.

Lemma bind_ok_step {A B} (m : M A) (k : A -> M B) st a st1 :
  m st = (Ok a, st1) -> bind m k st = k a st1.
Proof. intros H. unfold bind. now rewrite H. Qed.

Lemma try_except_ok_step {A} (m : M A) (h : exn -> M A) st a st1 :
  m st = (Ok a, st1) -> try_except m h st = (Ok a, st1).
Proof. intros H. unfold try_except. now rewrite H. Qed.

(** A due refresh in a configured manager, up to the reply. *)
Lemma refresh_if_needed_run (st : state) (x : Z) :
  is_configured (self st) = true ->
  holds_token (self st) = true ->
  _token_expires_at (self st) = PNum x ->
  x - REFRESH_BUFFER_SECONDS <= clock (world st) ->
  let q := long_lived_params (self st) (_access_token (self st)) in
  let v := upgrade_value (provider (world st) (net_log (world st)) q) in
  refresh_if_needed st
  = (if truthy v then
       access_token <- dict_get v "access_token" PNone ;;
       expires_in <- dict_get v "expires_in" (PNum 5184000) ;;
       if truthy access_token then
         m' <- get_self ;;
         _save_token access_token expires_in (_refresh_token m')
       else ret tt
     else ret tt) (posted q st).
Proof.
  intros Hc Hh He Hdue q v. unfold holds_token in Hh.
  apply andb_true_iff in Hh as [Ha Hx].
  unfold refresh_if_needed.
  unfold bind at 1. unfold get_self at 1.
  rewrite Ha, Hx. simpl. rewrite He.
  unfold bind at 1. unfold time_time at 1.
  unfold bind at 1. unfold num_sub at 1. simpl. unfold ret at 1.
  replace (clock (world st) <? x - REFRESH_BUFFER_SECONDS) with false
    by (symmetry; apply Z.ltb_ge; exact Hdue).
  rewrite Hc. simpl.
  erewrite bind_ok_step
    by (apply long_lived_exchange_configured; exact Hc).
  reflexivity.
Qed.

(** [exchange_code_for_token] once the code grant has been answered with
    an object and the long-lived exchange has been tried. *)
Lemma exchange_after_grant (code : string) (st : state) (secs : Z)
    (line : string) (d1 : list (string * pyval)) :
  is_configured (self st) = true ->
  provider (world st) (net_log (world st)) (code_params (self st) code)
  = mkReply secs (Answer (mkResponse true line (Json (PDict d1)))) ->
  let short_token := field "access_token" d1 in
  let st1 := posted (code_params (self st) code) st in
  let rp2 := provider (world st1) (net_log (world st1))
               (long_lived_params (self st) short_token) in
  let st2 := posted (long_lived_params (self st) short_token) st1 in
  exchange_code_for_token code st
  = try_except
      (final <-
         (if truthy (upgrade_value rp2) then
            a <- dict_get (upgrade_value rp2) "access_token" short_token ;;
            e <- dict_get (upgrade_value rp2) "expires_in" (short_lifetime d1) ;;
            ret (a, e)
          else ret (short_token, short_lifetime d1)) ;;
       refresh <- dict_get (PDict d1) "refresh_token" PNone ;;
       _save_token (fst final) (snd final) refresh ;;
       ret (success_result (fst final) (snd final)))
      (fun e =>
         match e with
         | HTTPStatusError _ c =>
             error_data <-
               (match c with
                | Empty => ret (PDict [])
                | _ => decode c
                end) ;;
             error <- dict_get error_data "error" (PDict []) ;;
             message <- dict_get error "message" (PStr (exn_str e)) ;;
             ret (failure_result message)
         | _ => ret (failure_result (PStr (exn_str e)))
         end)
      st2.
Proof.
  intros Hc H1 short_token st1 rp2 st2.
  assert (Hpost : client_post (code_params (self st) code) st
                  = (Ok (mkResponse true line (Json (PDict d1))), st1)).
  { apply client_post_answer. now rewrite H1. }
  assert (Hc1 : is_configured (self st1) = true).
  { subst st1. now rewrite posted_is_configured. }
  assert (Hs1 : self st1 = self st) by apply posted_self.
  pose proof (long_lived_exchange_configured short_token st1 Hc1) as Hll.
  rewrite Hs1 in Hll. fold rp2 in Hll. fold st2 in Hll.
  unfold exchange_code_for_token.
  unfold bind at 1. unfold get_self at 1. rewrite Hc. cbn [negb].
  erewrite try_bind_step by exact Hpost. cbv beta.
  erewrite try_bind_step by reflexivity. cbv beta.
  erewrite try_bind_step by reflexivity. cbv beta.
  erewrite try_bind_step by reflexivity. cbv beta.
  erewrite try_bind_step by reflexivity. cbv beta.
  fold (short_lifetime d1). fold (field "access_token" d1). fold short_token.
  erewrite try_bind_step by exact Hll. cbv beta.
  reflexivity.
Qed.

(** ** Saves that go through *)

Lemma posted_disk (q : params) (st : state) :
  token_file (world (posted q st)) = token_file (world st)
  /\ on_write (world (posted q st)) = on_write (world st).
Proof. unfold posted, client_post. destruct (outcome _); split; reflexivity. Qed.


(** [_save_token] with a lifetime that converts to a float, in terms of
    [store_after]. *)
Lemma save_token_stores (a e r : pyval) (n : Z) (st : state) :
  as_number e = Some n ->
  too_large_for_float n = false ->
  exists st',
    _save_token a e r st = (Ok tt, st')
    /\ _access_token (self st') = a
    /\ _token_expires_at (self st') = PNum (clock (world st) + n)
    /\ _refresh_token (self st')
       = (if truthy r then r else _refresh_token (self st))
    /\ clock (world st') = clock (world st)
    /\ token_file (world st')
       = store_after (on_write (world st)) (token_file (world st))
           a (PNum (clock (world st) + n)) r.
Proof.
  intros Hn Hfit.
  destruct (save_token_numeric a e r st Hn Hfit)
    as (st' & E & Ha & He & Hr & _ & _ & _ & _ & Hc & _ & _ & _ & _ & _ & F).
  exists st'. unfold store_after. auto 10.
Qed.

(** A due refresh answered with a token object whose lifetime converts
    to a float. *)
Lemma refresh_if_needed_renews (st : state) (x : Z)
    (d : list (string * pyval)) (n : Z) :
  is_configured (self st) = true ->
  holds_token (self st) = true ->
  _token_expires_at (self st) = PNum x ->
  x - REFRESH_BUFFER_SECONDS <= clock (world st) ->
  let q := long_lived_params (self st) (_access_token (self st)) in
  let rp := provider (world st) (net_log (world st)) q in
  upgrade_value rp = PDict d ->
  truthy (field "access_token" d) = true ->
  as_number (match lookup "expires_in" d with
             | Some e => e
             | None => PNum 5184000
             end) = Some n ->
  too_large_for_float n = false ->
  let now' := clock (world st) + latency rp in
  exists st2,
    refresh_if_needed st = (Ok tt, st2)
    /\ _access_token (self st2) = field "access_token" d
    /\ _token_expires_at (self st2) = PNum (now' + n)
    /\ _refresh_token (self st2) = _refresh_token (self st)
    /\ clock (world st2) = now'
    /\ token_file (world st2)
       = store_after (on_write (world st)) (token_file (world st))
           (field "access_token" d) (PNum (now' + n))
           (_refresh_token (self st)).
Proof.
  intros Hc Hh He Hdue q rp Hv Ha Hn Hfit now'.
  set (st1 := posted q st).
  destruct (save_token_stores (field "access_token" d) _
              (_refresh_token (self st1)) st1 Hn Hfit)
    as (st2 & Es & Hat & Hex & Hrt & Hck & Hf).
  assert (F : refresh_if_needed st = (Ok tt, st2)).
  { rewrite (refresh_if_needed_run st Hc Hh He Hdue).
    fold q. fold rp. rewrite Hv. fold st1.
    assert (Ht : truthy (PDict d) = true).
    { destruct d; [ discriminate Ha | reflexivity ]. }
    rewrite Ht. simpl dict_get. unfold bind at 1. unfold ret at 1.
    unfold bind at 1. unfold ret at 1.
    fold (field "access_token" d). rewrite Ha.
    unfold bind at 1. unfold get_self at 1. exact Es. }
  assert (Hs1 : self st1 = self st) by apply posted_self.
  assert (Hc1 : clock (world st1) = now') by apply posted_clock.
  destruct (posted_disk q st) as [Hf1 Hw1]. fold st1 in Hf1, Hw1.
  rewrite Hs1, Hc1, ?Hf1, ?Hw1 in *.
  exists st2. split; [ exact F | ]. split; [ exact Hat | ].
  split; [ exact Hex | ].
  split. { rewrite Hrt. now destruct (truthy (_refresh_token (self st))). }
  split; assumption.
Qed.

(** [refresh_token] answered with a token object whose lifetime converts
    to a float. *)
Lemma refresh_token_renews (st : state) (d : list (string * pyval)) (n : Z) :
  truthy (_refresh_token (self st)) = true ->
  let q := long_lived_params (self st) (_refresh_token (self st)) in
  let rp := provider (world st) (net_log (world st)) q in
  upgrade_value rp = PDict d ->
  as_number (match lookup "expires_in" d with
             | Some e => e
             | None => PNum 3600
             end) = Some n ->
  too_large_for_float n = false ->
  let now' := clock (world st) + latency rp in
  exists st2,
    refresh_token st = (Ok true, st2)
    /\ _access_token (self st2) = field "access_token" d
    /\ _token_expires_at (self st2) = PNum (now' + n)
    /\ _refresh_token (self st2) = _refresh_token (self st)
    /\ token_file (world st2)
       = store_after (on_write (world st)) (token_file (world st))
           (field "access_token" d) (PNum (now' + n))
           (_refresh_token (self st)).
Proof.
  intros Hr q rp Hv Hn Hfit now'.
  assert (Ho : exists line,
             outcome rp = Answer (mkResponse true line (Json (PDict d)))).
  { unfold upgrade_value in Hv.
    destruct (outcome rp) as [msg | [s line c]]; [ discriminate Hv | ].
    simpl in Hv. destruct s; [ | discriminate Hv ].
    destruct c as [ | | v]; try discriminate Hv. subst v. now exists line. }
  destruct Ho as (line & Ho).
  pose proof (client_post_answer q st Ho) as Hpost.
  set (st1 := posted q st) in *.
  destruct (save_token_stores (field "access_token" d) _
              (_refresh_token (self st1)) st1 Hn Hfit)
    as (st2 & Es & Hat & Hex & Hrt & Hck & Hf).
  assert (F : refresh_token st = (Ok true, st2)).
  { unfold refresh_token.
    unfold bind at 1. unfold get_self at 1. rewrite Hr. cbn [negb].
    fold q.
    erewrite try_bind_step by exact Hpost. cbv beta.
    erewrite try_bind_step by reflexivity. cbv beta.
    erewrite try_bind_step by reflexivity. cbv beta.
    erewrite try_bind_step by reflexivity. cbv beta.
    erewrite try_bind_step by reflexivity. cbv beta.
    erewrite try_bind_step by reflexivity. cbv beta.
    fold (field "access_token" d).
    apply try_except_ok_step.
    erewrite bind_ok_step by exact Es. reflexivity. }
  assert (Hs1 : self st1 = self st) by apply posted_self.
  assert (Hc1 : clock (world st1) = now') by apply posted_clock.
  destruct (posted_disk q st) as [Hf1 Hw1]. fold st1 in Hf1, Hw1.
  rewrite Hs1, Hc1, ?Hf1, ?Hw1 in *.
  exists st2. split; [ exact F | ]. split; [ exact Hat | ].
  split; [ exact Hex | ].
  split. { rewrite Hrt, Hr. reflexivity. }
  assumption.
Qed.


(** ** C7: the cache file is written after memory, and best effort *)



(** ** C8: the cache file round trip *)

(** What construction leaves in the manager, for every cache file. *)
Lemma init_spec (environ : string -> option string) (st : state) :
  __init__ environ st
  = (Ok tt,
     mkState
       (match cached_object (token_file (world st)) with
        | Some kv =>
            manager_of_env environ (field "access_token" kv)
              (field "expires_at" kv) (field "refresh_token" kv)
        | None => manager_of_env environ PNone PNone PNone
        end)
       (world st)).
Proof.
  destruct st as [m w]. unfold __init__, _load_cached_token, load_json_file.
  run. unfold manager_of_env.
  destruct (token_file w) as [[ | [ | | v]] | ] eqn:E; run; rewrite ?E; run;
    try reflexivity.
  destruct v; reflexivity.
Qed.

(** C8.  After [_save_token token 3600 refresh] has written the cache
    file, a manager constructed later over the same file has
    [access_token = token] and [expires_at] equal to the clock at the
    save plus 3600 (so within one second of it), and the refresh token
    that was passed.  Construction over a missing, unreadable, empty or
    malformed file returns normally with an empty credential, the world
    untouched. *)
Theorem cache_round_trip :
  (forall (st : state) (token : string) (refresh : option string)
          (environ : string -> option string) (later : state),
      on_write (world st) = WriteOk ->
      token_file (world later)
      = token_file
          (world (snd (_save_token (PStr token) (PNum 3600) (opt_str refresh) st))) ->
      let fresh := snd (__init__ environ later) in
      fst (__init__ environ later) = Ok tt
      /\ _access_token (self fresh) = PStr token
      /\ _token_expires_at (self fresh) = PNum (clock (world st) + 3600)
      /\ (exists x, _token_expires_at (self fresh) = PNum x
                    /\ Z.abs (x - (clock (world st) + 3600)) <= 1)
      /\ _refresh_token (self fresh) = opt_str refresh)
  /\ (forall (environ : string -> option string) (st : state),
         no_usable_cache (token_file (world st)) = true ->
         __init__ environ st
         = (Ok tt, mkState (manager_of_env environ PNone PNone PNone) (world st)))
  /\ (forall st, exists st', _load_cached_token st = (Ok tt, st')).
Proof.
  split; [ | split ].
  - intros st token refresh environ later Hw Hf fresh.
    destruct (save_token_numeric (PStr token) (PNum 3600) (opt_str refresh) st
                eq_refl eq_refl)
      as (st' & E & _ & _ & _ & _ & _ & _ & _ & _ & _ & _ & _ & _ & _ & F).
    rewrite E in Hf. simpl in Hf. rewrite F, Hw in Hf.
    subst fresh. rewrite init_spec, Hf. simpl.
    repeat split.
    exists (clock (world st) + 3600). split; [ reflexivity | ].
    rewrite Z.sub_diag. simpl. lia.
  - intros environ st Hn. rewrite init_spec.
    destruct (token_file (world st)) as [[ | [ | | v]] | ];
      simpl in *; try reflexivity; discriminate Hn.
  - intros [m w]. unfold _load_cached_token, load_json_file. run.
    destruct (token_file w) as [[ | [ | | v]] | ] eqn:E; run; rewrite ?E; run;
      try (eexists; reflexivity).
    destruct v; eexists; reflexivity.
Qed.

Lemma cache_round_trip_witness :
  let st := mkState (configured_manager PNone PNone)
              (quiet_world 1000 dead_provider) in
  let saved := snd (_save_token (PStr "EAAB") (PNum 3600) PNone st) in
  let fresh := snd (__init__ (fun _ => None)
                      (mkState (unconfigured_manager PNone PNone) (world saved))) in
  _access_token (self fresh) = PStr "EAAB"
  /\ _token_expires_at (self fresh) = PNum 4600.
Proof.
  intros st saved fresh.
  destruct (proj1 cache_round_trip st "EAAB" None (fun _ => None)
              (mkState (unconfigured_manager PNone PNone) (world saved))
              eq_refl eq_refl)
    as (_ & Ha & He & _).
  split; [ exact Ha | exact He ].
Defined.

(** ** C6: access token and expiry go together *)

Lemma num_sub_ok_inv (v : pyval) (k : Z) st x st' :
  num_sub v k st = (Ok x, st') -> st' = st.
Proof.
  unfold num_sub. destruct (as_number v); intros H; [ | discriminate H ].
  now injection H.
Qed.

Lemma long_lived_exchange_self (tok : pyval) st v st' :
  _exchange_for_long_lived_token tok st = (Ok v, st') -> self st' = self st.
Proof.
  intros H. destruct (long_lived_exchange_never_raises tok st)
    as (v' & st'' & E & Hs).
  rewrite E in H. injection H as _ <-. exact Hs.
Qed.

(** A call of [refresh_if_needed] that returns either left the manager
    alone or went through [_save_token]. *)
Lemma refresh_if_needed_ok_inv st u st' :
  refresh_if_needed st = (Ok u, st') ->
  self st' = self st
  \/ exists n, _token_expires_at (self st') = PNum n.
Proof.
  unfold refresh_if_needed. unfold bind at 1. unfold get_self at 1.
  destruct (negb (truthy (_access_token (self st)))
            || negb (truthy (_token_expires_at (self st)))).
  { intros H. injection H as _ <-. now left. }
  unfold bind at 1. unfold time_time at 1. intros H.
  apply bind_ok_inv in H as (thr & st1 & Hs & H).
  apply num_sub_ok_inv in Hs. subst st1.
  destruct (clock (world st) <? thr).
  { injection H as _ <-. now left. }
  destruct (negb (is_configured (self st))).
  { injection H as _ <-. now left. }
  apply bind_ok_inv in H as (v & st2 & Hx & H).
  apply long_lived_exchange_self in Hx.
  destruct (truthy v).
  2:{ injection H as _ <-. now left. }
  apply bind_ok_inv in H as (a & st3 & Ha & H).
  apply dict_get_ok_inv in Ha as [-> _].
  apply bind_ok_inv in H as (e & st4 & He & H).
  apply dict_get_ok_inv in He as [-> _].
  destruct (truthy a).
  2:{ injection H as _ <-. now left. }
  apply bind_ok_inv in H as (m' & st5 & _ & H).
  apply save_token_ok_inv in H as (n & _ & _ & H & _).
  right. eexists. exact H.
Qed.

Lemma refresh_token_true_inv st st' :
  refresh_token st = (Ok true, st') ->
  exists n, _token_expires_at (self st') = PNum n.
Proof.
  unfold refresh_token. unfold bind at 1. unfold get_self at 1.
  destruct (negb (truthy (_refresh_token (self st)))); [ discriminate | ].
  intros H. apply try_except_ok_inv in H as [H | (e & st1 & _ & H)];
    [ | discriminate H ].
  do 6 (apply bind_ok_inv in H as (? & ? & _ & H)).
  apply bind_ok_inv in H as (u & st2 & Hs & H).
  injection H as <-.
  apply save_token_ok_inv in Hs as (n & _ & _ & Hs & _). eexists. exact Hs.
Qed.

Lemma paired_of_expiry (m : manager) (n : Z) :
  _token_expires_at m = PNum n -> paired m.
Proof. intros H _. rewrite H. discriminate. Qed.

Lemma is_none_false (v : pyval) : is_none v = false <-> v <> PNone.
Proof. destruct v; simpl; split; congruence. Qed.

(** C6, as the code has it.  [_save_token] assigns the access token and
    the expiry [now + expires_in] in the same call, so the pairing holds
    after a save or [set_access_token] whose lifetime converts to a
    float (the expiry being the exact sum within the exact range), after
    every save, exchange or refresh that reports success, and trivially
    after [clear_token]; [refresh_if_needed] preserves it whenever it
    returns.  Construction copies the two fields from the cache file as
    they are: the pairing holds after a load exactly when the file has
    it, as every file written by [_save_token] does. *)
Theorem credential_pairing (st : state) :
  (forall a r n,
      adds_exactly (clock (world st)) n = true ->
      let m' := self (snd (_save_token a (PNum n) r st)) in
      _access_token m' = a
      /\ _token_expires_at m' = PNum (clock (world st) + n)
      /\ paired m')
  /\ (forall token n,
         too_large_for_float n = false ->
         fst (set_access_token token n st) = Ok tt
         /\ paired (self (snd (set_access_token token n st))))
  /\ paired (self (snd (clear_token st)))
  /\ (forall code a e st',
         exchange_code_for_token code st = (Ok (success_result a e), st') ->
         paired (self st'))
  /\ (forall st',
         paired (self st) ->
         refresh_if_needed st = (Ok tt, st') -> paired (self st'))
  /\ (forall st', refresh_token st = (Ok true, st') -> paired (self st'))
  /\ (forall environ,
         paired (self (snd (__init__ environ st)))
         <-> cache_paired (token_file (world st)) = true)
  /\ (forall a r n,
         on_write (world st) = WriteOk ->
         too_large_for_float n = false ->
         cache_paired
           (token_file (world (snd (_save_token a (PNum n) r st)))) = true)
  /\ (forall a e r st',
         _save_token a e r st = (Ok tt, st') ->
         _access_token (self st') = a /\ paired (self st')).
Proof.
  split.
  { intros a r n Hx.
    destruct (save_token_numeric a (PNum n) r st eq_refl
                (adds_exactly_fits _ _ Hx))
      as (st' & E & Ha & He & _).
    rewrite E. simpl. repeat split; try assumption.
    apply (paired_of_expiry _ He). }
  split.
  { intros token n Hfit. unfold set_access_token.
    destruct (save_token_numeric (PStr token) (PNum n) PNone st eq_refl Hfit)
      as (st' & E & _ & He & _).
    rewrite E. split; [ reflexivity | apply (paired_of_expiry _ He) ]. }
  split.
  { destruct st as [m w]. unfold clear_token, os_remove. run.
    destruct (token_file w); run; [ destruct (remove_denied w) | ];
      intros H; now elim H. }
  split.
  { intros code a e st' H.
    apply exchange_success_stores in H as (n & _ & _ & He).
    apply (paired_of_expiry _ He). }
  split.
  { intros st' Hp H.
    apply refresh_if_needed_ok_inv in H as [Hs | (n & He)].
    - now rewrite Hs.
    - apply (paired_of_expiry _ He). }
  split.
  { intros st' H. apply refresh_token_true_inv in H as (n & He).
    apply (paired_of_expiry _ He). }
  split.
  { intros environ. rewrite init_spec. unfold cache_paired, paired.
    destruct (cached_object (token_file (world st))) as [kv | ]; simpl.
    - rewrite orb_true_iff, negb_true_iff, is_none_false.
      split.
      + intros H. destruct (field "access_token" kv) eqn:Ea;
          try (right; apply H; discriminate). now left.
      + intros [H | H] Ha; [ | exact H ].
        destruct (field "access_token" kv); simpl in H;
          try discriminate H. now elim Ha.
    - split; [ reflexivity | intros _ H; now elim H ]. }
  split.
  { intros a r n Hw Hfit.
    destruct (save_token_numeric a (PNum n) r st eq_refl Hfit)
      as (st' & E & _ & _ & _ & _ & _ & _ & _ & _ & _ & _ & _ & _ & _ & F).
    rewrite E. simpl. rewrite F, Hw. unfold cache_paired. simpl.
    apply orb_true_r. }
  intros a e r st' H.
  apply save_token_ok_inv in H as (n & _ & Ha & He & _).
  split; [ exact Ha | apply (paired_of_expiry _ He) ].
Qed.

(** A paired credential goes through a refresh and stays paired; a
    manual override with the default lifetime leaves a paired
    credential. *)
Lemma credential_pairing_witness :
  let st := mkState
              (configured_manager (PStr "EAAB") (PNum 1000))
              (quiet_world 1000000 friendly_provider) in
  (paired (self (snd (refresh_if_needed st)))
   /\ _access_token (self (snd (refresh_if_needed st))) = PStr "long")
  /\ paired (self (snd (set_access_token "EAAC" 3600 st))).
Proof.
  intros st. split; [ split; [ | reflexivity ] | ].
  - apply (proj1 (proj2 (proj2 (proj2 (proj2 (credential_pairing st)))))
             (snd (refresh_if_needed st))).
    + intros _. discriminate.
    + reflexivity.
  - exact (proj2 (proj1 (proj2 (credential_pairing st)) "EAAC" 3600 eq_refl)).
Defined.

(** C6 as stated fails at construction: a cache file that holds an
    access token and no expiry gives a manager with the token present
    and the expiry absent. *)
Lemma unpaired_after_cache_load :
  let w := set_token_file
             (Some (Readable (Json (PDict [("access_token", PStr "EAAB")]))))
             (quiet_world 1000 dead_provider) in
  let m := self (snd (__init__ (fun _ => None)
                        (mkState (unconfigured_manager PNone PNone) w))) in
  _access_token m = PStr "EAAB"
  /\ _token_expires_at m = PNone
  /\ ~ paired m.
Proof.
  intros w m. split; [ reflexivity | split; [ reflexivity | ] ].
  intros H. apply H; [ discriminate | reflexivity ].
Qed.

(** ** C2: what [exchange_code_for_token] hands back *)

Lemma nse_ret {A} (a : A) : no_status_error (ret a).
Proof. intros st e st' H. discriminate H. Qed.

Lemma nse_raise {A} (e : exn) :
  is_status_error e = false -> no_status_error (@raise A e).
Proof. intros He st e' st' H. injection H as <- _. exact He. Qed.

Lemma nse_bind {A B} (m : M A) (k : A -> M B) :
  no_status_error m -> (forall a, no_status_error (k a)) ->
  no_status_error (bind m k).
Proof.
  intros Hm Hk st e st' H. apply bind_raise_inv in H as [H | (a & st1 & _ & H)].
  - apply (Hm _ _ _ H).
  - apply (Hk _ _ _ _ H).
Qed.

Lemma nse_try_except {A} (m : M A) (h : exn -> M A) :
  (forall e, no_status_error (h e)) -> no_status_error (try_except m h).
Proof.
  intros Hh st e st'. unfold try_except.
  destruct (m st) as [[a | e0] st1]; intros H.
  - discriminate H.
  - apply (Hh _ _ _ _ H).
Qed.

Lemma nse_get_self : no_status_error get_self.
Proof. intros st e st' H. discriminate H. Qed.

Lemma nse_put_self (m : manager) : no_status_error (put_self m).
Proof. intros st e st' H. discriminate H. Qed.

Lemma nse_time_time : no_status_error time_time.
Proof. intros st e st' H. discriminate H. Qed.

Lemma nse_client_post (q : params) : no_status_error (client_post q).
Proof.
  intros st e st'. unfold client_post. destruct (outcome _); intros H.
  - injection H as <- _. reflexivity.
  - discriminate H.
Qed.

Lemma nse_decode (b : body) : no_status_error (decode b).
Proof.
  destruct b; simpl; first [ apply nse_ret | now apply nse_raise ].
Qed.

Lemma nse_dict_get (d : pyval) (k : string) (v : pyval) :
  no_status_error (dict_get d k v).
Proof.
  destruct d; simpl; first [ apply nse_ret | now apply nse_raise ].
Qed.

Lemma nse_num_add (x : Z) (v : pyval) : no_status_error (num_add x v).
Proof.
  unfold num_add.
  destruct (as_number v) as [n | ]; [ destruct (too_large_for_float n) | ];
    first [ apply nse_ret | now apply nse_raise ].
Qed.

Lemma nse_setters (v : pyval) :
  no_status_error (set__access_token v)
  /\ no_status_error (set__token_expires_at v)
  /\ no_status_error (set__refresh_token v).
Proof. repeat split; intros st e st' H; discriminate H. Qed.

Create HintDb nse.
#[local] Hint Resolve nse_ret nse_get_self nse_put_self nse_time_time
  nse_client_post nse_decode nse_dict_get nse_num_add : nse.
#[local] Hint Extern 1 (no_status_error (set__access_token _)) =>
  apply nse_setters : nse.
#[local] Hint Extern 1 (no_status_error (set__token_expires_at _)) =>
  apply nse_setters : nse.
#[local] Hint Extern 1 (no_status_error (set__refresh_token _)) =>
  apply nse_setters : nse.

Ltac nse_step :=
  first
    [ solve [ auto with nse ]
    | apply nse_try_except; intros ?
    | apply nse_bind; [ | intros ? ]
    | match goal with
      | |- no_status_error (if ?b then _ else _) => destruct b
      | |- no_status_error (match ?x with _ => _ end) => destruct x
      end ].

Ltac nse_all := repeat nse_step.

Lemma nse_save_token (a e r : pyval) : no_status_error (_save_token a e r).
Proof. unfold _save_token. nse_all. Qed.

Lemma nse_long_lived_exchange (tok : pyval) :
  no_status_error (_exchange_for_long_lived_token tok).
Proof. unfold _exchange_for_long_lived_token. nse_all. Qed.

#[local] Hint Resolve nse_save_token nse_long_lived_exchange : nse.

(** The [HTTPStatusError] handler on a readable body. *)
Lemma status_handler_readable (msg : string) (c : body) (st : state) :
  error_body_readable c = true ->
  exists err,
    (error_data <-
       (match c with
        | Empty => ret (PDict [])
        | _ => decode c
        end) ;;
     error <- dict_get error_data "error" (PDict []) ;;
     message <- dict_get error "message"
                  (PStr (exn_str (HTTPStatusError msg c))) ;;
     ret (failure_result message)) st
    = (Ok (failure_result err), st).
Proof.
  intros Hr. destruct c as [ | | v]; try discriminate Hr.
  - eexists. reflexivity.
  - destruct v; try discriminate Hr. simpl in Hr. run.
    destruct (lookup "error" kv) as [[ | | | | | kv'] | ];
      try discriminate Hr; eexists; reflexivity.
Qed.

(** C2, as the code has it.  Without client credentials
    [exchange_code_for_token] raises the "not configured" [ValueError]
    and does nothing else.  With them it returns one of its two result
    dicts, [success: True] or [success: False], and raises nothing, for
    every code and every reply of the provider other than an error
    status whose body the handler cannot take apart. *)
Theorem exchange_code_returns_result (code : string) (st : state) :
  (is_configured (self st) = false ->
   exchange_code_for_token code st
   = (Raise (ValueError "OAuth2 not configured"), st))
  /\ (is_configured (self st) = true ->
      reply_readable
        (provider (world st) (net_log (world st)) (code_params (self st) code))
      = true ->
      exists r st',
        exchange_code_for_token code st = (Ok r, st') /\ discriminated r).
Proof.
  split.
  { intros Hc. unfold exchange_code_for_token, bind, get_self.
    rewrite Hc. reflexivity. }
  intros Hc Hr. unfold exchange_code_for_token.
  unfold bind at 1. unfold get_self at 1. rewrite Hc. simpl.
  match goal with
  | |- context [ try_except ?b ?h ] => set (attempt := b); set (handler := h)
  end.
  unfold try_except. destruct (attempt st) as [[r | e] st1] eqn:Hb.
  - exists r, st1. split; [ reflexivity | ]. left. subst attempt.
    do 9 (apply bind_ok_inv in Hb as (? & ? & _ & Hb)).
    injection Hb as <- _. do 2 eexists. reflexivity.
  - destruct (is_status_error e) eqn:He.
    + destruct e as [ | | | | | | | | msg c]; try discriminate He.
      assert (Hc' : error_body_readable c = true).
      { subst attempt. apply bind_raise_inv in Hb as [Hb | (resp & st2 & Hp & Hb)].
        { apply nse_client_post in Hb. discriminate Hb. }
        assert (Ho : outcome (provider (world st) (net_log (world st))
                                (code_params (self st) code)) = Answer resp).
        { unfold client_post in Hp. destruct (outcome _); [ discriminate Hp | ].
          now injection Hp as ->. }
        unfold reply_readable in Hr. rewrite Ho in Hr.
        apply bind_raise_inv in Hb as [Hb | (u & st3 & _ & Hb)].
        - unfold raise_for_status in Hb.
          destruct (is_success resp); [ discriminate Hb | ].
          injection Hb as _ <- _. exact Hr.
        - match type of Hb with
          | ?t _ = _ => assert (N : no_status_error t) by nse_all
          end.
          apply N in Hb. discriminate Hb. }
      subst handler. simpl.
      destruct (status_handler_readable msg c st1 Hc') as (err & E).
      exists (failure_result err), st1. split; [ exact E | ].
      right. now exists err.
    + exists (failure_result (PStr (exn_str e))), st1. split.
      * subst handler. destruct e; try reflexivity. discriminate He.
      * right. now eexists.
Qed.

Lemma exchange_code_returns_result_witness :
  let st := mkState (configured_manager PNone PNone)
              (quiet_world 1000 dead_provider) in
  exists r st',
    exchange_code_for_token "abc" st = (Ok r, st') /\ discriminated r.
Proof.
  intros st.
  exact (proj2 (exchange_code_returns_result "abc" st) eq_refl eq_refl).
Defined.

(** C2 as stated fails: without client credentials the call raises
    [ValueError] instead of returning a result. *)
Lemma exchange_code_raises_when_unconfigured :
  let st := mkState (unconfigured_manager PNone PNone)
              (quiet_world 1000 friendly_provider) in
  exchange_code_for_token "abc" st
  = (Raise (ValueError "OAuth2 not configured"), st)
  /\ ~ (exists r st',
           exchange_code_for_token "abc" st = (Ok r, st') /\ discriminated r).
Proof.
  intros st. split; [ reflexivity | ].
  intros (r & st' & H & _). discriminate H.
Qed.

(** ** C4: the long-lived upgrade is best effort *)

(** C4.  Once the provider has answered the code grant with a token
    object, [exchange_code_for_token] requests the long-lived exchange
    for that token.  If the exchange yields nothing (the call fails, or
    the reply is empty), the operation still reports success and the
    short-lived token and lifetime are stored; if it yields an object
    with [access_token] and [expires_in], these replace the short-lived
    values in the result and in the stored credential.  The expiry is
    the clock at the save plus the lifetime kept, for a lifetime in the
    exact range of a float. *)
Theorem upgrade_is_best_effort
    (code : string) (st : state) (secs : Z) (line : string)
    (d1 : list (string * pyval)) (n1 : Z) :
  is_configured (self st) = true ->
  provider (world st) (net_log (world st)) (code_params (self st) code)
  = mkReply secs (Answer (mkResponse true line (Json (PDict d1)))) ->
  as_number (short_lifetime d1) = Some n1 ->
  let short_token := field "access_token" d1 in
  let st1 := posted (code_params (self st) code) st in
  let rp2 := provider (world st1) (net_log (world st1))
               (long_lived_params (self st) short_token) in
  let final := exchange_code_for_token code st in
  let saved_at := clock (world st) + secs + latency rp2 in
  net_log (world (snd final))
  = (net_log (world st)
       ++ [code_params (self st) code;
           long_lived_params (self st) short_token])%list
  /\ (truthy (upgrade_value rp2) = false ->
      adds_exactly saved_at n1 = true ->
      fst final = Ok (success_result short_token (short_lifetime d1))
      /\ _access_token (self (snd final)) = short_token
      /\ _token_expires_at (self (snd final)) = PNum (saved_at + n1))
  /\ (forall d2 a2 e2 n2,
         upgrade_value rp2 = PDict d2 ->
         lookup "access_token" d2 = Some a2 ->
         lookup "expires_in" d2 = Some e2 ->
         as_number e2 = Some n2 ->
         adds_exactly saved_at n2 = true ->
         fst final = Ok (success_result a2 e2)
         /\ _access_token (self (snd final)) = a2
         /\ _token_expires_at (self (snd final)) = PNum (saved_at + n2)).
Proof.
  intros Hc H1 Hn1 short_token st1 rp2 final saved_at.
  assert (Hpost : client_post (code_params (self st) code) st
                  = (Ok (mkResponse true line (Json (PDict d1))), st1)).
  { apply client_post_answer. now rewrite H1. }
  assert (Hc1 : is_configured (self st1) = true).
  { subst st1. now rewrite posted_is_configured. }
  assert (Hs1 : self st1 = self st) by apply posted_self.
  pose proof (long_lived_exchange_configured short_token st1 Hc1) as Hll.
  rewrite Hs1 in Hll. fold rp2 in Hll.
  set (st2 := posted (long_lived_params (self st) short_token) st1) in *.
  assert (Hclock : clock (world st2) = saved_at).
  { subst st2 saved_at. rewrite posted_clock. fold rp2. subst st1.
    rewrite posted_clock, H1. reflexivity. }
  assert (Hlog : net_log (world st2)
                 = (net_log (world st)
                      ++ [code_params (self st) code;
                          long_lived_params (self st) short_token])%list).
  { subst st2 st1. rewrite !posted_net_log, <- app_assoc. reflexivity. }
  eassert (E : final = _).
  { subst final. unfold exchange_code_for_token.
    unfold bind at 1. unfold get_self at 1. rewrite Hc. cbn [negb].
    erewrite try_bind_step by exact Hpost. cbv beta.
    erewrite try_bind_step by reflexivity. cbv beta.
    erewrite try_bind_step by reflexivity. cbv beta.
    erewrite try_bind_step by reflexivity. cbv beta.
    erewrite try_bind_step by reflexivity. cbv beta.
    fold (short_lifetime d1). fold (field "access_token" d1). fold short_token.
    erewrite try_bind_step by exact Hll. cbv beta.
    reflexivity. }
  split; [ | split ].
  - rewrite E.
    match goal with
    | |- context [ try_except ?b ?h st2 ] =>
        assert (K : keeps net_log (try_except b h)) by keeps_all
    end.
    rewrite K. exact Hlog.
  - intros Hv Hx1. rewrite Hv in E.
    destruct (save_token_numeric short_token (short_lifetime d1)
                (field "refresh_token" d1) st2 Hn1 (adds_exactly_fits _ _ Hx1))
      as (st3 & Es & Ha & He & _).
    assert (F : final
                = (Ok (success_result short_token (short_lifetime d1)), st3)).
    { rewrite E. unfold try_except, bind, ret; simpl.
      unfold field in Es. rewrite Es. reflexivity. }
    rewrite F. simpl. rewrite Ha, He, Hclock. repeat split.
  - intros d2 a2 e2 n2 Hv Ha2 He2 Hn2 Hx2. rewrite Hv in E.
    assert (Ht : truthy (PDict d2) = true).
    { destruct d2; [ discriminate Ha2 | reflexivity ]. }
    rewrite Ht in E. simpl dict_get in E. rewrite Ha2, He2 in E.
    destruct (save_token_numeric a2 e2 (field "refresh_token" d1) st2 Hn2
                (adds_exactly_fits _ _ Hx2))
      as (st3 & Es & Ha & He & _).
    assert (F : final = (Ok (success_result a2 e2), st3)).
    { rewrite E. unfold try_except, bind, ret; simpl.
      unfold field in Es. rewrite Es. reflexivity. }
    rewrite F. simpl. rewrite Ha, He, Hclock. repeat split.
Qed.

(** The two scenarios of the specification: the upgrade goes through
    (["long"], 5184000 seconds), and the provider stops answering after
    the code grant (["short"], 3600 seconds). *)
Lemma upgrade_is_best_effort_witness :
  let st := mkState (configured_manager PNone PNone)
              (quiet_world 1000 friendly_provider) in
  let flaky (log : list params) (q : params) : reply :=
    match log with
    | [] => friendly_provider log q
    | _ => dead_provider log q
    end in
  let st' := mkState (configured_manager PNone PNone) (quiet_world 1000 flaky) in
  (fst (exchange_code_for_token "abc" st)
   = Ok (success_result (PStr "long") (PNum 5184000))
   /\ _access_token (self (snd (exchange_code_for_token "abc" st))) = PStr "long"
   /\ _token_expires_at (self (snd (exchange_code_for_token "abc" st)))
      = PNum (1000 + 2 + 1 + 5184000))
  /\ (fst (exchange_code_for_token "abc" st')
      = Ok (success_result (PStr "short") (PNum 3600))
      /\ _access_token (self (snd (exchange_code_for_token "abc" st')))
         = PStr "short"
      /\ _token_expires_at (self (snd (exchange_code_for_token "abc" st')))
         = PNum (1000 + 2 + 30 + 3600)).
Proof.
  intros st flaky st'. split.
  - exact (proj2 (proj2
             (upgrade_is_best_effort "abc" st (secs := 2) (line := "200 OK")
                (d1 := [("access_token", PStr "short"); ("expires_in", PNum 3600)])
                (n1 := 3600) eq_refl eq_refl eq_refl))
             [("access_token", PStr "long"); ("expires_in", PNum 5184000)]
             (PStr "long") (PNum 5184000) 5184000
             eq_refl eq_refl eq_refl eq_refl eq_refl).
  - exact (proj1 (proj2
             (upgrade_is_best_effort "abc" st' (secs := 2) (line := "200 OK")
                (d1 := [("access_token", PStr "short"); ("expires_in", PNum 3600)])
                (n1 := 3600) eq_refl eq_refl eq_refl))
             eq_refl eq_refl).
Defined.

(** ** C5: the lifetime assumed when the provider names none *)

(** C5 on the code.  The provider answers the long-lived exchange with a
    token object that names no [expires_in].  [refresh_if_needed], keyed
    off the held access token, stores the expiry [now + 5184000];
    [refresh_token], keyed off the refresh token, sends the same grant
    and stores [now + 3600]. *)
Theorem long_lived_refresh_defaults
    (st : state) (x secs1 secs2 : Z) (line1 line2 : string)
    (d1 d2 : list (string * pyval)) :
  let m := self st in
  let w := world st in
  is_configured m = true ->
  holds_token m = true ->
  _token_expires_at m = PNum x ->
  x - REFRESH_BUFFER_SECONDS <= clock w ->
  provider w (net_log w) (long_lived_params m (_access_token m))
  = mkReply secs1 (Answer (mkResponse true line1 (Json (PDict d1)))) ->
  truthy (field "access_token" d1) = true ->
  lookup "expires_in" d1 = None ->
  truthy (_refresh_token m) = true ->
  provider w (net_log w) (long_lived_params m (_refresh_token m))
  = mkReply secs2 (Answer (mkResponse true line2 (Json (PDict d2)))) ->
  lookup "expires_in" d2 = None ->
  _token_expires_at (self (snd (refresh_if_needed st)))
  = PNum (clock w + secs1 + 5184000)
  /\ fst (refresh_token st) = Ok true
  /\ _token_expires_at (self (snd (refresh_token st)))
     = PNum (clock w + secs2 + 3600).
Proof.
  intros m w Hc Hh He Hdue H1 Ha1 He1 Hr H2 He2. subst m w. split.
  - unfold holds_token in Hh. apply andb_true_iff in Hh as [Ha Hx].
    unfold refresh_if_needed.
    unfold bind at 1. unfold get_self at 1.
    rewrite Ha, Hx. simpl. rewrite He.
    unfold bind at 1. unfold time_time at 1.
    unfold bind at 1. unfold num_sub at 1. simpl. unfold ret at 1.
    replace (clock (world st) <? x - REFRESH_BUFFER_SECONDS) with false
      by (symmetry; apply Z.ltb_ge; exact Hdue).
    rewrite Hc. simpl.
    erewrite bind_ok_step
      by (apply long_lived_exchange_configured; exact Hc).
    replace (upgrade_value _) with (PDict d1)
      by (unfold upgrade_value; rewrite H1; reflexivity).
    set (st1 := posted _ st).
    assert (Ht : truthy (PDict d1) = true).
    { destruct d1; [ discriminate Ha1 | reflexivity ]. }
    rewrite Ht. simpl dict_get. rewrite He1.
    unfold bind at 1. unfold ret at 1.
    unfold bind at 1. unfold ret at 1.
    fold (field "access_token" d1). rewrite Ha1.
    unfold bind at 1. unfold get_self at 1.
    destruct (save_token_numeric (field "access_token" d1) (PNum 5184000)
                (_refresh_token (self st1)) st1 eq_refl eq_refl)
      as (st2 & Es & _ & Hx2 & _).
    rewrite Es. simpl. rewrite Hx2. subst st1.
    rewrite posted_clock, H1. reflexivity.
  - assert (Hpost : client_post (long_lived_params (self st) (_refresh_token (self st))) st
                    = (Ok (mkResponse true line2 (Json (PDict d2))),
                       posted (long_lived_params (self st)
                                 (_refresh_token (self st))) st)).
    { apply client_post_answer. now rewrite H2. }
    set (st1 := posted _ st) in *.
    destruct (save_token_numeric (field "access_token" d2) (PNum 3600)
                (_refresh_token (self st1)) st1 eq_refl eq_refl)
      as (st2 & Es & _ & Hx2 & _).
    assert (F : refresh_token st = (Ok true, st2)).
    { unfold refresh_token.
      unfold bind at 1. unfold get_self at 1. rewrite Hr. cbn [negb].
      erewrite try_bind_step by exact Hpost. cbv beta.
      erewrite try_bind_step by reflexivity. cbv beta.
      erewrite try_bind_step by reflexivity. cbv beta.
      erewrite try_bind_step by reflexivity. cbv beta.
      erewrite try_bind_step by reflexivity. cbv beta.
      erewrite try_bind_step by reflexivity. cbv beta.
      rewrite He2. fold (field "access_token" d2).
      apply try_except_ok_step.
      erewrite bind_ok_step by exact Es. reflexivity. }
    rewrite F. simpl. rewrite Hx2. subst st1. rewrite posted_clock, H2.
    split; reflexivity.
Qed.

(** A manager holding an overdue token and a refresh token, and a
    provider that renews without naming a lifetime. *)
Lemma long_lived_refresh_defaults_witness :
  let renewing (_ : list params) (_ : params) : reply :=
    ok_json 1 (PDict [("access_token", PStr "renewed")]) in
  let st := mkState
              (mkManager (Some "app-id") (Some "app-secret")
                 "https://example.org/cb" "whatsapp_business_messaging"
                 (PStr "EAAB") (PNum 2000) (PStr "refresh-1"))
              (quiet_world 1000000 renewing) in
  _token_expires_at (self (snd (refresh_if_needed st)))
  = PNum (1000000 + 1 + 5184000)
  /\ fst (refresh_token st) = Ok true
  /\ _token_expires_at (self (snd (refresh_token st)))
     = PNum (1000000 + 1 + 3600).
Proof.
  intros renewing st.
  apply (long_lived_refresh_defaults st (x := 2000) (secs1 := 1) (secs2 := 1)
           (line1 := "200 OK") (line2 := "200 OK")
           (d1 := [("access_token", PStr "renewed")])
           (d2 := [("access_token", PStr "renewed")]));
    try reflexivity.
  vm_compute. discriminate.
Defined.

(** ** C9: the exit paths of [start_local_oauth_flow] *)

Lemma keeps_client_post_listening (q : params) :
  keeps listening (client_post q).
Proof.
  intros st. unfold client_post. destruct (outcome _); reflexivity.
Qed.

Lemma keeps_webbrowser_open_listening (u : url) :
  keeps listening (webbrowser_open u).
Proof. intros st. reflexivity. Qed.

Lemma keeps_await_auth_code_listening (timeout : Z) :
  keeps listening (await_auth_code timeout).
Proof.
  intros st. unfold await_auth_code.
  destruct (wait_for timeout (visitor (world st))) as [[r t] rest].
  reflexivity.
Qed.

#[local] Hint Resolve keeps_client_post_listening
  keeps_webbrowser_open_listening keeps_await_auth_code_listening : keeps.

Lemma keeps_long_lived_exchange_listening (tok : pyval) :
  keeps listening (_exchange_for_long_lived_token tok).
Proof. unfold _exchange_for_long_lived_token. keeps_all. Qed.

#[local] Hint Resolve keeps_long_lived_exchange_listening : keeps.

Lemma keeps_exchange_code_listening (code : string) :
  keeps listening (exchange_code_for_token code).
Proof. unfold exchange_code_for_token. keeps_all. Qed.

Lemma keeps_get_authorization_url_listening (s : option string) :
  keeps listening (get_authorization_url s).
Proof. unfold get_authorization_url. keeps_all. Qed.

#[local] Hint Resolve keeps_exchange_code_listening
  keeps_get_authorization_url_listening : keeps.

Lemma filter_other_ports (port : Z) (l : list Z) :
  existsb (Z.eqb port) l = false ->
  filter (fun p => negb (p =? port)) l = l.
Proof.
  induction l as [ | p l IH]; simpl; intros H; [ reflexivity | ].
  apply orb_false_iff in H as [Hp Hl].
  rewrite Z.eqb_sym, Hp. simpl. now rewrite IH.
Qed.

(** [try ... finally] around a body that leaves the listeners alone:
    afterwards the port is closed, however the body ended. *)
Lemma finally_shutdown {A} (body_ : M A) (port : Z) (st : state) :
  keeps listening body_ ->
  fst (try_finally body_ (server_shutdown port) st) = fst (body_ st)
  /\ self (snd (try_finally body_ (server_shutdown port) st))
     = self (snd (body_ st))
  /\ listening (world (snd (try_finally body_ (server_shutdown port) st)))
     = filter (fun p => negb (p =? port)) (listening (world st)).
Proof.
  intros K. unfold try_finally. specialize (K st).
  destruct (body_ st) as [r st1]. simpl in *.
  unfold server_shutdown. run. now rewrite K.
Qed.

(** C9 on the code.  With the port free, the listener is gone after
    every exit of [start_local_oauth_flow].  The redirect URI is put
    back only on the path that gets past [exchange_code_for_token], so a
    flow that returns has restored it; when the wait ends in the timeout
    or in the missing-code error, the flow raises with [redirect_uri]
    still set to the local callback. *)
Theorem oauth_flow_exit_paths (st : state) (port : Z) :
  is_configured (self st) = true ->
  existsb (Z.eqb port) (listening (world st)) = false ->
  let final := start_local_oauth_flow port st in
  listening (world (snd final)) = listening (world st)
  /\ (forall e t rest,
         wait_for 300 (visitor (world st)) = (Raise e, t, rest) ->
         fst final
         = Raise (match e with
                  | TimeoutError _ =>
                      TimeoutError "OAuth flow timed out. Please try again."
                  | _ => e
                  end)
         /\ redirect_uri (self (snd final))
            = "http://localhost:" ++ decimal port ++ "/callback")
  /\ (forall msg,
         fst final = Ok msg ->
         redirect_uri (self (snd final)) = redirect_uri (self st)).
Proof.
  intros Hc Hfree final.
  assert (E : final
              = try_finally
                  (m0 <- get_self ;;
                   let original_redirect_uri := redirect_uri m0 in
                   set_redirect_uri
                     ("http://localhost:" ++ decimal port ++ "/callback") ;;
                   auth_url <- get_authorization_url None ;;
                   webbrowser_open auth_url ;;
                   code <-
                     try_except (await_auth_code 300)
                       (fun e =>
                          match e with
                          | TimeoutError _ =>
                              raise (TimeoutError
                                       "OAuth flow timed out. Please try again.")
                          | _ => raise e
                          end) ;;
                   result <- exchange_code_for_token code ;;
                   set_redirect_uri original_redirect_uri ;;
                   ok <- dict_get result "success" PNone ;;
                   if truthy ok
                   then ret "Successfully authenticated and token cached."
                   else
                     error <- dict_get result "error" PNone ;;
                     raise (ValueError
                              ("Failed to exchange token: " ++ py_str error)))
                  (server_shutdown port)
                  (mkState (self st)
                     (set_listening (port :: listening (world st)) (world st)))).
  { subst final. unfold start_local_oauth_flow.
    unfold bind at 1. unfold get_self at 1. rewrite Hc. cbn [negb].
    unfold bind at 1. unfold TCPServer at 1.
    unfold bind at 1. unfold get_world at 1. rewrite Hfree.
    reflexivity. }
  match type of E with
  | _ = try_finally ?b _ _ =>
      assert (K : keeps listening b) by keeps_all;
      pose proof (finally_shutdown port
                    (mkState (self st)
                       (set_listening (port :: listening (world st)) (world st)))
                    K) as (Fr & Fs & Fl)
  end.
  rewrite <- E in Fr, Fs, Fl. split; [ | split ].
  - rewrite Fl. simpl. rewrite Z.eqb_refl. simpl.
    now apply filter_other_ports.
  - intros e t rest Hw. rewrite Fr, Fs.
    unfold is_configured in Hc.
    unfold get_authorization_url, webbrowser_open, await_auth_code,
      is_configured. run.
    rewrite Hc. run. rewrite Hw. run.
    destruct e; split; reflexivity.
  - intros msg. rewrite Fr, Fs.
    match goal with
    | |- fst (?b ?s) = _ -> _ => destruct (b s) as [r st'] eqn:Hb
    end.
    simpl. intros ->.
    apply bind_ok_inv in Hb as (m0 & s0 & Hm0 & Hb).
    injection Hm0 as <- <-. cbv zeta in Hb. simpl redirect_uri in Hb.
    do 5 (apply bind_ok_inv in Hb as (? & ? & _ & Hb)).
    apply bind_ok_inv in Hb as (u & s6 & Hset & Hb).
    apply bind_ok_inv in Hb as (ok & s7 & Hok & Hb).
    apply dict_get_ok_inv in Hok as [-> _].
    destruct (truthy ok).
    + injection Hb as _ <-. injection Hset as _ <-. reflexivity.
    + apply bind_ok_inv in Hb as (? & ? & _ & Hb). discriminate Hb.
Qed.

(** The timeout scenario: nobody comes back from the browser.  The flow
    raises, the listener on 8080 is gone, and the manager configured
    with [https://example.org/cb] is left with the local callback. *)
Lemma oauth_flow_exit_paths_witness :
  let st := mkState (configured_manager PNone PNone)
              (quiet_world 1000 friendly_provider) in
  let final := start_local_oauth_flow 8080 st in
  fst final = Raise (TimeoutError "OAuth flow timed out. Please try again.")
  /\ listening (world (snd final)) = []
  /\ redirect_uri (self st) = "https://example.org/cb"
  /\ redirect_uri (self (snd final)) = "http://localhost:8080/callback".
Proof.
  intros st final.
  destruct (oauth_flow_exit_paths st 8080 eq_refl eq_refl) as (Hl & Hp & _).
  destruct (Hp (TimeoutError "") 300 [] eq_refl) as (Hr & Hu).
  repeat split; assumption.
Defined.

(** ** Reading the token: [get_access_token] *)

Lemma get_access_token_eq (st : state) :
  optional_float (_token_expires_at (self st)) = true ->
  get_access_token st = (Ok (_access_token (self st)), st).
Proof.
  intros Hty. unfold get_access_token, bind, get_self, time_time, num_sub.
  destruct (_token_expires_at (self st)) as [ | | n | | | ];
    simpl in Hty; try discriminate; simpl.
  - now rewrite andb_false_r.
  - destruct (truthy (_access_token (self st)) && negb (n =? 0));
      [ destruct (clock (world st) <? n - 300) | ]; reflexivity.
Qed.

(** C10.  [get_access_token] is a pure read: whatever the clock says, it
    returns the stored access token and leaves the manager and the world
    untouched, so the result is absent exactly when nothing is stored and
    an expired token is still handed out; the two branches of the
    freshness test against [expires_at - 300] agree.  The helpers of
    [utils.py] pass the same value on ([get_valid_token] after a
    [refresh_if_needed] that has nothing to refresh). *)
Theorem get_access_token_is_pure_read (st : state) :
  optional_float (_token_expires_at (self st)) = true ->
  get_access_token st = (Ok (_access_token (self st)), st)
  /\ (fst (get_access_token st) = Ok PNone <-> _access_token (self st) = PNone)
  /\ (forall later : Z,
         fst (get_access_token
                (mkState (self st)
                   (mkWorld later (provider (world st)) (net_log (world st))
                      (token_file (world st)) (on_write (world st))
                      (remove_denied (world st)) (visitor (world st))
                      (listening (world st)) (browser_log (world st)))))
         = Ok (_access_token (self st)))
  /\ Utils.get_access_token (Some (self st), world st)
     = (Ok (_access_token (self st)), (Some (self st), world st))
  /\ (holds_token (self st) = false ->
      Utils.get_valid_token (Some (self st), world st)
      = (Ok (_access_token (self st)), (Some (self st), world st))).
Proof.
  intros Hty. pose proof (get_access_token_eq st Hty) as E.
  repeat split.
  - exact E.
  - rewrite E. simpl. intros H. now injection H.
  - rewrite E. simpl. intros ->. reflexivity.
  - intros later. now rewrite get_access_token_eq.
  - unfold Utils.get_access_token, Utils.on_manager. simpl.
    destruct st as [m w]. simpl in *. now rewrite E.
  - intros Hh. unfold Utils.get_valid_token, Utils.on_manager. simpl.
    destruct st as [m w]. simpl in *.
    erewrite bind_ok_step
      by (apply refresh_if_needed_no_token; exact Hh).
    now rewrite E.
Qed.

(** An expired token (expiry 10, clock 1000) is still returned. *)
Lemma get_access_token_is_pure_read_witness :
  let st := mkState (configured_manager (PStr "EAAB") (PNum 10))
              (quiet_world 1000 dead_provider) in
  get_access_token st = (Ok (PStr "EAAB"), st).
Proof.
  intros st.
  exact (proj1 (get_access_token_is_pure_read st eq_refl)).
Defined.

(** * Further properties of the manager *)

(** ** [clear_token] *)

(** X1.  [clear_token] returns normally whatever the disk does and
    leaves the three token fields empty, so that [get_access_token]
    gives nothing afterwards; configuration, clock and request log are
    untouched.  The cache file is gone unless its removal is refused, in
    which case it stays as it was. *)
Theorem clear_token_wipes (st : state) :
  exists st',
    clear_token st = (Ok tt, st')
    /\ self st'
       = mkManager (client_id (self st)) (client_secret (self st))
           (redirect_uri (self st)) (scopes (self st)) PNone PNone PNone
    /\ get_access_token st' = (Ok PNone, st')
    /\ token_file (world st')
       = (if remove_denied (world st) then token_file (world st) else None)
    /\ net_log (world st') = net_log (world st)
    /\ clock (world st') = clock (world st).
Proof.
  destruct st as [m w]. unfold clear_token, os_remove. run.
  destruct (token_file w) as [f | ] eqn:Ef; run.
  - destruct (remove_denied w) eqn:Er; run; eexists;
      (split; [ reflexivity | ]); simpl; rewrite ?Ef;
      repeat split; reflexivity.
  - eexists. split; [ reflexivity | ]. simpl. rewrite Ef.
    destruct (remove_denied w); repeat split; reflexivity.
Qed.

(** ** What [refresh_if_needed] does with the provider's reply *)

(** X2.  A refresh that yields nothing leaves the credential in place:
    in a configured manager whose token is due, when the long-lived
    exchange fails or comes back empty, or its object carries no usable
    [access_token], [refresh_if_needed] returns normally after its one
    request, with the manager and the cache file as they were. *)
Theorem refresh_failure_keeps_token (st : state) (x : Z) :
  is_configured (self st) = true ->
  holds_token (self st) = true ->
  _token_expires_at (self st) = PNum x ->
  x - REFRESH_BUFFER_SECONDS <= clock (world st) ->
  let q := long_lived_params (self st) (_access_token (self st)) in
  let v := upgrade_value (provider (world st) (net_log (world st)) q) in
  (truthy v = false
   \/ exists d, v = PDict d /\ truthy (field "access_token" d) = false) ->
  refresh_if_needed st = (Ok tt, posted q st)
  /\ self (posted q st) = self st
  /\ token_file (world (posted q st)) = token_file (world st)
  /\ net_log (world (posted q st)) = (net_log (world st) ++ [q])%list.
Proof.
  intros Hc Hh He Hdue q v Hv.
  rewrite (refresh_if_needed_run st Hc Hh He Hdue). fold q. fold v.
  split; [ | split; [ apply posted_self | split; [ | apply posted_net_log ] ] ].
  - destruct Hv as [Hv | (d & Hv & Ha)].
    + now rewrite Hv.
    + rewrite Hv. destruct (truthy (PDict d)); [ | reflexivity ].
      simpl dict_get. unfold bind, ret. fold (field "access_token" d).
      now rewrite Ha.
  - unfold posted, client_post. destruct (outcome _); reflexivity.
Qed.

(** The provider is down: the overdue token stays. *)
Lemma refresh_failure_keeps_token_witness :
  let st := mkState (configured_manager (PStr "EAAB") (PNum 2000))
              (quiet_world 1000000 dead_provider) in
  fst (refresh_if_needed st) = Ok tt
  /\ self (snd (refresh_if_needed st)) = self st.
Proof.
  intros st.
  destruct (refresh_failure_keeps_token st (x := 2000)
              eq_refl eq_refl eq_refl) as (E & Hs & _).
  - vm_compute. discriminate.
  - left. reflexivity.
  - rewrite E. split; [ reflexivity | exact Hs ].
Defined.

(** X3.  A refresh that succeeds: the object of the long-lived exchange
    names a token [a] and a numeric lifetime (5184000 when it names
    none) in the exact range of a float.  The manager then holds [a],
    expiring at the clock after the request plus the lifetime; the
    refresh token in memory is kept and written to the cache file with
    the rest.  With a lifetime above the one-day buffer, calling
    [refresh_if_needed] again at once sends nothing. *)
Theorem refresh_success_renews (st : state) (x : Z)
    (d : list (string * pyval)) (n : Z) :
  is_configured (self st) = true ->
  holds_token (self st) = true ->
  _token_expires_at (self st) = PNum x ->
  x - REFRESH_BUFFER_SECONDS <= clock (world st) ->
  let q := long_lived_params (self st) (_access_token (self st)) in
  let rp := provider (world st) (net_log (world st)) q in
  upgrade_value rp = PDict d ->
  truthy (field "access_token" d) = true ->
  as_number (match lookup "expires_in" d with
             | Some e => e
             | None => PNum 5184000
             end) = Some n ->
  let now' := clock (world st) + latency rp in
  adds_exactly now' n = true ->
  let st' := snd (refresh_if_needed st) in
  fst (refresh_if_needed st) = Ok tt
  /\ _access_token (self st') = field "access_token" d
  /\ _token_expires_at (self st') = PNum (now' + n)
  /\ _refresh_token (self st') = _refresh_token (self st)
  /\ (on_write (world st) = WriteOk ->
      cached_object (token_file (world st'))
      = Some [("access_token", field "access_token" d);
              ("expires_at", PNum (now' + n));
              ("refresh_token", _refresh_token (self st))])
  /\ (REFRESH_BUFFER_SECONDS < n -> refresh_if_needed st' = (Ok tt, st')).
Proof.
  intros Hc Hh He Hdue q rp Hv Ha Hn now' Hx st'.
  destruct (refresh_if_needed_renews st (x := x) (d := d) Hc Hh He Hdue
              Hv Ha Hn (adds_exactly_fits _ _ Hx))
    as (st2 & F & Hat & Hex & Hrt & Hck & Hf).
  fold rp in Hex, Hck, Hf. fold now' in Hex, Hck, Hf.
  subst st'. rewrite F. simpl fst. simpl snd.
  split; [ reflexivity | ]. split; [ exact Hat | ]. split; [ exact Hex | ].
  split; [ exact Hrt | ].
  split. { intros Hw. rewrite Hf, Hw. reflexivity. }
  intros Hbig. apply (refresh_if_needed_not_due st2 Hex). rewrite Hck. lia.
Qed.

Lemma refresh_success_renews_witness :
  let st := mkState (configured_manager (PStr "EAAB") (PNum 2000))
              (quiet_world 1000000 friendly_provider) in
  let st' := snd (refresh_if_needed st) in
  _access_token (self st') = PStr "long"
  /\ _token_expires_at (self st') = PNum (1000000 + 1 + 5184000)
  /\ refresh_if_needed st' = (Ok tt, st').
Proof.
  intros st st'.
  destruct (refresh_success_renews st (x := 2000)
              (d := [("access_token", PStr "long"); ("expires_in", PNum 5184000)])
              (n := 5184000) eq_refl eq_refl eq_refl)
    as (_ & Ha & He & _ & _ & Hi); try reflexivity.
  - vm_compute. discriminate.
  - split; [ exact Ha | split; [ exact He | ] ].
    apply Hi. reflexivity.
Defined.

(** X4.  [refresh_if_needed] has no handler of its own.  When the
    long-lived exchange comes back with JSON that is truthy and not an
    object, the [.get] on it raises [AttributeError] to the caller, the
    manager untouched.  When the object names a token and a lifetime
    that is not a number, [_save_token] raises [TypeError] after the
    access token has been replaced: the new token is left with the old
    expiry. *)
Theorem refresh_if_needed_can_raise (st : state) (x : Z) :
  is_configured (self st) = true ->
  holds_token (self st) = true ->
  _token_expires_at (self st) = PNum x ->
  x - REFRESH_BUFFER_SECONDS <= clock (world st) ->
  let q := long_lived_params (self st) (_access_token (self st)) in
  let v := upgrade_value (provider (world st) (net_log (world st)) q) in
  (truthy v = true -> (forall d, v <> PDict d) ->
   exists msg,
     refresh_if_needed st = (Raise (AttributeError msg), posted q st)
     /\ self (posted q st) = self st)
  /\ (forall d e,
         v = PDict d ->
         truthy (field "access_token" d) = true ->
         lookup "expires_in" d = Some e ->
         as_number e = None ->
         exists msg st',
           refresh_if_needed st = (Raise (TypeError msg), st')
           /\ _access_token (self st') = field "access_token" d
           /\ _token_expires_at (self st') = PNum x).
Proof.
  intros Hc Hh He Hdue q v. split.
  - intros Ht Hnd. rewrite (refresh_if_needed_run st Hc Hh He Hdue).
    fold q. fold v. rewrite Ht.
    destruct v; try discriminate Ht;
      try (eexists; split; [ reflexivity | apply posted_self ]).
    now elim (Hnd kv).
  - intros d e Hv Ha Hl Hn.
    set (st1 := posted q st).
    destruct (save_token_not_numeric (field "access_token" d) e
                (_refresh_token (self st1)) st1 Hn)
      as (msg & st2 & Es & Hat & Hex).
    exists msg, st2. split; [ | split; [ exact Hat | ] ].
    + rewrite (refresh_if_needed_run st Hc Hh He Hdue).
      fold q. fold v. rewrite Hv. fold st1.
      assert (Ht : truthy (PDict d) = true).
      { destruct d; [ discriminate Ha | reflexivity ]. }
      rewrite Ht. simpl dict_get. rewrite Hl.
      unfold bind at 1. unfold ret at 1.
      unfold bind at 1. unfold ret at 1.
      fold (field "access_token" d). rewrite Ha.
      unfold bind at 1. unfold get_self at 1. exact Es.
    + rewrite Hex. unfold st1. now rewrite posted_self.
Qed.

(** The provider answers with a JSON list; and with a lifetime given as
    a string. *)
Lemma refresh_if_needed_can_raise_witness :
  let listing (_ : list params) (_ : params) : reply :=
    ok_json 1 (PList [PStr "renewed"]) in
  let stringly (_ : list params) (_ : params) : reply :=
    ok_json 1 (PDict [("access_token", PStr "renewed");
                      ("expires_in", PStr "5184000")]) in
  let st1 := mkState (configured_manager (PStr "EAAB") (PNum 2000))
               (quiet_world 1000000 listing) in
  let st2 := mkState (configured_manager (PStr "EAAB") (PNum 2000))
               (quiet_world 1000000 stringly) in
  (exists msg, fst (refresh_if_needed st1) = Raise (AttributeError msg))
  /\ (exists msg, fst (refresh_if_needed st2) = Raise (TypeError msg))
  /\ _access_token (self (snd (refresh_if_needed st2))) = PStr "renewed"
  /\ _token_expires_at (self (snd (refresh_if_needed st2))) = PNum 2000.
Proof.
  intros listing stringly st1 st2.
  assert (D1 : 2000 - REFRESH_BUFFER_SECONDS <= clock (world st1))
    by (vm_compute; discriminate).
  assert (D2 : 2000 - REFRESH_BUFFER_SECONDS <= clock (world st2))
    by (vm_compute; discriminate).
  destruct (proj1 (refresh_if_needed_can_raise st1 (x := 2000)
                     eq_refl eq_refl eq_refl D1) eq_refl)
    as (msg1 & E1 & _).
  { intros d. discriminate. }
  destruct (proj2 (refresh_if_needed_can_raise st2 (x := 2000)
                     eq_refl eq_refl eq_refl D2)
              [("access_token", PStr "renewed"); ("expires_in", PStr "5184000")]
              (PStr "5184000") eq_refl eq_refl eq_refl eq_refl)
    as (msg2 & st' & E2 & Ha & He).
  split; [ exists msg1; now rewrite E1 | ].
  split; [ exists msg2; now rewrite E2 | ].
  rewrite E2. split; assumption.
Defined.

(** ** [refresh_token] *)

(** A [True] from [refresh_token] comes after a 2xx reply carrying an
    object and after [_save_token]: the token the object names is the
    one in memory. *)
Lemma refresh_token_true_stores (st st' : state) :
  refresh_token st = (Ok true, st') ->
  let q := long_lived_params (self st) (_refresh_token (self st)) in
  let rp := provider (world st) (net_log (world st)) q in
  exists d,
    upgrade_value rp = PDict d
    /\ _access_token (self st') = field "access_token" d
    /\ exists n, _token_expires_at (self st') = PNum n.
Proof.
  unfold refresh_token. unfold bind at 1. unfold get_self at 1.
  destruct (negb (truthy (_refresh_token (self st)))); [ discriminate | ].
  intros H.
  set (q := long_lived_params (self st) (_refresh_token (self st))) in *.
  set (rp := provider (world st) (net_log (world st)) q).
  apply try_except_ok_inv in H as [H | (e & st1 & _ & H)];
    [ | discriminate H ].
  apply bind_ok_inv in H as (resp & st1 & Hp & H).
  apply bind_ok_inv in H as (u & st2 & Hs & H).
  apply bind_ok_inv in H as (td & st3 & Hd & H).
  apply bind_ok_inv in H as (a & st4 & Ha & H).
  apply bind_ok_inv in H as (e & st5 & _ & H).
  apply bind_ok_inv in H as (m' & st6 & _ & H).
  apply bind_ok_inv in H as (u2 & st7 & Hsave & H).
  injection H as <-.
  unfold client_post in Hp. fold rp in Hp.
  destruct (outcome rp) as [msg | r] eqn:Ho; [ discriminate Hp | ].
  injection Hp as -> _.
  unfold raise_for_status in Hs.
  destruct (is_success resp) eqn:Hsucc; [ | discriminate Hs ].
  destruct (content resp) as [ | | v] eqn:Hcn; try discriminate Hd.
  injection Hd as -> _.
  apply dict_get_ok_inv in Ha as [_ (kv & -> & ->)].
  apply save_token_ok_inv in Hsave as (n & _ & Hat & Hex & _).
  exists kv. split; [ | split; [ exact Hat | eexists; exact Hex ] ].
  unfold upgrade_value. now rewrite Ho, Hsucc, Hcn.
Qed.

Lemma try_except_ret_total {A} (m : M A) (x : A) (st : state) :
  exists a st', try_except m (fun _ => ret x) st = (Ok a, st').
Proof.
  unfold try_except. destruct (m st) as [[a | e] st1];
    do 2 eexists; reflexivity.
Qed.

(** X5.  [refresh_token] never raises: it returns a boolean.  Without a
    refresh token it returns [False] and does nothing.  With one it
    sends exactly one long-lived exchange keyed off the refresh token,
    whether or not client credentials are configured.  A [True] means
    that the reply was a token object and that the access token it
    names is now the one in memory; and [True] is what comes back
    whenever the reply is an object whose lifetime (3600 when it names
    none) is a number that converts to a float. *)
Theorem refresh_token_outcomes (st : state) :
  let q := long_lived_params (self st) (_refresh_token (self st)) in
  let rp := provider (world st) (net_log (world st)) q in
  exists b st',
    refresh_token st = (Ok b, st')
    /\ (truthy (_refresh_token (self st)) = false -> b = false /\ st' = st)
    /\ (truthy (_refresh_token (self st)) = true ->
        net_log (world st') = (net_log (world st) ++ [q])%list)
    /\ (b = true ->
        exists d,
          upgrade_value rp = PDict d
          /\ _access_token (self st') = field "access_token" d
          /\ exists n, _token_expires_at (self st') = PNum n)
    /\ (forall d n,
           truthy (_refresh_token (self st)) = true ->
           upgrade_value rp = PDict d ->
           as_number (match lookup "expires_in" d with
                      | Some e => e
                      | None => PNum 3600
                      end) = Some n ->
           too_large_for_float n = false ->
           b = true).
Proof.
  intros q rp.
  destruct (truthy (_refresh_token (self st))) eqn:Hr.
  - assert (E : refresh_token st
                = try_except
                    (response <- client_post q ;;
                     raise_for_status response ;;
                     token_data <- decode (content response) ;;
                     access_token <- dict_get token_data "access_token" PNone ;;
                     expires_in <- dict_get token_data "expires_in" (PNum 3600) ;;
                     m' <- get_self ;;
                     _save_token access_token expires_in (_refresh_token m') ;;
                     ret true)
                    (fun _ => ret false) st).
    { unfold refresh_token. unfold bind at 1. unfold get_self at 1.
      rewrite Hr. reflexivity. }
    destruct (refresh_token st) as [[b | e] st'] eqn:F.
    + exists b, st'. split; [ reflexivity | ].
      split; [ discriminate | ]. split; [ | split ].
      * intros _. change st' with (snd (@Ok bool b, st')). rewrite E.
        pose proof (posted_net_log q st) as Hp. unfold posted in Hp.
        unfold try_except at 1. unfold bind at 1.
        destruct (client_post q st) as [[resp | ex] st1]; simpl in Hp.
        -- rewrite <- Hp.
           match goal with
           | |- net_log (world (snd (match ?b st1 with _ => _ end))) = _ =>
               assert (K : keeps net_log
                             (try_except b (fun _ => ret false)))
                 by keeps_all;
               apply (K st1)
           end.
        -- exact Hp.
      * intros ->. apply (refresh_token_true_stores st F).
      * intros d n _ Hv Hn Hfit.
        destruct (refresh_token_renews st (d := d) Hr Hv Hn Hfit)
          as (st2 & F2 & _).
        rewrite F2 in F. now injection F as <- _.
    + exfalso.
      match type of E with
      | _ = try_except ?m _ _ =>
          destruct (try_except_ret_total m false st) as (b & st1 & T)
      end.
      rewrite T in E. discriminate E.
  - exists false, st. split.
    + unfold refresh_token. unfold bind at 1. unfold get_self at 1.
      rewrite Hr. reflexivity.
    + split; [ auto | split; [ discriminate | split; discriminate ] ].
Qed.

(** X6.  The refresh token is kept in memory but not in the cache file
    when a save names none: after [set_access_token] with a lifetime
    that converts to a float, the manager still holds its refresh token,
    while the file it has just written says [refresh_token: null], so
    that a manager constructed from that file has none. *)
Theorem set_access_token_drops_cached_refresh_token
    (st : state) (token : string) (n : Z)
    (environ : string -> option string) (later : state) :
  on_write (world st) = WriteOk ->
  too_large_for_float n = false ->
  let st' := snd (set_access_token token n st) in
  token_file (world later) = token_file (world st') ->
  fst (set_access_token token n st) = Ok tt
  /\ _refresh_token (self st') = _refresh_token (self st)
  /\ _refresh_token (self (snd (__init__ environ later))) = PNone
  /\ _access_token (self (snd (__init__ environ later))) = PStr token.
Proof.
  intros Hw Hfit st' Hf. subst st'. unfold set_access_token in *.
  destruct (save_token_numeric (PStr token) (PNum n) PNone st eq_refl Hfit)
    as (st1 & E & _ & _ & Hr & _ & _ & _ & _ & _ & _ & _ & _ & _ & _ & F).
  rewrite E in *. simpl in Hf |- *. rewrite F, Hw in Hf.
  rewrite init_spec, Hf. simpl. repeat split. exact Hr.
Qed.

Lemma set_access_token_drops_cached_refresh_token_witness :
  let st := mkState
              (mkManager (Some "app-id") (Some "app-secret")
                 "https://example.org/cb" "whatsapp_business_messaging"
                 (PStr "EAAB") (PNum 2000) (PStr "refresh-1"))
              (quiet_world 1000 dead_provider) in
  let st' := snd (set_access_token "EAAC" 3600 st) in
  _refresh_token (self st') = PStr "refresh-1"
  /\ _refresh_token
       (self (snd (__init__ (fun _ => None)
                     (mkState (unconfigured_manager PNone PNone) (world st')))))
     = PNone.
Proof.
  intros st st'.
  destruct (set_access_token_drops_cached_refresh_token st "EAAC" 3600
              (fun _ => None)
              (mkState (unconfigured_manager PNone PNone) (world st'))
              eq_refl eq_refl eq_refl) as (_ & Hm & Hf & _).
  split; [ exact Hm | exact Hf ].
Defined.

(** An unconfigured manager holding a refresh token still sends the
    exchange; and when the provider answers, [True] comes back with the
    renewed token in memory. *)
Lemma refresh_token_outcomes_witness :
  let st := mkState
              (mkManager None None "http://localhost:8080/callback"
                 "whatsapp_business_messaging"
                 (PStr "EAAB") (PNum 2000) (PStr "refresh-1"))
              (quiet_world 1000 dead_provider) in
  let up := mkState
              (mkManager None None "http://localhost:8080/callback"
                 "whatsapp_business_messaging"
                 (PStr "EAAB") (PNum 2000) (PStr "refresh-1"))
              (quiet_world 1000 friendly_provider) in
  (is_configured (self st) = false
   /\ net_log (world (snd (refresh_token st)))
      = [long_lived_params (self st) (PStr "refresh-1")])
  /\ fst (refresh_token up) = Ok true
  /\ _access_token (self (snd (refresh_token up))) = PStr "long".
Proof.
  intros st up. split; [ split; [ reflexivity | ] | ].
  - destruct (refresh_token_outcomes st) as (b & st' & E & _ & Hn & _).
    rewrite E. exact (Hn eq_refl).
  - destruct (refresh_token_outcomes up) as (b & st' & E & _ & _ & Hinv & Hfwd).
    assert (Hb : b = true).
    { apply (Hfwd [("access_token", PStr "long"); ("expires_in", PNum 5184000)]
               5184000); reflexivity. }
    subst b. rewrite E. split; [ reflexivity | ].
    destruct (Hinv eq_refl) as (d & Hd & Ha & _).
    simpl. rewrite Ha. vm_compute in Hd. injection Hd as <-. reflexivity.
Defined.

(** ** Failures of [exchange_code_for_token] *)

(** X7.  A code grant that fails is reported, not raised, and leaves the
    credential alone: in a configured manager the result is the failure
    dict carrying the provider's error message when the error body has
    one, else the text of the status, transport or decoding error; one
    request has been sent, and the manager and the cache file are as
    before. *)
Theorem exchange_failure_is_reported (code : string) (st : state) (err : pyval) :
  is_configured (self st) = true ->
  let q := code_params (self st) code in
  code_grant_error (provider (world st) (net_log (world st)) q) = Some err ->
  exchange_code_for_token code st = (Ok (failure_result err), posted q st)
  /\ self (posted q st) = self st
  /\ token_file (world (posted q st)) = token_file (world st)
  /\ net_log (world (posted q st)) = (net_log (world st) ++ [q])%list.
Proof.
  intros Hc q Herr.
  split; [ | split; [ apply posted_self | split; [ | apply posted_net_log ] ] ].
  - unfold exchange_code_for_token. unfold bind at 1. unfold get_self at 1.
    rewrite Hc. cbn [negb]. fold q.
    unfold code_grant_error in Herr. unfold posted.
    unfold try_except. unfold bind at 1. unfold client_post.
    destruct (outcome (provider (world st) (net_log (world st)) q))
      as [msg | resp].
    + injection Herr as <-. reflexivity.
    + unfold bind at 1. unfold raise_for_status.
      destruct (is_success resp).
      * unfold ret at 1. unfold bind at 1.
        destruct (content resp); try discriminate Herr;
          injection Herr as <-; reflexivity.
      * unfold raise at 1.
        destruct (content resp) as [ | | v]; try discriminate Herr.
        -- injection Herr as <-. reflexivity.
        -- destruct v; try discriminate Herr. run.
           destruct (lookup "error" kv) as [[ | | | | | ekv] | ];
             try discriminate Herr; injection Herr as <-; reflexivity.
  - unfold posted, client_post. destruct (outcome _); reflexivity.
Qed.

(** The provider rejects the code with a structured error. *)
Lemma exchange_failure_is_reported_witness :
  let rejecting (_ : list params) (_ : params) : reply :=
    mkReply 1
      (Answer
         (mkResponse false "Client error '400 Bad Request'"
            (Json (PDict [("error",
                           PDict [("message", PStr "Invalid verification code")])])))) in
  let st := mkState (configured_manager (PStr "EAAB") (PNum 2000))
              (quiet_world 1000 rejecting) in
  fst (exchange_code_for_token "abc" st)
  = Ok (failure_result (PStr "Invalid verification code"))
  /\ self (snd (exchange_code_for_token "abc" st)) = self st.
Proof.
  intros rejecting st.
  destruct (exchange_failure_is_reported "abc" st
              (err := PStr "Invalid verification code") eq_refl eq_refl)
    as (E & Hs & _).
  rewrite E. split; [ reflexivity | exact Hs ].
Defined.

(** X8.  The handler of [HTTPStatusError] decodes the error body
    outside any [try]: when the provider answers the code grant with an
    error status whose body is not JSON, is JSON but no object, or has an
    ["error"] entry that is no object, [exchange_code_for_token] raises
    to its caller instead of returning a failure result. *)
Theorem exchange_error_handler_can_raise (code : string) (st : state) :
  is_configured (self st) = true ->
  let q := code_params (self st) code in
  reply_readable (provider (world st) (net_log (world st)) q) = false ->
  exists e,
    exchange_code_for_token code st = (Raise e, posted q st)
    /\ is_status_error e = false.
Proof.
  intros Hc q Hr.
  unfold exchange_code_for_token. unfold bind at 1. unfold get_self at 1.
  rewrite Hc. cbn [negb]. fold q.
  unfold reply_readable in Hr. unfold posted.
  unfold try_except. unfold bind at 1. unfold client_post.
  destruct (outcome (provider (world st) (net_log (world st)) q))
    as [msg | resp]; [ discriminate Hr | ].
  apply orb_false_iff in Hr as [Hs Hb].
  unfold bind at 1. unfold raise_for_status. rewrite Hs. unfold raise at 1.
  destruct (content resp) as [ | | v]; try discriminate Hb.
  - eexists. split; reflexivity.
  - destruct v; try (eexists; split; reflexivity). simpl in Hb. run.
    destruct (lookup "error" kv) as [[ | | | | | ekv] | ];
      try discriminate Hb; eexists; split; reflexivity.
Qed.

(** A gateway answers 502 with an HTML page. *)
Lemma exchange_error_handler_can_raise_witness :
  let gateway (_ : list params) (_ : params) : reply :=
    mkReply 1 (Answer (mkResponse false "Server error '502 Bad Gateway'" Garbage)) in
  let st := mkState (configured_manager PNone PNone) (quiet_world 1000 gateway) in
  exists e, fst (exchange_code_for_token "abc" st) = Raise e.
Proof.
  intros gateway st.
  destruct (exchange_error_handler_can_raise "abc" st eq_refl eq_refl)
    as (e & E & _).
  exists e. now rewrite E.
Defined.

(** [_save_token] with a lifetime that is no number, in full. *)
Lemma save_token_stops (a e r : pyval) (st : state) :
  as_number e = None ->
  exists msg,
    _save_token a e r st
    = (Raise (TypeError msg),
       mkState
         (mkManager (client_id (self st)) (client_secret (self st))
            (redirect_uri (self st)) (scopes (self st)) a
            (_token_expires_at (self st)) (_refresh_token (self st)))
         (world st)).
Proof.
  intros Hn. destruct st as [m w].
  unfold _save_token, num_add. rewrite Hn. run.
  eexists. reflexivity.
Qed.

(** X9.  A failure result does not mean an untouched credential.  When
    the code grant names a lifetime that is not a number and no upgrade
    replaces it, [_save_token] stops between its two assignments: the
    call returns [success: False], yet the access token in memory is the
    new one, still paired with the old expiry, and nothing is written
    to the cache file. *)
Theorem exchange_bad_lifetime_half_saves (code : string) (st : state)
    (secs : Z) (line : string) (d1 : list (string * pyval)) :
  is_configured (self st) = true ->
  provider (world st) (net_log (world st)) (code_params (self st) code)
  = mkReply secs (Answer (mkResponse true line (Json (PDict d1)))) ->
  let short_token := field "access_token" d1 in
  let st1 := posted (code_params (self st) code) st in
  let rp2 := provider (world st1) (net_log (world st1))
               (long_lived_params (self st) short_token) in
  truthy (upgrade_value rp2) = false ->
  as_number (short_lifetime d1) = None ->
  exists msg st',
    exchange_code_for_token code st = (Ok (failure_result (PStr msg)), st')
    /\ _access_token (self st') = short_token
    /\ _token_expires_at (self st') = _token_expires_at (self st)
    /\ token_file (world st') = token_file (world st).
Proof.
  intros Hc H1 short_token st1 rp2 Hv Hn.
  rewrite (exchange_after_grant code st Hc H1).
  fold short_token. fold st1. fold rp2. rewrite Hv.
  set (st2 := posted _ st1).
  assert (Hs2 : self st2 = self st).
  { unfold st2, st1. now rewrite !posted_self. }
  assert (Hf2 : token_file (world st2) = token_file (world st)).
  { unfold st2, st1, posted, client_post.
    destruct (outcome _); destruct (outcome _); reflexivity. }
  destruct (save_token_stops short_token (short_lifetime d1)
              (field "refresh_token" d1) st2 Hn) as (msg & Es).
  exists msg. eexists. split.
  - unfold try_except, bind, ret; simpl.
    unfold field in Es. rewrite Es. reflexivity.
  - simpl. rewrite Hs2, Hf2. auto.
Qed.

(** The provider gives the lifetime as a string and then stops
    answering. *)
Lemma exchange_bad_lifetime_half_saves_witness :
  let stringly (log : list params) (_ : params) : reply :=
    match log with
    | [] => ok_json 2 (PDict [("access_token", PStr "short");
                              ("expires_in", PStr "3600")])
    | _ => mkReply 30 (NoAnswer "timed out")
    end in
  let st := mkState (configured_manager (PStr "EAAB") (PNum 2000))
              (quiet_world 1000 stringly) in
  (exists msg,
      fst (exchange_code_for_token "abc" st) = Ok (failure_result (PStr msg)))
  /\ _access_token (self (snd (exchange_code_for_token "abc" st))) = PStr "short"
  /\ _token_expires_at (self (snd (exchange_code_for_token "abc" st)))
     = PNum 2000.
Proof.
  intros stringly st.
  destruct (exchange_bad_lifetime_half_saves "abc" st (secs := 2)
              (line := "200 OK")
              (d1 := [("access_token", PStr "short"); ("expires_in", PStr "3600")])
              eq_refl eq_refl eq_refl eq_refl)
    as (msg & st' & E & Ha & He & _).
  rewrite E. split; [ now exists msg | split; assumption ].
Defined.

(** X24.  A lifetime that is an int too large for a float stops
    [_save_token] at the addition [time.time() + expires_in], after the
    access token has been assigned and before the expiry is assigned or
    anything is written.  [set_access_token] and [refresh_if_needed]
    pass the [OverflowError] on to the caller;
    [exchange_code_for_token] reports it as a failure.  Each time the
    new access token is left in memory with the old expiry and the
    cache file is as before. *)
Theorem oversized_lifetime_stops_the_save (st : state) (n : Z) :
  too_large_for_float n = true ->
  let overflow := OverflowError "int too large to convert to float" in
  (forall token,
      exists st',
        set_access_token token n st = (Raise overflow, st')
        /\ _access_token (self st') = PStr token
        /\ _token_expires_at (self st') = _token_expires_at (self st)
        /\ world st' = world st)
  /\ (forall code secs line d1,
         is_configured (self st) = true ->
         provider (world st) (net_log (world st)) (code_params (self st) code)
         = mkReply secs (Answer (mkResponse true line (Json (PDict d1)))) ->
         let short_token := field "access_token" d1 in
         let st1 := posted (code_params (self st) code) st in
         let rp2 := provider (world st1) (net_log (world st1))
                      (long_lived_params (self st) short_token) in
         truthy (upgrade_value rp2) = false ->
         as_number (short_lifetime d1) = Some n ->
         exists st',
           exchange_code_for_token code st
           = (Ok (failure_result (PStr (exn_str overflow))), st')
           /\ _access_token (self st') = short_token
           /\ _token_expires_at (self st') = _token_expires_at (self st)
           /\ token_file (world st') = token_file (world st))
  /\ (forall x d,
         is_configured (self st) = true ->
         holds_token (self st) = true ->
         _token_expires_at (self st) = PNum x ->
         x - REFRESH_BUFFER_SECONDS <= clock (world st) ->
         let q := long_lived_params (self st) (_access_token (self st)) in
         let rp := provider (world st) (net_log (world st)) q in
         upgrade_value rp = PDict d ->
         truthy (field "access_token" d) = true ->
         as_number (match lookup "expires_in" d with
                    | Some e => e
                    | None => PNum 5184000
                    end) = Some n ->
         exists st',
           refresh_if_needed st = (Raise overflow, st')
           /\ _access_token (self st') = field "access_token" d
           /\ _token_expires_at (self st') = PNum x
           /\ token_file (world st') = token_file (world st)).
Proof.
  intros Hbig overflow. split; [ | split ].
  - intros token. unfold set_access_token.
    rewrite (save_token_too_large (PStr token) (PNum n) PNone st eq_refl Hbig).
    eexists. split; [ reflexivity | ]. repeat split.
  - intros code secs line d1 Hc H1 short_token st1 rp2 Hv Hn.
    rewrite (exchange_after_grant code st Hc H1).
    fold short_token. fold st1. fold rp2. rewrite Hv.
    set (st2 := posted _ st1).
    assert (Hs2 : self st2 = self st).
    { unfold st2, st1. now rewrite !posted_self. }
    assert (Hf2 : token_file (world st2) = token_file (world st)).
    { unfold st2, st1.
      rewrite (proj1 (posted_disk _ _)). apply posted_disk. }
    pose proof (save_token_too_large short_token (short_lifetime d1)
                  (field "refresh_token" d1) st2 Hn Hbig) as Es.
    eexists. split.
    + unfold try_except, bind, ret; simpl.
      unfold field in Es. rewrite Es. reflexivity.
    + simpl. rewrite Hs2, Hf2. auto.
  - intros x d Hc Hh He Hdue q rp Hv Ha Hn.
    set (st1 := posted q st).
    pose proof (save_token_too_large (field "access_token" d) _
                  (_refresh_token (self st1)) st1 Hn Hbig) as Es.
    eexists. split.
    + rewrite (refresh_if_needed_run st Hc Hh He Hdue).
      fold q. fold rp. rewrite Hv. fold st1.
      assert (Ht : truthy (PDict d) = true).
      { destruct d; [ discriminate Ha | reflexivity ]. }
      rewrite Ht. simpl dict_get. unfold bind at 1. unfold ret at 1.
      unfold bind at 1. unfold ret at 1.
      fold (field "access_token" d). rewrite Ha.
      unfold bind at 1. unfold get_self at 1. exact Es.
    + simpl. unfold st1. rewrite posted_self, He.
      rewrite (proj1 (posted_disk _ _)). auto.
Qed.

(** The provider grants a token for [10 ** 400] seconds and then stops
    answering: the exchange reports the overflow as its error, with the
    new token already in memory. *)
Lemma oversized_lifetime_stops_the_save_witness :
  let generous (log : list params) (_ : params) : reply :=
    match log with
    | [] => ok_json 2 (PDict [("access_token", PStr "short");
                              ("expires_in", PNum (10 ^ 400))])
    | _ => mkReply 30 (NoAnswer "timed out")
    end in
  let st := mkState (configured_manager (PStr "EAAB") (PNum 2000))
              (quiet_world 1000 generous) in
  fst (exchange_code_for_token "abc" st)
  = Ok (failure_result (PStr "int too large to convert to float"))
  /\ _access_token (self (snd (exchange_code_for_token "abc" st))) = PStr "short"
  /\ _token_expires_at (self (snd (exchange_code_for_token "abc" st)))
     = PNum 2000
  /\ token_file (world (snd (exchange_code_for_token "abc" st))) = None.
Proof.
  intros generous st.
  assert (Hbig : too_large_for_float (10 ^ 400) = true)
    by (vm_compute; reflexivity).
  destruct (proj1 (proj2 (oversized_lifetime_stops_the_save st (10 ^ 400) Hbig))
              "abc" 2 "200 OK"
              [("access_token", PStr "short"); ("expires_in", PNum (10 ^ 400))]
              eq_refl eq_refl eq_refl eq_refl)
    as (st' & E & Ha & He & Hf).
  rewrite E. repeat split; assumption.
Defined.

(** ** The interactive flow, path by path *)

(** X10.  The listener is created before the [try]: when the port is
    taken, [start_local_oauth_flow] raises the [OSError] of the bind and
    nothing has happened yet, the redirect URI is untouched and no
    browser has been opened. *)
Theorem oauth_flow_port_in_use (st : state) (port : Z) :
  is_configured (self st) = true ->
  existsb (Z.eqb port) (listening (world st)) = true ->
  exists msg, start_local_oauth_flow port st = (Raise (OSError msg), st).
Proof.
  intros Hc Hbusy. unfold start_local_oauth_flow.
  unfold bind at 1. unfold get_self at 1. rewrite Hc. cbn [negb].
  unfold bind at 1. unfold TCPServer at 1.
  unfold bind at 1. unfold get_world at 1. rewrite Hbusy.
  eexists. reflexivity.
Qed.

Lemma oauth_flow_port_in_use_witness :
  let st := mkState (configured_manager PNone PNone)
              (set_listening [8080] (quiet_world 1000 friendly_provider)) in
  exists msg, start_local_oauth_flow 8080 st = (Raise (OSError msg), st).
Proof.
  intros st. exact (oauth_flow_port_in_use st 8080 eq_refl eq_refl).
Defined.

Lemma grows_of_keeps {A} (m : M A) : keeps net_log m -> grows m.
Proof. intros K st. exists []. now rewrite K, app_nil_r. Qed.

Lemma grows_bind {A B} (m : M A) (k : A -> M B) :
  grows m -> (forall a, grows (k a)) -> grows (bind m k).
Proof.
  intros Hm Hk st. unfold bind. destruct (Hm st) as (l1 & H1).
  destruct (m st) as [[a | e] st1]; simpl in *.
  - destruct (Hk a st1) as (l2 & H2). exists (l1 ++ l2)%list.
    now rewrite H2, H1, app_assoc.
  - now exists l1.
Qed.

Lemma grows_try_except {A} (m : M A) (h : exn -> M A) :
  grows m -> (forall e, grows (h e)) -> grows (try_except m h).
Proof.
  intros Hm Hh st. unfold try_except. destruct (Hm st) as (l1 & H1).
  destruct (m st) as [[a | e] st1]; simpl in *.
  - now exists l1.
  - destruct (Hh e st1) as (l2 & H2). exists (l1 ++ l2)%list.
    now rewrite H2, H1, app_assoc.
Qed.

Lemma grows_client_post (q : params) : grows (client_post q).
Proof.
  intros st. exists [q]. apply (posted_net_log q st).
Qed.

Lemma grows_long_lived_exchange (tok : pyval) :
  grows (_exchange_for_long_lived_token tok).
Proof.
  unfold _exchange_for_long_lived_token.
  apply grows_bind; [ apply grows_of_keeps; auto with keeps | intros m ].
  destruct (negb (is_configured m)); [ apply grows_of_keeps; auto with keeps | ].
  apply grows_try_except; [ | intros e; apply grows_of_keeps; auto with keeps ].
  apply grows_bind; [ apply grows_client_post | intros r ].
  apply grows_of_keeps. keeps_all.
Qed.

(** A configured [exchange_code_for_token] starts with the code grant
    and only adds requests after it. *)
Lemma exchange_logs_code_grant (code : string) (st : state) :
  is_configured (self st) = true ->
  exists more,
    net_log (world (snd (exchange_code_for_token code st)))
    = (net_log (world st) ++ code_params (self st) code :: more)%list.
Proof.
  intros Hc. unfold exchange_code_for_token.
  unfold bind at 1. unfold get_self at 1. rewrite Hc. cbn [negb].
  set (q := code_params (self st) code).
  match goal with
  | |- context [ try_except (bind (client_post q) ?k) ?h ] =>
      set (rest := k); set (handler := h)
  end.
  assert (Hh : forall e, grows (handler e)).
  { intros e. apply grows_of_keeps. subst handler. cbv beta. keeps_all. }
  assert (Hk : forall r, grows (try_except (rest r) handler)).
  { intros r. apply grows_try_except; [ | exact Hh ]. subst rest. cbv beta.
    repeat first
      [ apply grows_long_lived_exchange
      | apply grows_bind; [ | intros ? ]
      | apply grows_of_keeps; solve [ keeps_all ] ]. }
  pose proof (posted_net_log q st) as Hp. unfold posted in Hp.
  unfold try_except at 1. unfold bind at 1.
  destruct (client_post q st) as [[resp | ex] st1]; simpl in Hp.
  - destruct (Hk resp st1) as (more & Hm). unfold try_except in Hm.
    exists more. rewrite Hm, Hp, <- app_assoc. reflexivity.
  - destruct (Hh ex st1) as (more & Hm).
    exists more. rewrite Hm, Hp, <- app_assoc. reflexivity.
Qed.

Lemma keeps_client_post_browser_log (q : params) :
  keeps browser_log (client_post q).
Proof.
  intros st. unfold client_post. destruct (outcome _); reflexivity.
Qed.

Lemma keeps_dump_browser_log (v : pyval) :
  keeps browser_log (dump_json_file v).
Proof.
  intros [m w]. unfold dump_json_file. run. destruct (on_write w); reflexivity.
Qed.

#[local] Hint Resolve keeps_client_post_browser_log keeps_dump_browser_log
  : keeps.

Lemma keeps_save_token_browser_log (a e r : pyval) :
  keeps browser_log (_save_token a e r).
Proof. unfold _save_token. keeps_all. Qed.

Lemma keeps_long_lived_exchange_browser_log (tok : pyval) :
  keeps browser_log (_exchange_for_long_lived_token tok).
Proof. unfold _exchange_for_long_lived_token. keeps_all. Qed.

#[local] Hint Resolve keeps_save_token_browser_log
  keeps_long_lived_exchange_browser_log : keeps.

Lemma keeps_exchange_code_browser_log (code : string) :
  keeps browser_log (exchange_code_for_token code).
Proof. unfold exchange_code_for_token. keeps_all. Qed.

(** After [try ... finally: server.shutdown()] the world is the one the
    body left, without the listener. *)
Lemma finally_shutdown_world {A} (body_ : M A) (port : Z) (st : state) :
  world (snd (try_finally body_ (server_shutdown port) st))
  = set_listening
      (filter (fun p => negb (p =? port)) (listening (world (snd (body_ st)))))
      (world (snd (body_ st))).
Proof.
  unfold try_finally. destruct (body_ st) as [r st1]. reflexivity.
Qed.

(** The end of the flow's body leaves the state alone. *)
Lemma flow_verdict_state (r : pyval) (st : state) :
  snd ((ok <- dict_get r "success" PNone ;;
        if truthy ok then ret "Successfully authenticated and token cached."
        else
          error <- dict_get r "error" PNone ;;
          raise (ValueError ("Failed to exchange token: " ++ py_str error)))
         st) = st.
Proof.
  destruct r; try reflexivity. simpl dict_get. unfold bind, ret.
  destruct (truthy _); reflexivity.
Qed.

(** X11.  The flow once a code has come back in time.  The browser has
    been sent to the authorization URL with the local callback as
    redirect URI, and the code grant that follows names the same
    redirect URI.  Whatever result the exchange returns, the manager
    ends with the token fields the exchange left and the redirect URI it
    had before the flow, and the listener is gone.  A success result
    gives the success message with the new token in memory; a failure
    result is raised as [ValueError] carrying the error. *)
Theorem oauth_flow_with_code
    (st : state) (port : Z) (code : string) (t : Z) (rest : list (Z * hit))
    (r : pyval) (st2 : state) :
  is_configured (self st) = true ->
  existsb (Z.eqb port) (listening (world st)) = false ->
  wait_for 300 (visitor (world st)) = (Ok code, t, rest) ->
  exchange_code_for_token code (flow_state port t rest st) = (Ok r, st2) ->
  let final := start_local_oauth_flow port st in
  let m_flow := with_redirect_uri (local_callback port) (self st) in
  self (snd final) = with_redirect_uri (redirect_uri (self st)) (self st2)
  /\ listening (world (snd final)) = listening (world st)
  /\ browser_log (world (snd final))
     = (browser_log (world st) ++ [authorization_url m_flow])%list
  /\ (exists more,
         net_log (world (snd final))
         = (net_log (world st) ++ code_params m_flow code :: more)%list)
  /\ (forall a e,
         r = success_result a e ->
         fst final = Ok "Successfully authenticated and token cached."
         /\ _access_token (self (snd final)) = a)
  /\ (forall err,
         r = failure_result err ->
         fst final
         = Raise (ValueError ("Failed to exchange token: " ++ py_str err))).
Proof.
  intros Hc Hfree Hw Hx final m_flow.
  set (st_l := mkState (self st)
                 (set_listening (port :: listening (world st)) (world st))).
  eassert (E : final = try_finally _ (server_shutdown port) st_l).
  { subst final. unfold start_local_oauth_flow.
    unfold bind at 1. unfold get_self at 1. rewrite Hc. cbn [negb].
    unfold bind at 1. unfold TCPServer at 1.
    unfold bind at 1. unfold get_world at 1. rewrite Hfree.
    reflexivity. }
  match type of E with
  | _ = try_finally ?b _ _ => set (body_ := b) in *
  end.
  assert (K : keeps listening body_) by (subst body_; keeps_all).
  destruct (finally_shutdown port st_l K) as (Fr & Fs & _).
  pose proof (finally_shutdown_world body_ port st_l) as Fw.
  rewrite <- E in Fr, Fs, Fw.
  set (st_e := mkState (with_redirect_uri (redirect_uri (self st)) (self st2))
                 (world st2)).
  assert (Hb : body_ st_l
               = (ok <- dict_get r "success" PNone ;;
                  if truthy ok
                  then ret "Successfully authenticated and token cached."
                  else
                    error <- dict_get r "error" PNone ;;
                    raise (ValueError
                             ("Failed to exchange token: " ++ py_str error)))
                   st_e).
  { subst body_ st_l st_e.
    unfold is_configured in Hc.
    unfold get_authorization_url, webbrowser_open, await_auth_code,
      is_configured, with_redirect_uri.
    cbv [bind ret raise try_except get_self get_world put_self put_world
         set_redirect_uri]; simpl.
    rewrite Hc. simpl. rewrite Hw. simpl.
    match goal with
    | |- context [ exchange_code_for_token code ?s ] =>
        change s with (flow_state port t rest st)
    end.
    rewrite Hx. reflexivity. }
  assert (Hend : snd (body_ st_l) = st_e).
  { rewrite Hb. apply flow_verdict_state. }
  assert (Hl2 : listening (world st2) = port :: listening (world st)).
  { change st2 with (snd (Ok r, st2)). rewrite <- Hx.
    now rewrite keeps_exchange_code_listening. }
  assert (Hb2 : browser_log (world st2)
                = (browser_log (world st) ++ [authorization_url m_flow])%list).
  { change st2 with (snd (Ok r, st2)). rewrite <- Hx.
    now rewrite keeps_exchange_code_browser_log. }
  assert (Hn2 : exists more,
             net_log (world st2)
             = (net_log (world st) ++ code_params m_flow code :: more)%list).
  { destruct (exchange_logs_code_grant code (flow_state port t rest st) Hc)
      as (more & Hm).
    rewrite Hx in Hm. exists more. exact Hm. }
  rewrite Fs, Fw, Fr, Hend.
  split; [ reflexivity | ].
  split. { simpl. rewrite Hl2. simpl. rewrite Z.eqb_refl. simpl.
           now apply filter_other_ports. }
  split; [ exact Hb2 | ].
  split; [ exact Hn2 | ].
  split.
  - intros a e ->. rewrite Hb. split; [ reflexivity | ].
    simpl. apply exchange_success_stores in Hx as (n & _ & Ha & _). exact Ha.
  - intros err ->. rewrite Hb. reflexivity.
Qed.

(** The user approves after 40 seconds, past a stray favicon request. *)
Lemma oauth_flow_with_code_witness :
  let w := quiet_world 1000 friendly_provider in
  let st := mkState (configured_manager PNone PNone)
              (mkWorld (clock w) (provider w) (net_log w) (token_file w)
                 (on_write w) (remove_denied w)
                 [(5, OtherPath); (35, CallbackWithCode "abc")]
                 (listening w) (browser_log w)) in
  let final := start_local_oauth_flow 8080 st in
  fst final = Ok "Successfully authenticated and token cached."
  /\ _access_token (self (snd final)) = PStr "long"
  /\ redirect_uri (self (snd final)) = "https://example.org/cb"
  /\ listening (world (snd final)) = [].
Proof.
  intros w st final.
  destruct (oauth_flow_with_code st 8080 (code := "abc") (t := 40) (rest := [])
              (r := success_result (PStr "long") (PNum 5184000))
              (st2 := snd (exchange_code_for_token "abc" (flow_state 8080 40 [] st)))
              eq_refl eq_refl eq_refl eq_refl)
    as (Hs & Hl & _ & _ & Hok & _).
  destruct (Hok (PStr "long") (PNum 5184000) eq_refl) as (Hr & Ha).
  split; [ exact Hr | split; [ exact Ha | split; [ | exact Hl ] ] ].
  fold final in Hs. rewrite Hs. reflexivity.
Defined.

(** ** Cold start *)

(** X12.  Cold start from the cache: when the cache file holds an
    object, constructing a manager and asking it for the token returns
    the cached [access_token], whatever its expiry, and the world is
    untouched (no request is sent, the file is only read). *)
Theorem cold_start_reads_cache
    (environ : string -> option string) (st : state)
    (kv : list (string * pyval)) :
  cached_object (token_file (world st)) = Some kv ->
  optional_float (field "expires_at" kv) = true ->
  (__init__ environ ;; get_access_token) st
  = (Ok (field "access_token" kv),
     mkState
       (manager_of_env environ (field "access_token" kv)
          (field "expires_at" kv) (field "refresh_token" kv))
       (world st)).
Proof.
  intros Hf Hty. unfold bind. rewrite init_spec, Hf.
  now rewrite get_access_token_eq.
Qed.

(** The scenario of the specification: token ["A"], long expired. *)
Lemma cold_start_reads_cache_witness :
  let cache := PDict [("access_token", PStr "A"); ("expires_at", PNum 10);
                      ("refresh_token", PNone)] in
  let st := mkState (unconfigured_manager PNone PNone)
              (set_token_file (Some (Readable (Json cache)))
                 (quiet_world 1000 dead_provider)) in
  fst ((__init__ (fun _ => None) ;; get_access_token) st) = Ok (PStr "A")
  /\ net_log (world (snd ((__init__ (fun _ => None) ;; get_access_token) st)))
     = [].
Proof.
  intros cache st.
  rewrite (cold_start_reads_cache (fun _ => None) st
             (kv := [("access_token", PStr "A"); ("expires_at", PNum 10);
                     ("refresh_token", PNone)]) eq_refl eq_refl).
  split; reflexivity.
Defined.

(** ** [_exchange_for_long_lived_token] *)

(** X13.  [_exchange_for_long_lived_token] never raises and never
    touches the manager or the cache file.  Without client credentials
    it answers [None] at once.  With them it sends exactly one request
    and answers the JSON of a 2xx reply, and [None] for a transport
    error, an error status or a body that is not JSON. *)
Theorem long_lived_exchange_outcomes (tok : pyval) (st : state) :
  let q := long_lived_params (self st) tok in
  let rp := provider (world st) (net_log (world st)) q in
  _exchange_for_long_lived_token tok st
  = (if is_configured (self st)
     then (Ok (upgrade_value rp), posted q st)
     else (Ok PNone, st))
  /\ self (posted q st) = self st
  /\ token_file (world (posted q st)) = token_file (world st)
  /\ net_log (world (posted q st)) = (net_log (world st) ++ [q])%list
  /\ (forall v, upgrade_value rp = v -> v <> PNone ->
      exists resp, outcome rp = Answer resp
                   /\ is_success resp = true /\ content resp = Json v).
Proof.
  intros q rp.
  split; [ | split; [ apply posted_self | split; [ | split ] ] ].
  - destruct (is_configured (self st)) eqn:Hc.
    + now apply long_lived_exchange_configured.
    + unfold _exchange_for_long_lived_token. run. now rewrite Hc.
  - unfold posted, client_post. destruct (outcome _); reflexivity.
  - apply posted_net_log.
  - intros v Hv Hnn. unfold upgrade_value in Hv.
    destruct (outcome rp) as [msg | resp]; [ now elim Hnn | ].
    exists resp. split; [ reflexivity | ].
    destruct (is_success resp); [ | now elim Hnn ].
    split; [ reflexivity | ].
    destruct (content resp); try (now elim Hnn). now subst.
Qed.

(** A configured manager and a provider that answers: one request, and
    the object of the reply comes back. *)
Lemma long_lived_exchange_outcomes_witness :
  let st := mkState (configured_manager (PStr "short") (PNum 5000))
              (quiet_world 1000 friendly_provider) in
  let v := PDict [("access_token", PStr "long"); ("expires_in", PNum 5184000)] in
  fst (_exchange_for_long_lived_token (PStr "short") st) = Ok v
  /\ exists resp, content resp = Json v /\ is_success resp = true.
Proof.
  intros st v.
  destruct (long_lived_exchange_outcomes (PStr "short") st)
    as (E & _ & _ & _ & H).
  split; [ rewrite E; reflexivity | ].
  destruct (H v eq_refl) as (resp & _ & Hs & Hc); [ discriminate | ].
  exists resp. split; assumption.
Defined.

(** ** [get_valid_token] *)

(** X14.  [get_valid_token] of [utils.py]: with no manager the answer is
    [None].  With a configured manager holding a token, the stored token
    comes back untouched while it is more than a day from expiry; once
    it is due, the token the provider renews it with comes back,
    provided the lifetime it comes with converts to a float, and when
    the renewal yields nothing the old token comes back, expired or
    not, after the one request. *)
Theorem get_valid_token_outcomes (st : state) (x : Z) :
  let m := self st in
  let w := world st in
  let q := long_lived_params m (_access_token m) in
  let rp := provider w (net_log w) q in
  (forall w0, Utils.get_valid_token (None, w0) = (Ok PNone, (None, w0)))
  /\ (is_configured m = true ->
      holds_token m = true ->
      _token_expires_at m = PNum x ->
      (clock w < x - REFRESH_BUFFER_SECONDS ->
       Utils.get_valid_token (Some m, w) = (Ok (_access_token m), (Some m, w)))
      /\ (x - REFRESH_BUFFER_SECONDS <= clock w ->
          truthy (upgrade_value rp) = false ->
          Utils.get_valid_token (Some m, w)
          = (Ok (_access_token m), (Some m, world (posted q st))))
      /\ (forall d n,
             x - REFRESH_BUFFER_SECONDS <= clock w ->
             upgrade_value rp = PDict d ->
             truthy (field "access_token" d) = true ->
             as_number (match lookup "expires_in" d with
                        | Some e => e
                        | None => PNum 5184000
                        end) = Some n ->
             too_large_for_float n = false ->
             fst (Utils.get_valid_token (Some m, w))
             = Ok (field "access_token" d))).
Proof.
  destruct st as [m0 w0]. simpl self. simpl world.
  set (st := mkState m0 w0).
  intros m w q rp. split; [ reflexivity | ].
  intros Hc Hh He. subst m w.
  unfold Utils.get_valid_token, Utils.on_manager.
  cbn [fst snd]. fold st. split; [ | split ].
  - intros Hlt.
    erewrite bind_ok_step by (apply (refresh_if_needed_not_due st He Hlt)).
    rewrite get_access_token_eq by (simpl; now rewrite He).
    reflexivity.
  - intros Hdue Hv.
    assert (F : refresh_if_needed st = (Ok tt, posted q st)).
    { rewrite (refresh_if_needed_run st Hc Hh He Hdue). cbv zeta.
      change (truthy (upgrade_value
                        (provider (world st) (net_log (world st))
                           (long_lived_params (self st)
                              (_access_token (self st))))) = false) in Hv.
      now rewrite Hv. }
    erewrite bind_ok_step by exact F.
    rewrite get_access_token_eq
      by (rewrite posted_self; simpl; now rewrite He).
    now rewrite posted_self.
  - intros d n Hdue Hv Ha Hn Hfit.
    destruct (refresh_if_needed_renews st (x := x) (d := d) Hc Hh He Hdue
                Hv Ha Hn Hfit)
      as (st2 & F & Hat & Hex & _).
    erewrite bind_ok_step by exact F.
    rewrite get_access_token_eq by now rewrite Hex.
    simpl. now rewrite Hat.
Qed.

(** The provider is down and the token expired long ago: the old token
    is what the tools get.  With the provider up they get the renewed
    one. *)
Lemma get_valid_token_outcomes_witness :
  let st := mkState (configured_manager (PStr "EAAB") (PNum 2000))
              (quiet_world 1000000 dead_provider) in
  let up := mkState (configured_manager (PStr "EAAB") (PNum 2000))
              (quiet_world 1000000 friendly_provider) in
  fst (Utils.get_valid_token (Some (self st), world st)) = Ok (PStr "EAAB")
  /\ fst (Utils.get_valid_token (Some (self up), world up)) = Ok (PStr "long").
Proof.
  intros st up. split.
  - destruct (get_valid_token_outcomes st 2000) as (_ & H).
    destruct (H eq_refl eq_refl eq_refl) as (_ & Hf & _).
    rewrite Hf; [ reflexivity | | reflexivity ].
    vm_compute. discriminate.
  - destruct (get_valid_token_outcomes up 2000) as (_ & H).
    destruct (H eq_refl eq_refl eq_refl) as (_ & _ & Hr).
    assert (Hdue : 2000 - REFRESH_BUFFER_SECONDS <= clock (world up))
      by (vm_compute; discriminate).
    exact (Hr [("access_token", PStr "long"); ("expires_in", PNum 5184000)]
             5184000 Hdue eq_refl eq_refl eq_refl eq_refl).
Defined.

(** * Properties of [utils.py], [config.py] and the tool handlers *)

(** ** Which environment configures the manager *)

Lemma truthy_opt_str (o : option string) :
  truthy (opt_str o) = true <-> exists s, o = Some s /\ s <> "".
Proof.
  destruct o as [s | ]; simpl.
  - rewrite negb_true_iff. split.
    + intros H. exists s. split; [ reflexivity | ].
      intros ->. discriminate H.
    + intros (s' & E & Hne). injection E as ->.
      destruct (String.eqb_spec s' ""); [ now elim Hne | reflexivity ].
  - split; [ discriminate | intros (s & E & _); discriminate E ].
Qed.

(** X15.  A manager constructed from the environment is configured, and
    [USE_OAUTH2] is set, exactly when [WHATSAPP_CLIENT_ID] and
    [WHATSAPP_CLIENT_SECRET] are both set to non-empty strings; a
    variable set to the empty string counts as missing.  The cache file
    plays no part in it. *)
Theorem configured_iff_both_credentials
    (environ : string -> option string) (st : state) :
  let m := self (snd (__init__ environ st)) in
  (is_configured m = true
   <-> exists id secret,
         environ "WHATSAPP_CLIENT_ID" = Some id /\ id <> ""
         /\ environ "WHATSAPP_CLIENT_SECRET" = Some secret /\ secret <> "")
  /\ USE_OAUTH2 (Some m, world st) = is_configured m.
Proof.
  intros m. split; [ | reflexivity ].
  subst m. rewrite init_spec. unfold is_configured.
  assert (E : forall a e r,
             truthy (opt_str (client_id (manager_of_env environ a e r)))
             && truthy (opt_str (client_secret (manager_of_env environ a e r)))
             = true
             <-> exists id secret,
                 environ "WHATSAPP_CLIENT_ID" = Some id /\ id <> ""
                 /\ environ "WHATSAPP_CLIENT_SECRET" = Some secret
                 /\ secret <> "").
  { intros a e r. simpl. rewrite andb_true_iff, !truthy_opt_str. split.
    - intros ((i & Hi & Hin) & (s & Hs & Hsn)). now exists i, s.
    - intros (i & s & Hi & Hin & Hs & Hsn). split; eauto. }
  simpl. destruct (cached_object (token_file (world st))); apply E.
Qed.

(** ** [has_valid_token] *)

(** X16.  [has_valid_token] answers [False] without looking further
    when there is no manager or the manager lacks client credentials,
    even if a token is held.  With a configured manager it answers
    [True] for a held token; with none it answers [True] exactly when
    the file it falls back to is a readable JSON object with a truthy
    [access_token], whose three fields it then installs in the manager.
    It never sends a request. *)
Theorem has_valid_token_outcomes
    (other : option cache_file) (m : manager) (w : World) :
  optional_float (_token_expires_at m) = true ->
  Utils.has_valid_token other (None, w) = (Ok false, (None, w))
  /\ (is_configured m = false ->
      Utils.has_valid_token other (Some m, w) = (Ok false, (Some m, w)))
  /\ (is_configured m = true ->
      truthy (_access_token m) = true ->
      Utils.has_valid_token other (Some m, w) = (Ok true, (Some m, w)))
  /\ (is_configured m = true ->
      truthy (_access_token m) = false ->
      Utils.has_valid_token other (Some m, w)
      = match cached_object other with
        | Some kv =>
            if truthy (field "access_token" kv) then
              (Ok true,
               (Some (mkManager (client_id m) (client_secret m)
                        (redirect_uri m) (scopes m)
                        (field "access_token" kv) (field "expires_at" kv)
                        (field "refresh_token" kv)), w))
            else (Ok false, (Some m, w))
        | None => (Ok false, (Some m, w))
        end).
Proof.
  intros Hty. split; [ reflexivity | ].
  unfold Utils.has_valid_token, Utils.on_manager. cbn [fst snd].
  pose proof (get_access_token_eq (mkState m w) Hty) as G. simpl in G.
  split; [ | split ].
  - intros Hc. unfold bind at 1. unfold get_self at 1. cbn [self].
    rewrite Hc. reflexivity.
  - intros Hc Ht. unfold bind at 1. unfold get_self at 1. cbn [self].
    rewrite Hc. cbn [negb]. unfold bind at 1. rewrite G, Ht. reflexivity.
  - intros Hc Ht. unfold bind at 1. unfold get_self at 1. cbn [self].
    rewrite Hc. cbn [negb]. unfold bind at 1. rewrite G, Ht.
    unfold Utils.load_json, field.
    destruct other as [[ | [ | | v]] | ]; try reflexivity.
    destruct v; try reflexivity. run.
    destruct (truthy match lookup "access_token" kv with
                     | Some v => v
                     | None => PNone
                     end); reflexivity.
Qed.

(** An unconfigured manager holding a good token is reported as having
    none; a configured one picks the token up from the other file. *)
Lemma has_valid_token_outcomes_witness :
  let w := quiet_world 1000 dead_provider in
  let other := Some (Readable (Json (PDict [("access_token", PStr "EAAB");
                                            ("expires_at", PNum 9000)]))) in
  fst (Utils.has_valid_token None
         (Some (unconfigured_manager (PStr "EAAB") (PNum 9000)), w))
  = Ok false
  /\ Utils.has_valid_token other (Some (configured_manager PNone PNone), w)
     = (Ok true,
        (Some (configured_manager (PStr "EAAB") (PNum 9000)), w)).
Proof.
  intros w other. split.
  - destruct (has_valid_token_outcomes None
                (unconfigured_manager (PStr "EAAB") (PNum 9000)) w eq_refl)
      as (_ & H & _).
    now rewrite (H eq_refl).
  - destruct (has_valid_token_outcomes other
                (configured_manager PNone PNone) w eq_refl)
      as (_ & _ & _ & H).
    exact (H eq_refl eq_refl).
Defined.

(** ** The required-parameter check of the messaging tools *)

Lemma named_truthy (name : string) (value : pyval) :
  truthy (Tools.named name value) = true.
Proof. reflexivity. Qed.

(** X17.  [_missing] as the handlers call it, with all the pairs wrapped
    in one tuple: two pairs are taken for one name and one value, the
    value being a pair and so never falsy, and nothing is ever reported;
    three pairs or more cannot be unpacked and raise [ValueError].  Only
    with the pairs passed as separate arguments does it return the names
    whose values are falsy. *)
Theorem missing_as_called :
  (forall n1 v1 n2 v2,
      Tools._missing [[Tools.named n1 v1; Tools.named n2 v2]] = Ok [])
  /\ (forall a b c more,
         exists msg,
           Tools._missing [a :: b :: c :: more] = Raise (ValueError msg))
  /\ (forall l : list (pyval * pyval),
         Tools._missing (map (fun nv => [fst nv; snd nv]) l)
         = Ok (map fst (filter (fun nv => negb (truthy (snd nv))) l))).
Proof.
  split; [ reflexivity | split ].
  - intros a b c more. eexists. reflexivity.
  - induction l as [ | [n v] l IH]; [ reflexivity | ].
    simpl. simpl in IH. rewrite IH. destruct (truthy v); reflexivity.
Qed.

(** X18.  [send_reply] checks its three parameters with [_missing]
    first, and that call cannot unpack them: for every argument dict the
    handler raises [ValueError] before anything else happens, no token
    is fetched and no message is sent. *)
Theorem send_reply_always_raises
    (says_yes : pyval -> bool) (arguments : list (string * pyval))
    (s : Server) :
  exists msg,
    Tools.send_reply says_yes arguments s = (Raise (ValueError msg), s).
Proof. eexists. reflexivity. Qed.

(** ** The token gate of the handlers *)

(** X19.  No usable token, no request: when [get_valid_token] gives
    nothing (no manager, or no token held), [send_message],
    [send_contacts], [get_media_info] and [create_message_template]
    return the error envelope carrying the message of
    [get_token_error_message], and the Graph API is not called. *)
Theorem handlers_need_a_token
    (says_yes : pyval -> bool) (arguments : list (string * pyval))
    (s s1 : Server) (token : pyval) :
  Tools.get_valid_token s = (Ok token, s1) ->
  truthy token = false ->
  let refused :=
    (Ok (Utils.create_error_response
           (PStr (Utils.get_token_error_message (proc s1))) PNone), s1) in
  Tools.send_message says_yes arguments s = refused
  /\ Tools.send_contacts arguments s = refused
  /\ Tools.get_media_info arguments s = refused
  /\ Tools.create_message_template arguments s = refused
  /\ graph_log s1 = graph_log s.
Proof.
  intros Hg Ht refused.
  assert (Hl : graph_log s1 = graph_log s).
  { unfold Tools.get_valid_token, Tools.in_process in Hg.
    destruct (Utils.get_valid_token (proc s)) as [r p].
    injection Hg as _ <-. reflexivity. }
  unfold Tools.send_message, Tools.send_contacts, Tools.get_media_info,
    Tools.create_message_template, Tools.tbind.
  rewrite Hg, Ht. repeat split; assumption.
Qed.

(** The server runs without a manager. *)
Lemma handlers_need_a_token_witness :
  let s := mkServer (None, quiet_world 1000 dead_provider)
             (mkConfig (Some "1029") (Some "5550") "v18.0")
             (fun _ _ => mkReply 1 (NoAnswer "unreachable")) [] in
  Tools.send_contacts [("to_number", PStr "+15550100")] s
  = (Ok (Utils.create_error_response
           (PStr "OAuth2 manager not available. Ensure oauth_manager.py exists in the project directory.")
           PNone), s).
Proof.
  intros s.
  destruct (handlers_need_a_token (fun _ => false)
              [("to_number", PStr "+15550100")] s (s1 := s) (token := PNone)
              eq_refl eq_refl)
    as (_ & H & _).
  exact H.
Defined.

(** ** What the handlers send *)

Lemma stateless_tret {A} (a : A) : stateless (Tools.tret a).
Proof. intros s. reflexivity. Qed.

Lemma stateless_of_result {A} (r : result A) : stateless (Tools.of_result r).
Proof. intros s. reflexivity. Qed.

Lemma stateless_tbind {A B} (m : Tools.T A) (k : A -> Tools.T B) :
  stateless m -> (forall a, stateless (k a)) -> stateless (Tools.tbind m k).
Proof.
  intros Hm Hk s. unfold Tools.tbind. specialize (Hm s).
  destruct (m s) as [[a | e] s1]; simpl in *; subst s1.
  - apply Hk.
  - reflexivity.
Qed.

Lemma stateless_on_error (e : exn) : stateless (Tools.on_error e).
Proof.
  unfold Tools.on_error. destruct e; try apply stateless_tret.
  repeat (apply stateless_tbind; [ apply stateless_of_result | intros ? ]).
  apply stateless_tret.
Qed.

(** A handler's closing [try]: one request, then steps that change
    nothing. *)
Lemma closing_try_state {A} (c : api_call) (k : response -> Tools.T A)
    (h : exn -> Tools.T A) (s : Server) :
  (forall r, stateless (k r)) -> (forall e, stateless (h e)) ->
  snd (Tools.ttry (Tools.tbind (Tools.request c) k) h s) = requested c s.
Proof.
  intros Hk Hh. unfold Tools.ttry, Tools.tbind, requested.
  destruct (Tools.request c s) as [[r | e] s1]; simpl.
  - specialize (Hk r s1). destruct (k r s1) as [[a | e] s2]; simpl in *.
    + exact Hk.
    + subst s2. apply Hh.
  - apply Hh.
Qed.

Lemma requested_log (c : api_call) (s : Server) :
  graph_log (requested c s) = (graph_log s ++ [c])%list.
Proof.
  unfold requested, Tools.request. destruct (outcome _); reflexivity.
Qed.

Lemma truthy_some (phone : string) :
  phone <> "" -> truthy (opt_str (Some phone)) = true.
Proof.
  intros H. apply truthy_opt_str. now exists phone.
Qed.

(** X20.  [send_message] never refuses a call for a missing recipient
    or text: with a token and a phone number id it always posts one
    message, whose recipient and body are [str()] of whatever the
    arguments hold, the string ["None"] when they are absent. *)
Theorem send_message_sends_whatever
    (says_yes : pyval -> bool) (arguments : list (string * pyval))
    (s s1 : Server) (token : pyval) (phone : string) :
  Tools.get_valid_token s = (Ok token, s1) ->
  truthy token = true ->
  WHATSAPP_PHONE_NUMBER_ID (config s) = Some phone ->
  phone <> "" ->
  exists call payload preview,
    graph_log (snd (Tools.send_message says_yes arguments s))
    = (graph_log s ++ [call])%list
    /\ call_verb call = POST
    /\ call_url call
       = Tools.graph_url (WHATSAPP_API_VERSION (config s))
           [Fmt (PStr phone); Lit "/messages"]
    /\ call_headers call = [Tools.bearer token; Tools.json_content]
    /\ call_json call = PDict payload
    /\ lookup "to" payload
       = Some (PStr (py_str (Tools.arg "to_number" arguments)))
    /\ lookup "text" payload
       = Some (PDict [("body", PStr (py_str (Tools.arg "text" arguments)));
                      ("preview_url", PBool preview)]).
Proof.
  intros Hg Ht Hp Hne.
  assert (Hs1 : config s1 = config s /\ graph_log s1 = graph_log s).
  { unfold Tools.get_valid_token, Tools.in_process in Hg.
    destruct (Utils.get_valid_token (proc s)) as [r p].
    injection Hg as _ <-. split; reflexivity. }
  destruct Hs1 as [Hcfg Hlog].
  unfold Tools.send_message.
  unfold Tools.tbind at 1. rewrite Hg, Ht. cbn [negb].
  unfold Tools.tbind at 1. unfold Tools.get_config at 1.
  rewrite Hcfg, Hp, (truthy_some Hne). cbn [negb].
  unfold Tools.tbind at 1. cbn [Tools._missing Tools.of_result].
  rewrite !named_truthy. cbn [negb truthy].
  do 3 eexists. rewrite closing_try_state.
  - rewrite requested_log, Hlog. split; [ reflexivity | ].
    cbn [call_verb call_url call_headers call_json opt_str].
    repeat split; reflexivity.
  - intros r.
    repeat (apply stateless_tbind; [ apply stateless_of_result | intros ? ]).
    apply stateless_tret.
  - apply stateless_on_error.
Qed.

(** A call with no arguments at all sends the text ["None"] to the
    recipient ["None"]. *)
Lemma send_message_sends_whatever_witness :
  let w := quiet_world 1000 dead_provider in
  let s := mkServer (Some (configured_manager (PStr "EAAB") (PNum 99999999)), w)
             (mkConfig (Some "1029") (Some "5550") "v18.0")
             (fun _ _ => ok_json 1 (PDict [("messages", PList [])])) [] in
  exists call payload,
    graph_log (snd (Tools.send_message (fun _ => false) [] s)) = [call]
    /\ call_json call = PDict payload
    /\ lookup "to" payload = Some (PStr "None")
    /\ lookup "text" payload
       = Some (PDict [("body", PStr "None"); ("preview_url", PBool false)]).
Proof.
  intros w s.
  destruct (send_message_sends_whatever (fun _ => false) [] s (s1 := s)
              (token := PStr "EAAB") (phone := "5550") eq_refl eq_refl eq_refl)
    as (call & payload & preview & Hl & _ & _ & _ & Hj & Hto & Htx).
  { discriminate. }
  exists call, payload. split; [ exact Hl | split; [ exact Hj | ] ].
  split; [ exact Hto | ].
  simpl in Hl. injection Hl as <-. simpl in Hj. injection Hj as <-.
  reflexivity.
Defined.

(** X21.  [send_contacts] with a token and a phone number id: the only
    check that can stop it is the one on [contacts].  A non-empty list
    is posted as it is, to whatever [to_number] holds, unchecked and
    unconverted ([None] when absent); everything else is answered with
    "contacts must be a non-empty array" and no request. *)
Theorem send_contacts_checks_contacts_only
    (arguments : list (string * pyval)) (s s1 : Server) (token : pyval)
    (phone : string) :
  Tools.get_valid_token s = (Ok token, s1) ->
  truthy token = true ->
  WHATSAPP_PHONE_NUMBER_ID (config s) = Some phone ->
  phone <> "" ->
  let contacts := Tools.arg "contacts" arguments in
  (forall c cs,
      contacts = PList (c :: cs) ->
      graph_log (snd (Tools.send_contacts arguments s))
      = (graph_log s
           ++ [mkCall POST
                 (Tools.graph_url (WHATSAPP_API_VERSION (config s))
                    [Fmt (PStr phone); Lit "/messages"])
                 []
                 (PDict [("messaging_product", PStr "whatsapp");
                         ("recipient_type", PStr "individual");
                         ("to", Tools.arg "to_number" arguments);
                         ("type", PStr "contacts");
                         ("contacts", contacts)])
                 [Tools.bearer token; Tools.json_content]])%list)
  /\ ((forall c cs, contacts <> PList (c :: cs)) ->
      Tools.send_contacts arguments s
      = (Ok (Utils.create_error_response
               (PStr "contacts must be a non-empty array") PNone), s1)
      /\ graph_log s1 = graph_log s).
Proof.
  intros Hg Ht Hp Hne contacts.
  assert (Hs1 : config s1 = config s /\ graph_log s1 = graph_log s).
  { unfold Tools.get_valid_token, Tools.in_process in Hg.
    destruct (Utils.get_valid_token (proc s)) as [r p].
    injection Hg as _ <-. split; reflexivity. }
  destruct Hs1 as [Hcfg Hlog].
  assert (E : Tools.send_contacts arguments s
              = (if match contacts with
                    | PList (_ :: _) => false
                    | _ => true
                    end
                 then
                   Tools.tret
                     (Utils.create_error_response
                        (PStr "contacts must be a non-empty array") PNone)
                 else
                   Tools.ttry
                     (Tools.tbind
                        (Tools.request
                           (mkCall POST
                              (Tools.graph_url (WHATSAPP_API_VERSION (config s))
                                 [Fmt (PStr phone); Lit "/messages"])
                              []
                              (PDict [("messaging_product", PStr "whatsapp");
                                      ("recipient_type", PStr "individual");
                                      ("to", Tools.arg "to_number" arguments);
                                      ("type", PStr "contacts");
                                      ("contacts", contacts)])
                              [Tools.bearer token; Tools.json_content]))
                        (fun resp =>
                           Tools.tbind (Tools.of_result (Tools.check_status resp))
                             (fun _ =>
                                Tools.tbind
                                  (Tools.of_result (Tools.json_of (content resp)))
                                  (fun data =>
                                     Tools.tret
                                       (Utils.create_success_response data)))))
                     Tools.on_error) s1).
  { unfold Tools.send_contacts.
    unfold Tools.tbind at 1. rewrite Hg, Ht. cbn [negb].
    unfold Tools.tbind at 1. unfold Tools.get_config at 1.
    rewrite Hcfg, Hp, (truthy_some Hne). cbn [negb].
    unfold Tools.tbind at 1. cbn [Tools._missing Tools.of_result].
    rewrite !named_truthy. cbn [negb truthy opt_str]. reflexivity. }
  split.
  - intros c cs Hcs. rewrite E, Hcs. rewrite closing_try_state.
    + now rewrite requested_log, Hlog.
    + intros r.
      repeat (apply stateless_tbind; [ apply stateless_of_result | intros ? ]).
      apply stateless_tret.
    + apply stateless_on_error.
  - intros Hn. split; [ | exact Hlog ]. rewrite E.
    destruct contacts as [ | | | | [ | c cs] | ]; try reflexivity.
    now elim (Hn c cs).
Qed.

(** A contact card with no recipient is posted with [to: null]. *)
Lemma send_contacts_checks_contacts_only_witness :
  let w := quiet_world 1000 dead_provider in
  let s := mkServer (Some (configured_manager (PStr "EAAB") (PNum 99999999)), w)
             (mkConfig (Some "1029") (Some "5550") "v18.0")
             (fun _ _ => ok_json 1 (PDict [("messages", PList [])])) [] in
  let card := PDict [("name", PDict [("formatted_name", PStr "Ada")])] in
  exists call payload,
    graph_log (snd (Tools.send_contacts [("contacts", PList [card])] s)) = [call]
    /\ call_json call = PDict payload
    /\ lookup "to" payload = Some PNone.
Proof.
  intros w s card.
  destruct (send_contacts_checks_contacts_only [("contacts", PList [card])]
              s (s1 := s) (token := PStr "EAAB") (phone := "5550")
              eq_refl eq_refl eq_refl) as (H & _).
  { discriminate. }
  do 2 eexists. split; [ exact (H card [] eq_refl) | ].
  split; reflexivity.
Defined.

(** ** [get_media_info] and [create_message_template] *)

Lemma lookup_filter_other (k : string) (kv : list (string * pyval)) (k' : string) :
  lookup k' (filter (fun b => negb (fst b =? k)%string) kv)
  = if (k' =? k)%string then None else lookup k' kv.
Proof.
  induction kv as [ | [k0 v0] kv IH]; simpl.
  - now destruct (k' =? k)%string.
  - destruct (String.eqb_spec k0 k) as [-> | Hne]; simpl.
    + rewrite IH. destruct (String.eqb_spec k' k); reflexivity.
    + destruct (String.eqb_spec k' k0) as [-> | Hne'].
      * destruct (String.eqb_spec k0 k); [ contradiction | reflexivity ].
      * exact IH.
Qed.

(** X22.  [get_media_info] never hands out a download URL: when the
    Graph API answers with an object, the data of the success envelope
    has no ["url"] entry and every other entry of the answer. *)
Theorem get_media_info_hides_url
    (arguments : list (string * pyval)) (s s1 : Server) (token : pyval)
    (secs : Z) (line : string) (kv : list (string * pyval)) :
  Tools.get_valid_token s = (Ok token, s1) ->
  truthy token = true ->
  truthy (Tools.arg "media_id" arguments) = true ->
  let call := mkCall GET
                (Tools.graph_url (WHATSAPP_API_VERSION (config s))
                   [Fmt (Tools.arg "media_id" arguments)])
                [("fields", PStr "id,mime_type,sha256,file_size")]
                PNone [Tools.bearer token] in
  graph s (graph_log s) call
  = mkReply secs (Answer (mkResponse true line (Json (PDict kv)))) ->
  exists kv',
    fst (Tools.get_media_info arguments s)
    = Ok (Utils.create_success_response (PDict kv'))
    /\ lookup "url" kv' = None
    /\ (forall k, k <> "url" -> lookup k kv' = lookup k kv)
    /\ graph_log (snd (Tools.get_media_info arguments s))
       = (graph_log s ++ [call])%list.
Proof.
  intros Hg Ht Hm call Hr.
  assert (Hs1 : config s1 = config s /\ graph_log s1 = graph_log s
                /\ graph s1 = graph s).
  { unfold Tools.get_valid_token, Tools.in_process in Hg.
    destruct (Utils.get_valid_token (proc s)) as [r p].
    injection Hg as _ <-. repeat split; reflexivity. }
  destruct Hs1 as (Hcfg & Hlog & Hgr).
  exists (match lookup "url" kv with
          | Some _ => filter (fun b => negb (fst b =? "url")%string) kv
          | None => kv
          end).
  assert (E : Tools.get_media_info arguments s
              = (Ok (Utils.create_success_response
                       (PDict match lookup "url" kv with
                              | Some _ =>
                                  filter (fun b => negb (fst b =? "url")%string) kv
                              | None => kv
                              end)),
                 requested call s1)).
  { unfold Tools.get_media_info.
    unfold Tools.tbind at 1. rewrite Hg, Ht. cbn [negb]. rewrite Hm. cbn [negb].
    unfold Tools.tbind at 1. unfold Tools.get_config at 1. rewrite Hcfg.
    fold call. unfold Tools.ttry, Tools.tbind, requested, Tools.request.
    rewrite Hgr, Hlog, Hr. simpl.
    destruct (lookup "url" kv); reflexivity. }
  rewrite E. cbn [fst snd].
  split; [ reflexivity | split; [ | split ] ].
  - destruct (lookup "url" kv) eqn:Hu; [ | exact Hu ].
    now rewrite lookup_filter_other.
  - intros k Hk. destruct (lookup "url" kv); [ | reflexivity ].
    rewrite lookup_filter_other.
    destruct (String.eqb_spec k "url"); [ contradiction | reflexivity ].
  - now rewrite requested_log, Hlog.
Qed.

Lemma get_media_info_hides_url_witness :
  let w := quiet_world 1000 dead_provider in
  let answer := [("id", PStr "77"); ("url", PStr "https://cdn.example/77");
                 ("mime_type", PStr "image/png")] in
  let s := mkServer (Some (configured_manager (PStr "EAAB") (PNum 99999999)), w)
             (mkConfig (Some "1029") (Some "5550") "v18.0")
             (fun _ _ => ok_json 1 (PDict answer)) [] in
  fst (Tools.get_media_info [("media_id", PStr "77")] s)
  = Ok (Utils.create_success_response
          (PDict [("id", PStr "77"); ("mime_type", PStr "image/png")])).
Proof.
  intros w answer s.
  destruct (get_media_info_hides_url [("media_id", PStr "77")] s (s1 := s)
              (token := PStr "EAAB") (secs := 1) (line := "200 OK")
              (kv := answer) eq_refl eq_refl eq_refl eq_refl)
    as (kv' & E & _).
  reflexivity.
Defined.

(** X23.  [create_message_template] asks for its four parameters by key,
    not by value.  The names that are not keys of [arguments] are
    listed, in the order name, language, category, components, in an
    error that is returned before any request; when all four are keys
    one POST carries their values as they are, [None] included. *)
Theorem create_message_template_requires_keys
    (arguments : list (string * pyval)) (s s1 : Server) (token : pyval)
    (account : string) :
  Tools.get_valid_token s = (Ok token, s1) ->
  truthy token = true ->
  WHATSAPP_BUSINESS_ACCOUNT_ID (config s) = Some account ->
  account <> "" ->
  let absent :=
    filter (fun p => match lookup p arguments with
                     | None => true
                     | Some _ => false
                     end) ["name"; "language"; "category"; "components"] in
  (absent <> [] ->
   Tools.create_message_template arguments s
   = (Ok (Utils.create_error_response
            (PStr ("Missing required parameters: " ++ String.concat ", " absent))
            PNone), s1)
   /\ graph_log s1 = graph_log s)
  /\ ((forall p, In p ["name"; "language"; "category"; "components"] ->
                 lookup p arguments <> None) ->
      graph_log (snd (Tools.create_message_template arguments s))
      = (graph_log s
           ++ [mkCall POST
                 (Tools.graph_url (WHATSAPP_API_VERSION (config s))
                    [Fmt (PStr account); Lit "/message_templates"])
                 []
                 (PDict [("name", Tools.arg "name" arguments);
                         ("language", Tools.arg "language" arguments);
                         ("category", Tools.arg "category" arguments);
                         ("components", Tools.arg "components" arguments)])
                 [Tools.bearer token; Tools.json_content]])%list).
Proof.
  intros Hg Ht Ha Hne absent.
  assert (Hs1 : config s1 = config s /\ graph_log s1 = graph_log s).
  { unfold Tools.get_valid_token, Tools.in_process in Hg.
    destruct (Utils.get_valid_token (proc s)) as [r p].
    injection Hg as _ <-. split; reflexivity. }
  destruct Hs1 as [Hcfg Hlog].
  assert (E : Tools.create_message_template arguments s
              = match absent with
                | _ :: _ =>
                    Tools.tret
                      (Utils.create_error_response
                         (PStr ("Missing required parameters: "
                                ++ String.concat ", " absent)) PNone) s1
                | [] =>
                    Tools.ttry
                      (Tools.tbind
                         (Tools.request
                            (mkCall POST
                               (Tools.graph_url (WHATSAPP_API_VERSION (config s))
                                  [Fmt (PStr account); Lit "/message_templates"])
                               []
                               (PDict [("name", Tools.arg "name" arguments);
                                       ("language", Tools.arg "language" arguments);
                                       ("category", Tools.arg "category" arguments);
                                       ("components",
                                        Tools.arg "components" arguments)])
                               [Tools.bearer token; Tools.json_content]))
                         (fun resp =>
                            Tools.tbind
                              (Tools.of_result (Tools.check_status resp))
                              (fun _ =>
                                 Tools.tbind
                                   (Tools.of_result
                                      (Tools.json_of (content resp)))
                                   (fun data =>
                                      Tools.tret
                                        (Utils.create_success_response data)))))
                      Tools.on_error s1
                end).
  { unfold Tools.create_message_template.
    unfold Tools.tbind at 1. rewrite Hg, Ht. cbn [negb].
    unfold Tools.tbind at 1. unfold Tools.get_config at 1.
    rewrite Hcfg, Ha, (truthy_some Hne). cbn [negb opt_str].
    fold absent. destruct absent; reflexivity. }
  split.
  - intros Hab. split; [ | exact Hlog ]. rewrite E.
    destruct absent; [ contradiction | reflexivity ].
  - intros Hall. rewrite E.
    assert (Hnil : absent = []).
    { subst absent. simpl.
      repeat match goal with
             | |- context [lookup ?p arguments] =>
                 let H := fresh in
                 destruct (lookup p arguments) eqn:H;
                 [ | exfalso; apply (Hall p); [ simpl; tauto | exact H ] ]
             end.
      reflexivity. }
    rewrite Hnil. rewrite closing_try_state.
    + now rewrite requested_log, Hlog.
    + intros r.
      repeat (apply stateless_tbind; [ apply stateless_of_result | intros ? ]).
      apply stateless_tret.
    + apply stateless_on_error.
Qed.

(** Two of the four keys are absent: they are named, in order; a [None]
    under a key that is there raises no objection. *)
Lemma create_message_template_requires_keys_witness :
  let w := quiet_world 1000 dead_provider in
  let s := mkServer (Some (configured_manager (PStr "EAAB") (PNum 99999999)), w)
             (mkConfig (Some "1029") (Some "5550") "v18.0")
             (fun _ _ => ok_json 1 (PDict [("id", PStr "9")])) [] in
  fst (Tools.create_message_template
         [("components", PList []); ("name", PNone)] s)
  = Ok (Utils.create_error_response
          (PStr "Missing required parameters: language, category") PNone).
Proof.
  intros w s.
  destruct (create_message_template_requires_keys
              [("components", PList []); ("name", PNone)] s (s1 := s)
              (token := PStr "EAAB") (account := "1029")
              eq_refl eq_refl eq_refl) as (H & _).
  { discriminate. }
  destruct H as [H _]; [ discriminate | ].
  rewrite H. reflexivity.
Defined.
